(** * Cost accounting of the AI calling agent dashboard (web_app.py)

    A shallow embedding of [calculate_call_cost], of the [update_call]
    handler and of the [get_costs] aggregation, over IEEE-754 binary64
    arithmetic as specified by the standard library's [SpecFloat]. *)

From stdpp Require Import gmap strings list.
From Stdlib Require Import ZArith Lia Bool.
From Stdlib Require Import Floats.SpecFloat.

Local Open Scope Z_scope.

(** ** Binary64 arithmetic

    Python's [float] is the platform's C double.  The operations are the
    ones of [SpecFloat] at precision 53 and maximal exponent 1024: they
    round to nearest, ties to even. *)

Module B64.

Definition prec : Z := 53.
Definition emax : Z := 1024.

Abbreviation float := spec_float.

Definition pzero : float := S754_zero false.

Definition add : float -> float -> float := SFadd prec emax.
Definition mul : float -> float -> float := SFmul prec emax.
Definition div : float -> float -> float := SFdiv prec emax.
Definition ltb : float -> float -> bool := SFltb.

Definition is_zero (x : float) : bool :=
  match x with S754_zero _ => true | _ => false end.

Definition is_finite (x : float) : bool :=
  match x with S754_zero _ | S754_finite _ _ _ => true | _ => false end.

Definition is_infinite (x : float) : bool :=
  match x with S754_infinity _ => true | _ => false end.

(** The double nearest to the integer [z] (C's conversion of a long). *)
Definition of_Z (z : Z) : float := binary_normalize prec emax z 0 false.

(** The double nearest to the rational [±n/d]: the quotient is computed
    with enough bits and its remainder located, then rounded once. *)
Definition of_ratio (s : bool) (n d : positive) : float :=
  let '(q, e, l) := SFdiv_core_binary prec emax (Zpos n) 0 (Zpos d) 0 in
  binary_round_aux prec emax s q e l.

Definition pow10 (k : Z) : positive := Z.to_pos (10 ^ k).

(** A decimal literal of the source text: [digits] read as an integer,
    with [frac] digits after the point ([0.0059] is [literal 59 4]). *)
Definition literal (digits : positive) (frac : Z) : float :=
  of_ratio false digits (pow10 frac).

End B64.

Import B64.

(** ** Python numbers and exceptions *)

Inductive pynum :=
  | PInt (z : Z)
  | PFloat (f : float).

Inductive exn :=
  | KeyError (key : string)
  | OverflowError
  | ZeroDivisionError
  | SqlError
  | TypeError.

Inductive pyres (A : Type) :=
  | Ok (a : A)
  | Raise (e : exn).
Arguments Ok {A} a.
Arguments Raise {A} e.

Definition pybind {A B} (m : pyres A) (k : A -> pyres B) : pyres B :=
  match m with
  | Ok a => k a
  | Raise e => Raise e
  end.

Notation "'do' x <- m ; k" := (pybind m (fun x => k))
  (at level 10, x name, m at level 100, k at level 200).

Definition is_ok {A} (m : pyres A) : bool :=
  match m with Ok _ => true | Raise _ => false end.

(** [float(z)] for a Python int: correctly rounded, [OverflowError] when
    the rounded value does not fit a double. *)
Definition float_of_int (z : Z) : pyres float :=
  match of_Z z with
  | S754_infinity _ => Raise OverflowError
  | f => Ok f
  end.

Definition to_float (x : pynum) : pyres float :=
  match x with
  | PInt z => float_of_int z
  | PFloat f => Ok f
  end.

(** [x * y] *)
Definition py_mul (x y : pynum) : pyres pynum :=
  match x, y with
  | PInt a, PInt b => Ok (PInt (a * b))
  | _, _ =>
      do a <- to_float x;
      do b <- to_float y;
      Ok (PFloat (mul a b))
  end.

(** [x + y] *)
Definition py_add (x y : pynum) : pyres pynum :=
  match x, y with
  | PInt a, PInt b => Ok (PInt (a + b))
  | _, _ =>
      do a <- to_float x;
      do b <- to_float y;
      Ok (PFloat (add a b))
  end.

(** [x / y], true division. Between two ints the exact quotient is
    rounded once. *)
Definition py_truediv (x y : pynum) : pyres pynum :=
  match x, y with
  | PInt a, PInt b =>
      match b, a with
      | Z0, _ => Raise ZeroDivisionError
      | _, Z0 => Ok (PFloat pzero)
      | _, _ =>
          match of_ratio (xorb (a <? 0) (b <? 0)) (Z.to_pos (Z.abs a)) (Z.to_pos (Z.abs b)) with
          | S754_infinity _ => Raise OverflowError
          | f => Ok (PFloat f)
          end
      end
  | _, _ =>
      do a <- to_float x;
      do b <- to_float y;
      if is_zero b then Raise ZeroDivisionError else Ok (PFloat (div a b))
  end.

(** [x > 0] *)
Definition py_gt_0 (x : pynum) : bool :=
  match x with
  | PInt z => 0 <? z
  | PFloat f => ltb pzero f
  end.

(** Quotient of [n >= 0] by [d > 0] rounded to the nearest integer, ties
    to the even one. *)
Definition div_half_even (n d : Z) : Z :=
  let q := n / d in
  let r := n mod d in
  match 2 * r ?= d with
  | Lt => q
  | Gt => q + 1
  | Eq => if Z.even q then q else q + 1
  end.

(** The number of units [10^-ndigits] nearest to the exact value
    [m * 2^e] of a double. *)
Definition round_units (m : positive) (e ndigits : Z) : Z :=
  div_half_even (Zpos m * 2 ^ Z.max e 0 * 10 ^ Z.max ndigits 0)
                (2 ^ Z.max (- e) 0 * 10 ^ Z.max (- ndigits) 0).

(** The double that the decimal string of [u] units [10^-ndigits], with
    sign [s], parses to. *)
Definition of_units (s : bool) (u ndigits : Z) : float :=
  match u * 10 ^ Z.max (- ndigits) 0 with
  | Zpos n => of_ratio s n (pow10 (Z.max ndigits 0))
  | _ => S754_zero s
  end.

Definition NDIGITS_MAX : Z := 323.
Definition NDIGITS_MIN : Z := -308.

(** [float.__round__(x, ndigits)]: the value is rounded correctly to a
    decimal string with [ndigits] digits after the point, and the string
    is converted back to the nearest double. *)
Definition float_round (x : float) (ndigits : Z) : pyres float :=
  match x with
  | S754_finite s m e =>
      if NDIGITS_MAX <? ndigits then Ok x
      else if ndigits <? NDIGITS_MIN then Ok (mul pzero x)
      else
        let rounded := of_units s (round_units m e ndigits) ndigits in
        if is_infinite rounded then Raise OverflowError else Ok rounded
  | _ => Ok x
  end.

(** [int.__round__(z, ndigits)]: the int itself unless [ndigits] is
    negative. *)
Definition int_round (z : Z) (ndigits : Z) : Z :=
  if 0 <=? ndigits then z
  else
    let p := 10 ^ (- ndigits) in
    let u := div_half_even (Z.abs z) p in
    Z.sgn z * (u * p).

(** [round(x, ndigits)] *)
Definition py_round (x : pynum) (ndigits : Z) : pyres pynum :=
  match x with
  | PInt z => Ok (PInt (int_round z ndigits))
  | PFloat f => do r <- float_round f ndigits; Ok (PFloat r)
  end.

(** ** Pricing constants *)

Definition PRICING : gmap string pynum :=
  <["livekit_sip" := PFloat (literal 10 3)]>
  (<["deepgram_stt" := PFloat (literal 59 4)]>
  (<["deepgram_tts" := PFloat (literal 27 3)]>
  (<["groq_input" := PFloat (literal 59 8)]>
  (<["groq_output" := PFloat (literal 79 8)]>
  (<["avg_tokens_per_call" := PInt 2000]> ∅))))).

Definition USD_TO_INR : pynum := PFloat (literal 830 1).

(** [d[key]] *)
Definition getitem (d : gmap string pynum) (key : string) : pyres pynum :=
  match d !! key with
  | Some v => Ok v
  | None => Raise (KeyError key)
  end.

(** ** The cost calculator *)

Record call_cost := {
  cost_livekit : pynum;
  cost_stt : pynum;
  cost_tts : pynum;
  cost_llm : pynum;
  total_cost_usd : pynum;
  total_cost_inr : pynum;
  duration_minutes : pynum
}.

Section Calculator.

(** The two module globals the function reads. *)
Variable pricing : gmap string pynum.
Variable usd_to_inr : pynum.

Definition calculate_call_cost_with (duration_seconds : Z) : pyres call_cost :=
  do duration_minutes <- py_truediv (PInt duration_seconds) (PFloat (literal 600 1));
  do p_livekit <- getitem pricing "livekit_sip";
  do cost_livekit <- py_mul p_livekit duration_minutes;
  do p_stt <- getitem pricing "deepgram_stt";
  do cost_stt <- py_mul p_stt duration_minutes;
  do p_tts <- getitem pricing "deepgram_tts";
  do cost_tts <- py_mul p_tts duration_minutes;
  do avg_tokens <- getitem pricing "avg_tokens_per_call";
  do p_in <- getitem pricing "groq_input";
  do llm_in <- py_mul avg_tokens p_in;
  do p_out <- getitem pricing "groq_output";
  do llm_out <- py_mul avg_tokens p_out;
  do cost_llm <- py_add llm_in llm_out;
  do t1 <- py_add cost_livekit cost_stt;
  do t2 <- py_add t1 cost_tts;
  do total_usd <- py_add t2 cost_llm;
  do total_inr <- py_mul total_usd usd_to_inr;
  do r_livekit <- py_round cost_livekit 6;
  do r_stt <- py_round cost_stt 6;
  do r_tts <- py_round cost_tts 6;
  do r_llm <- py_round cost_llm 6;
  do r_usd <- py_round total_usd 4;
  do r_inr <- py_round total_inr 2;
  do r_minutes <- py_round duration_minutes 2;
  Ok {| cost_livekit := r_livekit;
        cost_stt := r_stt;
        cost_tts := r_tts;
        cost_llm := r_llm;
        total_cost_usd := r_usd;
        total_cost_inr := r_inr;
        duration_minutes := r_minutes |}.

End Calculator.

Definition calculate_call_cost : Z -> pyres call_cost :=
  calculate_call_cost_with PRICING USD_TO_INR.

(** A decimal constant with [frac] digits after the point, as a float. *)
Definition dec (digits : Z) (frac : Z) : pynum :=
  PFloat (of_units (digits <? 0) (Z.abs digits) frac).

(** ** The calls table

    One row per call, in rowid order.  Timestamps are seconds since the
    epoch (UTC, as CURRENT_TIMESTAMP stamps them).  A REAL column holds a
    double or NULL; a double that is not a NaN is stored and read back
    unchanged. *)

Record call_row := {
  row_id : Z;
  row_phone_number : string;
  row_room_name : option string;
  row_dispatch_id : option string;
  row_status : option string;
  row_duration : Z;
  row_notes : option string;
  row_created_at : Z;
  row_ended_at : option Z;
  row_cost_livekit : option float;
  row_cost_stt : option float;
  row_cost_tts : option float;
  row_cost_llm : option float;
  row_total_cost_usd : option float;
  row_total_cost_inr : option float
}.

Definition INT64_MIN : Z := - 2 ^ 63.
Definition INT64_MAX : Z := 2 ^ 63 - 1.

Definition fits_int64 (z : Z) : bool := (INT64_MIN <=? z) && (z <=? INT64_MAX).

(** Binding a Python int to a statement parameter. *)
Definition bind_int (z : Z) : pyres Z :=
  if fits_int64 z then Ok z else Raise OverflowError.

(** Binding a Python number to a parameter stored in a REAL column: an
    int is converted by the column affinity, a NaN becomes NULL. *)
Definition bind_real (x : pynum) : pyres (option float) :=
  match x with
  | PInt z => do i <- bind_int z; Ok (Some (of_Z i))
  | PFloat S754_nan => Ok None
  | PFloat f => Ok (Some f)
  end.

(** The assignments [update_call] can put in its UPDATE statement, each
    with the parameter bound to its placeholder. *)
Inductive assignment :=
  | SetStatus (v : string)
  | SetNotes (v : string)
  | SetDuration (v : Z)
  | SetCostLivekit (v : pynum)
  | SetCostStt (v : pynum)
  | SetCostTts (v : pynum)
  | SetCostLlm (v : pynum)
  | SetTotalCostUsd (v : pynum)
  | SetTotalCostInr (v : pynum)
  | SetEndedAtCurrentTimestamp.

(** Writing one column of a row. *)

Definition set_status (v : option string) (r : call_row) : call_row :=
  Build_call_row (row_id r) (row_phone_number r) (row_room_name r) (row_dispatch_id r)
    v (row_duration r) (row_notes r) (row_created_at r) (row_ended_at r)
    (row_cost_livekit r) (row_cost_stt r) (row_cost_tts r) (row_cost_llm r)
    (row_total_cost_usd r) (row_total_cost_inr r).

Definition set_notes (v : option string) (r : call_row) : call_row :=
  Build_call_row (row_id r) (row_phone_number r) (row_room_name r) (row_dispatch_id r)
    (row_status r) (row_duration r) v (row_created_at r) (row_ended_at r)
    (row_cost_livekit r) (row_cost_stt r) (row_cost_tts r) (row_cost_llm r)
    (row_total_cost_usd r) (row_total_cost_inr r).

Definition set_duration (v : Z) (r : call_row) : call_row :=
  Build_call_row (row_id r) (row_phone_number r) (row_room_name r) (row_dispatch_id r)
    (row_status r) v (row_notes r) (row_created_at r) (row_ended_at r)
    (row_cost_livekit r) (row_cost_stt r) (row_cost_tts r) (row_cost_llm r)
    (row_total_cost_usd r) (row_total_cost_inr r).

Definition set_ended_at (v : option Z) (r : call_row) : call_row :=
  Build_call_row (row_id r) (row_phone_number r) (row_room_name r) (row_dispatch_id r)
    (row_status r) (row_duration r) (row_notes r) (row_created_at r) v
    (row_cost_livekit r) (row_cost_stt r) (row_cost_tts r) (row_cost_llm r)
    (row_total_cost_usd r) (row_total_cost_inr r).

Definition set_cost_livekit (v : option float) (r : call_row) : call_row :=
  Build_call_row (row_id r) (row_phone_number r) (row_room_name r) (row_dispatch_id r)
    (row_status r) (row_duration r) (row_notes r) (row_created_at r) (row_ended_at r)
    v (row_cost_stt r) (row_cost_tts r) (row_cost_llm r)
    (row_total_cost_usd r) (row_total_cost_inr r).

Definition set_cost_stt (v : option float) (r : call_row) : call_row :=
  Build_call_row (row_id r) (row_phone_number r) (row_room_name r) (row_dispatch_id r)
    (row_status r) (row_duration r) (row_notes r) (row_created_at r) (row_ended_at r)
    (row_cost_livekit r) v (row_cost_tts r) (row_cost_llm r)
    (row_total_cost_usd r) (row_total_cost_inr r).

Definition set_cost_tts (v : option float) (r : call_row) : call_row :=
  Build_call_row (row_id r) (row_phone_number r) (row_room_name r) (row_dispatch_id r)
    (row_status r) (row_duration r) (row_notes r) (row_created_at r) (row_ended_at r)
    (row_cost_livekit r) (row_cost_stt r) v (row_cost_llm r)
    (row_total_cost_usd r) (row_total_cost_inr r).

Definition set_cost_llm (v : option float) (r : call_row) : call_row :=
  Build_call_row (row_id r) (row_phone_number r) (row_room_name r) (row_dispatch_id r)
    (row_status r) (row_duration r) (row_notes r) (row_created_at r) (row_ended_at r)
    (row_cost_livekit r) (row_cost_stt r) (row_cost_tts r) v
    (row_total_cost_usd r) (row_total_cost_inr r).

Definition set_total_cost_usd (v : option float) (r : call_row) : call_row :=
  Build_call_row (row_id r) (row_phone_number r) (row_room_name r) (row_dispatch_id r)
    (row_status r) (row_duration r) (row_notes r) (row_created_at r) (row_ended_at r)
    (row_cost_livekit r) (row_cost_stt r) (row_cost_tts r) (row_cost_llm r)
    v (row_total_cost_inr r).

Definition set_total_cost_inr (v : option float) (r : call_row) : call_row :=
  Build_call_row (row_id r) (row_phone_number r) (row_room_name r) (row_dispatch_id r)
    (row_status r) (row_duration r) (row_notes r) (row_created_at r) (row_ended_at r)
    (row_cost_livekit r) (row_cost_stt r) (row_cost_tts r) (row_cost_llm r)
    (row_total_cost_usd r) v.

(** An assignment with its parameter bound, as a function on rows;
    [now] is the reading of CURRENT_TIMESTAMP. *)
Definition bind_assignment (now : Z) (a : assignment) : pyres (call_row -> call_row) :=
  match a with
  | SetStatus v => Ok (set_status (Some v))
  | SetNotes v => Ok (set_notes (Some v))
  | SetDuration v => do d <- bind_int v; Ok (set_duration d)
  | SetCostLivekit v => do x <- bind_real v; Ok (set_cost_livekit x)
  | SetCostStt v => do x <- bind_real v; Ok (set_cost_stt x)
  | SetCostTts v => do x <- bind_real v; Ok (set_cost_tts x)
  | SetCostLlm v => do x <- bind_real v; Ok (set_cost_llm x)
  | SetTotalCostUsd v => do x <- bind_real v; Ok (set_total_cost_usd x)
  | SetTotalCostInr v => do x <- bind_real v; Ok (set_total_cost_inr x)
  | SetEndedAtCurrentTimestamp => Ok (set_ended_at (Some now))
  end.

(** All parameters are bound before the statement runs; the assignments
    then apply left to right. *)
Fixpoint bind_all (now : Z) (updates : list assignment) : pyres (call_row -> call_row) :=
  match updates with
  | [] => Ok (fun r => r)
  | a :: rest =>
      do f <- bind_assignment now a;
      do g <- bind_all now rest;
      Ok (fun r => g (f r))
  end.

(** [UPDATE calls SET updates WHERE id = call_id] *)
Definition execute_update (now : Z) (updates : list assignment) (call_id : Z)
    (calls : list call_row) : pyres (list call_row) :=
  do f <- bind_all now updates;
  do i <- bind_int call_id;
  Ok (map (fun r => if row_id r =? i then f r else r) calls).

(** ** The update handler *)

(** The handlers that write are modelled for a request whose connection
    gets the write lock of the database file.  SQLite lets one
    connection write at a time; a request that waits for the lock for
    more than five seconds raises OperationalError and is answered with
    status 500, with nothing written; the answers of the model are
    those of a request that did not have to wait that long. *)

(** The JSON body of the request: a key is [None] when it is absent.
    The duration is a whole number of seconds. *)
Record update_data := {
  data_status : option string;
  data_notes : option string;
  data_duration : option Z
}.

(** What the handler does besides computing: calls of the cost
    calculator and statements sent to the database. *)
Inductive event :=
  | CostCalculated (duration : Z)
  | Executed (updates : list assignment) (call_id : Z)
  | Committed.

Inductive response :=
  | Success
  | ServerError (e : exn).

Record outcome := {
  reply : response;
  calls_after : list call_row;
  journal : list event
}.

(** [status in ['completed', 'failed', 'no_answer']] *)
Definition is_terminal (status : option string) : bool :=
  match status with
  | Some v => String.eqb v "completed" || String.eqb v "failed" || String.eqb v "no_answer"
  | None => false
  end.

Definition cost_assignments (costs : call_cost) : list assignment :=
  [ SetCostLivekit (cost_livekit costs);
    SetCostStt (cost_stt costs);
    SetCostTts (cost_tts costs);
    SetCostLlm (cost_llm costs);
    SetTotalCostUsd (total_cost_usd costs);
    SetTotalCostInr (total_cost_inr costs) ].

(** The [updates] and [values] lists, built in step, and the calls of
    the calculator made on the way. *)
Definition collect_updates (data : update_data) : list event * pyres (list assignment) :=
  let updates := [] in
  let updates :=
    match data_status data with Some v => updates ++ [SetStatus v] | None => updates end in
  let updates :=
    match data_notes data with Some v => updates ++ [SetNotes v] | None => updates end in
  let ended updates :=
    if is_terminal (data_status data)
    then updates ++ [SetEndedAtCurrentTimestamp] else updates in
  match data_duration data with
  | Some d =>
      ([CostCalculated d],
       do costs <- calculate_call_cost d;
       Ok (ended (updates ++ [SetDuration d] ++ cost_assignments costs)))
  | None => ([], Ok (ended updates))
  end.

(** [update_call(call_id)] on the request body [data], at time [now],
    over the table [calls].  Any exception is answered with status 500
    and nothing is committed. *)
Definition update_call (call_id : Z) (data : update_data) (now : Z)
    (calls : list call_row) : outcome :=
  let '(calculated, collected) := collect_updates data in
  match collected with
  | Raise e => {| reply := ServerError e; calls_after := calls; journal := calculated |}
  | Ok [] => {| reply := Success; calls_after := calls; journal := calculated |}
  | Ok updates =>
      match execute_update now updates call_id calls with
      | Ok calls' =>
          {| reply := Success; calls_after := calls';
             journal := calculated ++ [Executed updates call_id; Committed] |}
      | Raise e => {| reply := ServerError e; calls_after := calls; journal := calculated |}
      end
  end.

(** ** The cost report *)

(** [SUM] over a REAL column: NULL without a non-NULL row, else the
    doubles added in row order from 0.0. *)
Definition sum_real (values : list (option float)) : option float :=
  match omap id values with
  | [] => None
  | present => Some (fold_left add present pzero)
  end.

(** [SUM] over an INTEGER column: exact, and an error as soon as the
    running sum leaves the 64-bit range. *)
Fixpoint sum_int_from (acc : Z) (values : list Z) : pyres Z :=
  match values with
  | [] => Ok acc
  | v :: rest =>
      if fits_int64 (acc + v) then sum_int_from (acc + v) rest else Raise SqlError
  end.

Definition sum_int (values : list Z) : pyres (option Z) :=
  match values with
  | [] => Ok None
  | _ => do s <- sum_int_from 0 values; Ok (Some s)
  end.

(** [COALESCE(x, 0)] *)
Definition coalesce_real (x : option float) : pynum :=
  match x with Some f => PFloat f | None => PInt 0 end.

Definition coalesce_int (x : option Z) : pynum :=
  match x with Some z => PInt z | None => PInt 0 end.

Definition SECONDS_PER_DAY : Z := 86400.

(** [DATE(t)], as a day number. *)
Definition sql_date (t : Z) : Z := t / SECONDS_PER_DAY.

Inductive window := today | week | month | all_time.

(** The WHERE clause of each query. A timestamp compares as a string
    with a date: it is not below the date of its own day. *)
Definition in_window (w : window) (now : Z) (r : call_row) : bool :=
  match w with
  | today => sql_date (row_created_at r) =? sql_date now
  | week => sql_date now - 7 <=? sql_date (row_created_at r)
  | month => sql_date now - 30 <=? sql_date (row_created_at r)
  | all_time => true
  end.

Record window_costs := {
  usd : pynum;
  inr : pynum;
  calls : Z
}.

(** The rows a window selects. *)
Definition window_rows (w : window) (now : Z) (table : list call_row) : list call_row :=
  filter (fun r => Is_true (in_window w now r)) table.

(** The query of one window, with the rounding applied to its row. *)
Definition window_query (w : window) (now : Z) (table : list call_row) : pyres window_costs :=
  let rows := window_rows w now table in
  do u <- py_round (coalesce_real (sum_real (map row_total_cost_usd rows))) 4;
  do i <- py_round (coalesce_real (sum_real (map row_total_cost_inr rows))) 2;
  Ok {| usd := u; inr := i; calls := Z.of_nat (length rows) |}.

(** [total_minutes = total_duration / 60.0 if total_duration > 0 else 0] *)
Definition total_minutes_of (total_duration : pynum) : pyres pynum :=
  if py_gt_0 total_duration
  then py_truediv total_duration (PFloat (literal 600 1))
  else Ok (PInt 0).

(** [cost_per_minute = total_usd / total_minutes if total_minutes > 0 else 0] *)
Definition cost_per_minute_of (total_usd total_minutes : pynum) : pyres pynum :=
  if py_gt_0 total_minutes
  then py_truediv total_usd total_minutes
  else Ok (PInt 0).

Record costs_report := {
  breakdown_livekit_sip : pynum;
  breakdown_deepgram_stt : pynum;
  breakdown_deepgram_tts : pynum;
  breakdown_groq_llm : pynum;
  totals_usd : pynum;
  totals_inr : pynum;
  totals_minutes : pynum;
  totals_cost_per_minute_usd : pynum;
  totals_cost_per_minute_inr : pynum;
  costs_today : window_costs;
  costs_week : window_costs;
  costs_month : window_costs
}.

(** [get_costs()] at time [now]: [Raise] stands for the 500 answer. *)
Definition get_costs (now : Z) (table : list call_row) : pyres costs_report :=
  let total_livekit := coalesce_real (sum_real (map row_cost_livekit table)) in
  let total_stt := coalesce_real (sum_real (map row_cost_stt table)) in
  let total_tts := coalesce_real (sum_real (map row_cost_tts table)) in
  let total_llm := coalesce_real (sum_real (map row_cost_llm table)) in
  let total_usd := coalesce_real (sum_real (map row_total_cost_usd table)) in
  let total_inr := coalesce_real (sum_real (map row_total_cost_inr table)) in
  do duration_sum <- sum_int (map row_duration table);
  let total_duration := coalesce_int duration_sum in
  do total_minutes <- total_minutes_of total_duration;
  do cost_per_minute <- cost_per_minute_of total_usd total_minutes;
  do b_livekit <- py_round total_livekit 4;
  do b_stt <- py_round total_stt 4;
  do b_tts <- py_round total_tts 4;
  do b_llm <- py_round total_llm 4;
  do t_usd <- py_round total_usd 4;
  do t_inr <- py_round total_inr 2;
  do t_minutes <- py_round total_minutes 2;
  do t_cpm_usd <- py_round cost_per_minute 4;
  do cpm_inr <- py_mul cost_per_minute USD_TO_INR;
  do t_cpm_inr <- py_round cpm_inr 2;
  do c_today <- window_query today now table;
  do c_week <- window_query week now table;
  do c_month <- window_query month now table;
  Ok {| breakdown_livekit_sip := b_livekit;
        breakdown_deepgram_stt := b_stt;
        breakdown_deepgram_tts := b_tts;
        breakdown_groq_llm := b_llm;
        totals_usd := t_usd;
        totals_inr := t_inr;
        totals_minutes := t_minutes;
        totals_cost_per_minute_usd := t_cpm_usd;
        totals_cost_per_minute_inr := t_cpm_inr;
        costs_today := c_today;
        costs_week := c_week;
        costs_month := c_month |}.

(** The aggregated total of a window, as the report shows it. *)
Definition window_total (w : window) (now : Z) (table : list call_row) : pyres pynum :=
  match w with
  | all_time => do r <- get_costs now table; Ok (totals_usd r)
  | _ => do c <- window_query w now table; Ok (usd c)
  end.

(** ** Ranges of doubles

    A double is [normal s lo hi] when it is finite and not zero, has
    sign [s], a mantissa of 53 bits and an exponent between [lo] and
    [hi]; [zero_or_normal lo hi] allows the zeros as well. *)

Definition normal (s : bool) (lo hi : Z) (x : float) : Prop :=
  exists m e, x = S754_finite s m e /\ Zdigits2 (Zpos m) = 53 /\ lo <= e <= hi.

Definition zero_or_normal (lo hi : Z) (x : float) : Prop :=
  (exists s, x = S754_zero s) \/ (exists s, normal s lo hi x).

(** [x] multiplied by two, when no overflow occurs. *)
Definition double (x : float) : float :=
  match x with
  | S754_finite s m e => S754_finite s m (e + 1)
  | _ => x
  end.

(** ** The values behind the calculator

    What [calculate_call_cost_with] computes before it rounds, when the
    five prices and the rate are doubles and the token count is an int,
    as in [PRICING]. *)

Definition sixty : float := literal 600 1.

Definition minutes_of (duration_seconds : Z) : float :=
  div (of_Z duration_seconds) sixty.

Definition raw_cost (price : float) (duration_seconds : Z) : float :=
  mul price (minutes_of duration_seconds).

Definition raw_llm (avg_tokens : Z) (p_in p_out : float) : float :=
  add (mul (of_Z avg_tokens) p_in) (mul (of_Z avg_tokens) p_out).

Definition raw_total (c_livekit c_stt c_tts c_llm : float) : float :=
  add (add (add c_livekit c_stt) c_tts) c_llm.

(** [nonneg lo hi]: the zero 0.0, or a positive double in the range. *)
Definition nonneg (lo hi : Z) (x : float) : Prop :=
  x = pzero \/ normal false lo hi x.

(** The range allowed for a unit price: 0.0, or a positive double with
    an exponent from -200 to -33 (a value between 2^-148 and 2^20). *)
Definition price_range (p : float) : Prop := nonneg (-200) (-33) p.

(** The range allowed for the exchange rate. *)
Definition rate_range (r : float) : Prop := nonneg (-100) (-33) r.

(** A Python number that is zero. *)
Definition is_zero_num (x : pynum) : Prop :=
  match x with
  | PInt z => z = 0
  | PFloat f => is_zero f = true
  end.


(** A price table holding the per-minute prices [p_livekit], [p_stt]
    and [p_tts] (as ints or doubles), the token prices [p_in] and
    [p_out] (doubles) and the token count [avg] (an int), all in
    range. *)
Definition price_table (pricing : gmap string pynum)
    (p_livekit p_stt p_tts p_in p_out : float) (avg : Z) : Prop :=
  (exists v, pricing !! "livekit_sip" = Some v /\ to_float v = Ok p_livekit) /\
  (exists v, pricing !! "deepgram_stt" = Some v /\ to_float v = Ok p_stt) /\
  (exists v, pricing !! "deepgram_tts" = Some v /\ to_float v = Ok p_tts) /\
  pricing !! "groq_input" = Some (PFloat p_in) /\
  pricing !! "groq_output" = Some (PFloat p_out) /\
  pricing !! "avg_tokens_per_call" = Some (PInt avg) /\
  price_range p_livekit /\ price_range p_stt /\ price_range p_tts /\
  price_range p_in /\ price_range p_out /\ 0 <= avg < 2 ^ 31.

(** The keys the calculator looks up. *)
Definition PRICING_KEYS : list string :=
  [ "livekit_sip"; "deepgram_stt"; "deepgram_tts";
    "avg_tokens_per_call"; "groq_input"; "groq_output" ].

(** The row that the INSERT of [dispatch_call] creates: the status is
    'dialing' and the other columns take their defaults. *)
Definition inserted_call (id : Z) (phone_number room_name dispatch_id : string)
    (created_at : Z) : call_row :=
  {| row_id := id;
     row_phone_number := phone_number;
     row_room_name := Some room_name;
     row_dispatch_id := Some dispatch_id;
     row_status := Some "dialing"%string;
     row_duration := 0;
     row_notes := None;
     row_created_at := created_at;
     row_ended_at := None;
     row_cost_livekit := Some pzero;
     row_cost_stt := Some pzero;
     row_cost_tts := Some pzero;
     row_cost_llm := Some pzero;
     row_total_cost_usd := Some pzero;
     row_total_cost_inr := Some pzero |}.

(** The six cost columns of a row hold the breakdown [c]. *)
Definition costs_stored (c : call_cost) (r : call_row) : Prop :=
  PFloat <$> row_cost_livekit r = Some (cost_livekit c) /\
  PFloat <$> row_cost_stt r = Some (cost_stt c) /\
  PFloat <$> row_cost_tts r = Some (cost_tts c) /\
  PFloat <$> row_cost_llm r = Some (cost_llm c) /\
  PFloat <$> row_total_cost_usd r = Some (total_cost_usd c) /\
  PFloat <$> row_total_cost_inr r = Some (total_cost_inr c).

(** How an update with a duration relates a row before to the row
    after: the rows of the call get the duration and the breakdown, the
    others stay. *)
Definition duration_written (call_id d : Z) (c : call_cost) (r r' : call_row) : Prop :=
  if row_id r =? call_id
  then row_id r' = call_id /\ row_duration r' = d /\ costs_stored c r'
  else r' = r.

(** The columns an update with a duration has to keep in step. *)
Definition accounting (r : call_row) : Z * Z * list (option float) :=
  (row_id r, row_duration r,
   [ row_cost_livekit r; row_cost_stt r; row_cost_tts r; row_cost_llm r;
     row_total_cost_usd r; row_total_cost_inr r ]).

(** The assignments that bind no number: status, notes and the end
    stamp. *)
Definition plain (a : assignment) : Prop :=
  match a with
  | SetStatus _ | SetNotes _ | SetEndedAtCurrentTimestamp => True
  | _ => False
  end.

(** The assignments collected from the status and notes keys. *)
Definition status_and_notes (data : update_data) : list assignment :=
  let updates := [] in
  let updates :=
    match data_status data with Some v => updates ++ [SetStatus v] | None => updates end in
  match data_notes data with Some v => updates ++ [SetNotes v] | None => updates end.

(** The magnitude of a finite double, in units of 2^-200 (an integer
    as long as the exponent is at least -200). *)
Definition scaled (x : float) : Z :=
  match x with
  | S754_finite _ m e => Zpos m * 2 ^ (e + 200)
  | _ => 0
  end.

(** A REAL cell that holds a finite double of ordinary size (zero, or
    a magnitude between 2^-248 and 2^353). *)
Definition ordinary (x : option float) : Prop :=
  exists f, x = Some f /\ zero_or_normal (-300) 300 f.

(** A row whose cost cells are ordinary and whose duration is below
    2^60 in magnitude. *)
Definition ordinary_row (r : call_row) : Prop :=
  ordinary (row_cost_livekit r) /\ ordinary (row_cost_stt r) /\
  ordinary (row_cost_tts r) /\ ordinary (row_cost_llm r) /\
  ordinary (row_total_cost_usd r) /\ ordinary (row_total_cost_inr r) /\
  Z.abs (row_duration r) < 2 ^ 60.


(** What a [COALESCE(SUM(..), 0)] over at most three ordinary cells
    can be: the int 0, or a finite double of bounded exponent. *)
Definition sum_range (v : pynum) : Prop :=
  v = PInt 0 \/ exists f, v = PFloat f /\ zero_or_normal (-456) 306 f.

(** The stored total of a row is the amount of [k] units of 0.0001
    USD, as [round(x, 4)] produces it. *)
Definition total_stored (k : Z) (r : call_row) : Prop :=
  PFloat <$> row_total_cost_usd r = Some (dec k 4).

(** The request body of a completed call of [d] seconds. *)
Definition completed_call (d : Z) : update_data :=
  {| data_status := Some "completed"%string;
     data_notes := None;
     data_duration := Some d |}.

(** Three dispatched calls, each then updated once with its duration.
    All of it happens on day 0. *)
Definition three_calls (d1 d2 d3 : Z) : list call_row :=
  let table :=
    [ inserted_call 1 "+15550100" "call-15550100-1001" "AD_1" 1000;
      inserted_call 2 "+15550101" "call-15550101-1002" "AD_2" 1100;
      inserted_call 3 "+15550102" "call-15550102-1003" "AD_3" 1200 ] in
  let table := calls_after (update_call 1 (completed_call d1) 2000 table) in
  let table := calls_after (update_call 2 (completed_call d2) 2100 table) in
  calls_after (update_call 3 (completed_call d3) 2200 table).

(** * The other handlers of web_app.py

    The handlers below work on three tables (calls, contacts and
    transcripts) and on the process environment.  What they read from
    outside the program (the clock, the random generator, the LiveKit
    service) is an argument of the model.  As for [update_call], the
    handlers that write are modelled for a request whose connection
    gets the write lock of the database file; a request that waits for
    it in vain is answered with status 500 and writes nothing. *)

From stdpp Require pretty sorting.
From Stdlib Require Import Ascii.

(** ** Strings and request bodies

    A Python [str] is a [string] whose characters are the code points
    below 256; [len] is then [String.length]. *)

(** [c.isspace()] for a code point below 256: the ASCII controls 9-13
    and 28-31, the space, NEL (133) and the no-break space (160). *)
Definition isspace (c : Ascii.ascii) : bool :=
  let n := Ascii.N_of_ascii c in
  ((9 <=? n) && (n <=? 13) || (28 <=? n) && (n <=? 32) || (n =? 133) || (n =? 160))%N.

Fixpoint lstrip (s : string) : string :=
  match s with
  | String c rest => if isspace c then lstrip rest else s
  | EmptyString => EmptyString
  end.

Fixpoint rstrip (s : string) : string :=
  match s with
  | EmptyString => EmptyString
  | String c rest =>
      match rstrip rest with
      | EmptyString => if isspace c then EmptyString else String c EmptyString
      | kept => String c kept
      end
  end.

(** [s.strip()] *)
Definition strip (s : string) : string := rstrip (lstrip s).

(** [s.replace(c, '')] for a single character [c]. *)
Fixpoint remove_char (c : Ascii.ascii) (s : string) : string :=
  match s with
  | EmptyString => EmptyString
  | String d rest =>
      if Ascii.eqb d c then remove_char c rest else String d (remove_char c rest)
  end.

(** The truth value of a string: [''] is false. *)
Definition nonempty (s : string) : bool :=
  match s with EmptyString => false | String _ _ => true end.

(** A key of the JSON body whose value, when present, is a string or
    [null].  (Values of other JSON types are outside the model.) *)
Inductive jfield :=
  | Absent
  | Null
  | Str (s : string).

(** [data.get(key)] and [data.get(key, default)]: [None] stands for
    Python's [None]. *)
Definition get (f : jfield) : option string :=
  match f with Str s => Some s | _ => None end.

Definition get_default (f : jfield) (default : string) : option string :=
  match f with Absent => Some default | Null => None | Str s => Some s end.

(** The truth value of such a value: [None] and [''] are false. *)
Definition truthy (v : option string) : bool :=
  match v with Some s => nonempty s | None => false end.

(** ** Values read from the database *)

(** A cell of a result row; a timestamp is kept as seconds since the
    epoch. *)
Inductive sqlvalue :=
  | SqlNull
  | SqlInt (z : Z)
  | SqlReal (f : float)
  | SqlText (s : string)
  | SqlTime (t : Z).

(** [dict(row)]: the selected columns with their values, in order. *)
Definition sqlrow := list (string * sqlvalue).

Definition text_or_null (v : option string) : sqlvalue :=
  match v with Some s => SqlText s | None => SqlNull end.

Definition real_or_null (v : option float) : sqlvalue :=
  match v with Some f => SqlReal f | None => SqlNull end.

Definition time_or_null (v : option Z) : sqlvalue :=
  match v with Some t => SqlTime t | None => SqlNull end.

(** The value of a column in a result row. *)
Fixpoint column (name : string) (row : sqlrow) : option sqlvalue :=
  match row with
  | [] => None
  | (k, v) :: rest => if String.eqb k name then Some v else column name rest
  end.

(** ** The tables *)

Record contact_row := {
  contact_id : Z;
  contact_name : string;
  contact_phone_number : string;
  contact_company : option string;
  contact_notes : option string;
  contact_tags : option string;
  contact_created_at : Z;
  contact_last_called : option Z
}.

Record transcript_row := {
  transcript_id : Z;
  transcript_call_id : Z;
  transcript_speaker : string;
  transcript_message : string;
  transcript_timestamp : Z
}.

(** The database file: the rows of each table in rowid order, and for
    each table the largest rowid it ever held (sqlite_sequence, kept
    for AUTOINCREMENT). *)
Record database := {
  calls_table : list call_row;
  calls_sequence : Z;
  contacts_table : list contact_row;
  contacts_sequence : Z;
  transcripts_table : list transcript_row;
  transcripts_sequence : Z
}.

(** The database [init_db] leaves when the file did not exist. *)
Definition empty_database : database :=
  {| calls_table := []; calls_sequence := 0;
     contacts_table := []; contacts_sequence := 0;
     transcripts_table := []; transcripts_sequence := 0 |}.

(** The rowid an INSERT gives to a new row of an AUTOINCREMENT table:
    one more than the largest rowid the table ever held; the insert
    fails when that was the largest 64-bit integer. *)
Definition next_rowid (sequence : Z) (ids : list Z) : pyres Z :=
  let largest := fold_right Z.max sequence ids in
  if largest <? INT64_MAX then Ok (largest + 1) else Raise SqlError.

(** [ORDER BY]: the rows of the scan, which come in rowid order, are
    put in the order of the key, and rows of equal keys stay in the
    order of the scan.  [R a b] says that [a] may stand before [b]; a
    row is put before the first row of those after it that it may
    stand before. *)
Fixpoint insert_ordered {A} (R : relation A) `{!RelDecision R} (row : A) (rows : list A)
    : list A :=
  match rows with
  | [] => [row]
  | next :: rest =>
      if decide (R row next) then row :: rows else next :: insert_ordered R row rest
  end.

Definition order_by {A} (R : relation A) `{!RelDecision R} (rows : list A) : list A :=
  fold_right (insert_ordered R) [] rows.

(** ** Placing a call: make_call and dispatch_call *)

Module Dialer.

(** What [os.getenv] returns for the variables the handlers read, after
    the reload of the [.env] file. *)
Record environment := {
  LIVEKIT_URL : option string;
  LIVEKIT_API_KEY : option string;
  LIVEKIT_API_SECRET : option string;
  VOBIZ_SIP_TRUNK_ID : option string;
  VOBIZ_OUTBOUND_NUMBER : option string
}.

(** The answers of [make_call]. *)
Inductive reply :=
  | Dispatched (call_id : Z) (dispatch_id room_name phone_number : string)
  | NotDispatched
  | PhoneNumberRequired
  | PhoneNumberWithoutPlus
  | PhoneNumberTooShort (phone_number : string)
  | CredentialsMissing
  | NotAString.

(** The HTTP status of each answer.  The dict [dispatch_call] returns
    is sent with [jsonify(result)], without a status, also when it
    reports a failure; [NotAString] is the AttributeError of
    [None.strip()], raised before the handler's [try]. *)
Definition http_status (r : reply) : Z :=
  match r with
  | Dispatched _ _ _ _ | NotDispatched => 200
  | PhoneNumberRequired | PhoneNumberWithoutPlus | PhoneNumberTooShort _ => 400
  | CredentialsMissing | NotAString => 500
  end.

(** The ['success'] key of the answer, when it is JSON. *)
Definition success (r : reply) : option bool :=
  match r with
  | Dispatched _ _ _ _ => Some true
  | NotAString => None
  | _ => Some false
  end.

(** [f"call-{phone_number.replace('+', '')}-{n}"] for the drawn [n] *)
Definition room_name_for (phone_number : string) (n : Z) : string :=
  "call-" +:+ remove_char "+"%char phone_number +:+ "-" +:+ pretty.pretty n.

(** [INSERT INTO calls (phone_number, room_name, dispatch_id, status)
    VALUES (?, ?, ?, 'dialing')], with [cursor.lastrowid]. *)
Definition insert_call (phone_number room_name dispatch_id : string) (now : Z)
    (db : database) : pyres (Z * database) :=
  do id <- next_rowid (calls_sequence db) (map row_id (calls_table db));
  Ok (id,
      {| calls_table :=
           calls_table db ++ [inserted_call id phone_number room_name dispatch_id now];
         calls_sequence := id;
         contacts_table := contacts_table db;
         contacts_sequence := contacts_sequence db;
         transcripts_table := transcripts_table db;
         transcripts_sequence := transcripts_sequence db |}).

Definition set_last_called (v : option Z) (c : contact_row) : contact_row :=
  {| contact_id := contact_id c;
     contact_name := contact_name c;
     contact_phone_number := contact_phone_number c;
     contact_company := contact_company c;
     contact_notes := contact_notes c;
     contact_tags := contact_tags c;
     contact_created_at := contact_created_at c;
     contact_last_called := v |}.

(** [UPDATE contacts SET last_called = CURRENT_TIMESTAMP
    WHERE phone_number = ?] *)
Definition touch_contacts (phone_number : string) (now : Z) (db : database) : database :=
  {| calls_table := calls_table db;
     calls_sequence := calls_sequence db;
     contacts_table :=
       map (fun c => if String.eqb (contact_phone_number c) phone_number
                     then set_last_called (Some now) c else c)
           (contacts_table db);
     contacts_sequence := contacts_sequence db;
     transcripts_table := transcripts_table db;
     transcripts_sequence := transcripts_sequence db |}.

(** [dispatch_call(url, api_key, api_secret, phone_number)].  [drawn]
    is the value of [random.randint(1000, 9999)]; [created] is the id
    of the dispatch LiveKit created for the room, or [None] when
    [create_dispatch] raised.  An exception inside the [try] is turned
    into the failure dict.  Building the client and closing it in the
    [finally] are taken not to raise. *)
Definition dispatch_call (phone_number : string) (drawn : Z)
    (created : string -> option string) (now : Z) (db : database) : reply * database :=
  let room_name := room_name_for phone_number drawn in
  match created room_name with
  | None => (NotDispatched, db)
  | Some dispatch_id =>
      match insert_call phone_number room_name dispatch_id now db with
      | Raise _ => (NotDispatched, db)
      | Ok (call_id, db) =>
          (Dispatched call_id dispatch_id room_name phone_number,
           touch_contacts phone_number now db)
      end
  end.

(** [make_call()] on the body key ['phone_number']. *)
Definition make_call (env : environment) (phone_number : jfield) (drawn : Z)
    (created : string -> option string) (now : Z) (db : database) : reply * database :=
  match get_default phone_number "" with
  | None => (NotAString, db)
  | Some given =>
      let phone_number := strip given in
      if negb (nonempty phone_number) then (PhoneNumberRequired, db)
      else if negb (String.prefix "+" phone_number) then (PhoneNumberWithoutPlus, db)
      else if (String.length phone_number <? 8)%nat then (PhoneNumberTooShort phone_number, db)
      else if negb (truthy (LIVEKIT_URL env) && truthy (LIVEKIT_API_KEY env)
                    && truthy (LIVEKIT_API_SECRET env))
      then (CredentialsMissing, db)
      else dispatch_call phone_number drawn created now db
  end.

(** The answer of [get_status()]. *)
Record status := {
  configured : bool;
  livekit_url : string;
  trunk_configured : bool;
  outbound_number : string
}.

Definition or_not_configured (v : option string) : string :=
  match v with
  | Some s => if nonempty s then s else "Not configured"
  | None => "Not configured"
  end.

Definition get_status (env : environment) : status :=
  {| configured := truthy (LIVEKIT_URL env) && truthy (LIVEKIT_API_KEY env)
                   && truthy (LIVEKIT_API_SECRET env) && truthy (VOBIZ_SIP_TRUNK_ID env);
     livekit_url := or_not_configured (LIVEKIT_URL env);
     trunk_configured := truthy (VOBIZ_SIP_TRUNK_ID env);
     outbound_number := or_not_configured (VOBIZ_OUTBOUND_NUMBER env) |}.

End Dialer.

(** ** The call history: get_calls *)

Module History.

Inductive reply :=
  | Listed (calls : list sqlrow)
  | ServerError.

(** The columns the SELECT of [get_calls] names. *)
Definition listed (r : call_row) : sqlrow :=
  [ ("id", SqlInt (row_id r));
    ("phone_number", SqlText (row_phone_number r));
    ("room_name", text_or_null (row_room_name r));
    ("status", text_or_null (row_status r));
    ("duration", SqlInt (row_duration r));
    ("notes", text_or_null (row_notes r));
    ("created_at", SqlTime (row_created_at r));
    ("ended_at", time_or_null (row_ended_at r));
    ("cost_livekit", real_or_null (row_cost_livekit r));
    ("cost_stt", real_or_null (row_cost_stt r));
    ("cost_tts", real_or_null (row_cost_tts r));
    ("cost_llm", real_or_null (row_cost_llm r));
    ("total_cost_usd", real_or_null (row_total_cost_usd r));
    ("total_cost_inr", real_or_null (row_total_cost_inr r)) ].

(** [ORDER BY created_at DESC]: rows created in the same second stay
    in rowid order. *)
Definition not_older (a b : call_row) : Prop := row_created_at b <= row_created_at a.

#[global] Instance not_older_dec : RelDecision not_older :=
  fun a b => decide (row_created_at b <= row_created_at a).

Definition newest_first (calls : list call_row) : list call_row :=
  order_by not_older calls.

(** [LIMIT n]: a negative [n] means no limit. *)
Definition limit_rows {A} (n : Z) (rows : list A) : list A :=
  if n <? 0 then rows else take (Z.to_nat n) rows.

(** [get_calls()]: [limit] is what [request.args.get('limit', 50,
    type=int)] yields from the query string, that is [None] when the
    parameter is absent or is not the text of an int. *)
Definition get_calls (limit : option Z) (db : database) : reply :=
  let limit := default 50 limit in
  match bind_int limit with
  | Raise _ => ServerError
  | Ok n => Listed (map listed (limit_rows n (newest_first (calls_table db))))
  end.

End History.

(** ** Contacts *)

Module Contacts.

(** The body of a POST or PUT request. *)
Record contact_data := {
  name : jfield;
  phone_number : jfield;
  company : jfield;
  notes : jfield;
  tags : jfield
}.

Inductive reply :=
  | Added (contact_id : Z)
  | Updated
  | Deleted
  | Listed (contacts : list sqlrow)
  | NameAndPhoneRequired
  | PhoneNumberExists
  | ServerError.

Definition http_status (r : reply) : Z :=
  match r with
  | Added _ | Updated | Deleted | Listed _ => 200
  | NameAndPhoneRequired | PhoneNumberExists => 400
  | ServerError => 500
  end.

Definition with_contacts (db : database) (contacts : list contact_row) (sequence : Z)
    : database :=
  {| calls_table := calls_table db;
     calls_sequence := calls_sequence db;
     contacts_table := contacts;
     contacts_sequence := sequence;
     transcripts_table := transcripts_table db;
     transcripts_sequence := transcripts_sequence db |}.

(** The UNIQUE constraint on phone_number, for a row other than the
    ones in [except]. *)
Definition phone_taken (phone : string) (contacts : list contact_row) : bool :=
  existsb (fun c => String.eqb (contact_phone_number c) phone) contacts.

(** [data.get(key, '').strip()] on the five keys, in the order of the
    source; [None] when one of them raises (the value is [null]). *)
Definition stripped_fields (data : contact_data)
    : option (string * string * string * string * string) :=
  match get_default (name data) "", get_default (phone_number data) "",
        get_default (company data) "", get_default (notes data) "",
        get_default (tags data) "" with
  | Some n, Some p, Some c, Some o, Some t =>
      Some (strip n, strip p, strip c, strip o, strip t)
  | _, _, _, _, _ => None
  end.

(** [add_contact()].  When the INSERT is refused the handler returns
    without closing its connection, which then keeps the write lock
    until it is collected; the model has the tables, which a refused
    insert leaves as they were, and not the lock. *)
Definition add_contact (data : contact_data) (now : Z) (db : database) : reply * database :=
  match stripped_fields data with
  | None => (ServerError, db)
  | Some (name, phone, company, notes, tags) =>
      if negb (nonempty name) || negb (nonempty phone) then (NameAndPhoneRequired, db)
      else
        match next_rowid (contacts_sequence db) (map contact_id (contacts_table db)) with
        | Raise _ => (ServerError, db)
        | Ok id =>
            if phone_taken phone (contacts_table db) then (PhoneNumberExists, db)
            else
              (Added id,
               with_contacts db
                 (contacts_table db ++
                    [ {| contact_id := id;
                         contact_name := name;
                         contact_phone_number := phone;
                         contact_company := Some company;
                         contact_notes := Some notes;
                         contact_tags := Some tags;
                         contact_created_at := now;
                         contact_last_called := None |} ])
                 id)
        end
  end.

(** [update_contact(contact_id)]: the five columns are overwritten with
    what the body gives.  The statement fails, and nothing is written,
    when a row has the id and the name or the phone number is [None]
    (NOT NULL) or another row has the phone number (UNIQUE). *)
Definition update_contact (id : Z) (data : contact_data) (db : database) : reply * database :=
  match bind_int id with
  | Raise _ => (ServerError, db)
  | Ok id =>
      let contacts := contacts_table db in
      if existsb (fun c => contact_id c =? id) contacts then
        match get (name data), get (phone_number data) with
        | Some new_name, Some new_phone =>
            if phone_taken new_phone (filter (fun c => contact_id c <> id) contacts)
            then (ServerError, db)
            else
              (Updated,
               with_contacts db
                 (map (fun c =>
                         if contact_id c =? id then
                           {| contact_id := contact_id c;
                              contact_name := new_name;
                              contact_phone_number := new_phone;
                              contact_company := get_default (company data) "";
                              contact_notes := get_default (notes data) "";
                              contact_tags := get_default (tags data) "";
                              contact_created_at := contact_created_at c;
                              contact_last_called := contact_last_called c |}
                         else c)
                      contacts)
                 (contacts_sequence db))
        | _, _ => (ServerError, db)
        end
      else (Updated, db)
  end.

(** [delete_contact(contact_id)] *)
Definition delete_contact (id : Z) (db : database) : reply * database :=
  match bind_int id with
  | Raise _ => (ServerError, db)
  | Ok id =>
      (Deleted,
       with_contacts db (filter (fun c => contact_id c <> id) (contacts_table db))
         (contacts_sequence db))
  end.

(** The row of [SELECT * FROM contacts]. *)
Definition selected (c : contact_row) : sqlrow :=
  [ ("id", SqlInt (contact_id c));
    ("name", SqlText (contact_name c));
    ("phone_number", SqlText (contact_phone_number c));
    ("company", text_or_null (contact_company c));
    ("notes", text_or_null (contact_notes c));
    ("tags", text_or_null (contact_tags c));
    ("created_at", SqlTime (contact_created_at c));
    ("last_called", time_or_null (contact_last_called c)) ].






(** [ORDER BY name], in the order of the code points; contacts of the
    same name stay in rowid order. *)
Definition name_le (a b : contact_row) : Prop :=
  String.leb (contact_name a) (contact_name b) = true.

#[global] Instance name_le_dec : RelDecision name_le :=
  fun a b => decide (String.leb (contact_name a) (contact_name b) = true).



End Contacts.

(** ** Transcripts *)

Module Transcripts.

Inductive reply :=
  | Added (transcript_id : Z)
  | Transcript (messages : list sqlrow) (call_id : Z)
  | MessageRequired
  | ServerError.

Definition http_status (r : reply) : Z :=
  match r with
  | Added _ | Transcript _ _ => 200
  | MessageRequired => 400
  | ServerError => 500
  end.

(** [add_transcript_message(call_id)] on the body keys ['speaker'] and
    ['message'].  The speaker column is NOT NULL; the foreign key on
    call_id is declared but SQLite does not enforce it on a connection
    that has not switched foreign keys on, and [get_db] does not. *)
Definition add_transcript_message (call_id : Z) (speaker message : jfield) (now : Z)
    (db : database) : reply * database :=
  let speaker := get_default speaker "unknown" in
  let message := get_default message "" in
  if negb (truthy message) then (MessageRequired, db)
  else
    match bind_int call_id, speaker, message with
    | Ok call_id, Some speaker, Some message =>
        match next_rowid (transcripts_sequence db)
                (map transcript_id (transcripts_table db)) with
        | Raise _ => (ServerError, db)
        | Ok id =>
            (Added id,
             {| calls_table := calls_table db;
                calls_sequence := calls_sequence db;
                contacts_table := contacts_table db;
                contacts_sequence := contacts_sequence db;
                transcripts_table :=
                  transcripts_table db ++
                    [ {| transcript_id := id;
                         transcript_call_id := call_id;
                         transcript_speaker := speaker;
                         transcript_message := message;
                         transcript_timestamp := now |} ];
                transcripts_sequence := id |})
        end
    | _, _, _ => (ServerError, db)
    end.

(** The columns the SELECT of [get_transcript] names. *)
Definition selected (m : transcript_row) : sqlrow :=
  [ ("id", SqlInt (transcript_id m));
    ("speaker", SqlText (transcript_speaker m));
    ("message", SqlText (transcript_message m));
    ("timestamp", SqlTime (transcript_timestamp m)) ].

(** [ORDER BY timestamp ASC]: messages of the same second stay in
    rowid order. *)
Definition not_later (a b : transcript_row) : Prop :=
  transcript_timestamp a <= transcript_timestamp b.

#[global] Instance not_later_dec : RelDecision not_later :=
  fun a b => decide (transcript_timestamp a <= transcript_timestamp b).

Definition oldest_first (messages : list transcript_row) : list transcript_row :=
  order_by not_later messages.

(** [get_transcript(call_id)] *)
Definition get_transcript (call_id : Z) (db : database) : reply :=
  match bind_int call_id with
  | Raise _ => ServerError
  | Ok id =>
      Transcript
        (map selected
           (oldest_first (filter (fun m => transcript_call_id m = id) (transcripts_table db))))
        call_id
  end.

End Transcripts.

(** ** Analytics *)

Module Analytics.

(** [SELECT key, COUNT( * ) ... GROUP BY key] as the dict the handler
    builds from it: each key that occurs, with its number of rows. *)
Definition group_count `{Countable K} (keys : list K) : gmap K Z :=
  fold_right (fun k counts => <[k := default 0 (counts !! k) + 1]> counts) ∅ keys.

(** The rows of the chart query: one per day, ordered by day. *)
Definition day_le (a b : Z * Z) : Prop := a.1 <= b.1.

#[global] Instance day_le_dec : RelDecision day_le := fun a b => decide (a.1 <= b.1).

Definition by_day (days : list Z) : list (Z * Z) :=
  sorting.merge_sort day_le (map_to_list (group_count days)).

Record analytics := {
  total_calls : Z;
  today_calls : Z;
  week_calls : Z;
  month_calls : Z;
  status_counts : gmap (option string) Z;
  daily_calls : list (Z * Z);
  total_contacts : Z;
  today_cost_usd : pynum;
  today_cost_inr : pynum;
  week_cost_usd : pynum;
  week_cost_inr : pynum;
  month_cost_usd : pynum;
  month_cost_inr : pynum;
  total_cost_usd : pynum;
  total_cost_inr : pynum
}.

(** [SELECT COUNT( * ) FROM calls WHERE ...] *)
Definition count_calls (w : window) (now : Z) (calls : list call_row) : Z :=
  Z.of_nat (length (window_rows w now calls)).

(** [SELECT COALESCE(SUM(total_cost_usd), 0), COALESCE(SUM(total_cost_inr), 0)
    FROM calls WHERE ...] *)
Definition cost_sums (w : window) (now : Z) (calls : list call_row) : pynum * pynum :=
  let rows := window_rows w now calls in
  (coalesce_real (sum_real (map row_total_cost_usd rows)),
   coalesce_real (sum_real (map row_total_cost_inr rows))).

(** [jsonify] writes the keys of every dict in sorted order.  The keys
    of [status_counts] are the statuses of the calls, strings and, for
    the status NULL, [None]; sorting compares [None] with a string, and
    raises TypeError, as soon as [None] is a key beside another key. *)
Definition sortable (counts : gmap (option string) Z) : bool :=
  match counts !! None with
  | Some _ => bool_decide (size counts = 1%nat)
  | None => true
  end.

(** [get_analytics()] at time [now]: [Raise] stands for the 500
    answer.  The figures are rounded when the dict of the answer is
    built, before [jsonify] is called on it. *)
Definition get_analytics (now : Z) (db : database) : pyres analytics :=
  let calls := calls_table db in
  let today_cost := cost_sums today now calls in
  let week_cost := cost_sums week now calls in
  let month_cost := cost_sums month now calls in
  let total_cost := cost_sums all_time now calls in
  do today_usd <- py_round today_cost.1 4;
  do today_inr <- py_round today_cost.2 2;
  do week_usd <- py_round week_cost.1 4;
  do week_inr <- py_round week_cost.2 2;
  do month_usd <- py_round month_cost.1 4;
  do month_inr <- py_round month_cost.2 2;
  do total_usd <- py_round total_cost.1 4;
  do total_inr <- py_round total_cost.2 2;
  if negb (sortable (group_count (map row_status calls))) then Raise TypeError else
  Ok {| total_calls := Z.of_nat (length calls);
        today_calls := count_calls today now calls;
        week_calls := count_calls week now calls;
        month_calls := count_calls month now calls;
        status_counts := group_count (map row_status calls);
        daily_calls :=
          by_day (map (fun r => sql_date (row_created_at r)) (window_rows week now calls));
        total_contacts := Z.of_nat (length (contacts_table db));
        today_cost_usd := today_usd;
        today_cost_inr := today_inr;
        week_cost_usd := week_usd;
        week_cost_inr := week_inr;
        month_cost_usd := month_usd;
        month_cost_inr := month_inr;
        total_cost_usd := total_usd;
        total_cost_inr := total_inr |}.

End Analytics.

(** ** Columns an update never writes *)

(** The columns of a call that are set when it is dispatched. *)
Definition dispatched_as (r : call_row)
    : Z * string * option string * option string * Z :=
  (row_id r, row_phone_number r, row_room_name r, row_dispatch_id r, row_created_at r).

(** A Python float that is not below zero: 0.0 or a positive double. *)
Definition is_nonnegative_num (x : pynum) : Prop :=
  match x with
  | PFloat (S754_zero false) | PFloat (S754_finite false _ _) => True
  | _ => False
  end.

(** The assignments that write the status or the notes. *)
Definition labels (a : assignment) : Prop :=
  match a with
  | SetStatus _ | SetNotes _ => True
  | _ => False
  end.

(** The value of a column after an assignment that is made only when
    the body has the key. *)
Definition written {A} (given : option A) (before : option A) : option A :=
  match given with Some v => Some v | None => before end.

(** The number of calls that have the status [s] ([None] is NULL). *)
Definition calls_with_status (s : option string) (calls : list call_row) : Z :=
  Z.of_nat (length (filter (fun r => row_status r = s) calls)).

(** The number of calls created on day [day]. *)
Definition calls_on_day (day : Z) (calls : list call_row) : Z :=
  Z.of_nat (length (filter (fun r => sql_date (row_created_at r) = day) calls)).

(** The sum of the counts of grouped rows. *)
Definition total_count {K} (groups : list (K * Z)) : Z :=
  fold_right (fun group total => group.2 + total) 0 groups.

(** ** Well-formed data *)

(** What [make_call] requires of the number it dials, after stripping:
    a leading [+], at least 8 characters, and no white space at either
    end. *)
Definition valid_phone_number (p : string) : Prop :=
  String.prefix "+" p = true /\ (8 <= String.length p)%nat /\ strip p = p.

(** The rowids of a table are distinct, positive and not above the
    sequence of the table, which starts at 0. *)
Definition rowids_in_sequence {A} (id : A -> Z) (sequence : Z) (rows : list A) : Prop :=
  NoDup (map id rows) /\ 0 <= sequence /\ Forall (fun r => 0 < id r <= sequence) rows.

(** The constraints of the schema, and what the handlers add to them:
    every call has a valid phone number. *)
Definition consistent (db : database) : Prop :=
  rowids_in_sequence row_id (calls_sequence db) (calls_table db) /\
  rowids_in_sequence contact_id (contacts_sequence db) (contacts_table db) /\
  rowids_in_sequence transcript_id (transcripts_sequence db) (transcripts_table db) /\
  NoDup (map contact_phone_number (contacts_table db)) /\
  Forall (fun r => valid_phone_number (row_phone_number r)) (calls_table db).

(** The database with its calls table replaced, as after an
    [update_call]. *)
Definition with_calls (db : database) (calls : list call_row) : database :=
  {| calls_table := calls;
     calls_sequence := calls_sequence db;
     contacts_table := contacts_table db;
     contacts_sequence := contacts_sequence db;
     transcripts_table := transcripts_table db;
     transcripts_sequence := transcripts_sequence db |}.

(** [needle] occurs in [text]. *)
Definition occurs_in (needle text : string) : Prop :=
  exists before after, text = before +:+ needle +:+ after.

(** A request body for a contact with a name, a phone number and a
    company. *)
Definition contact_of (name phone company : string) : Contacts.contact_data :=
  {| Contacts.name := Str name;
     Contacts.phone_number := Str phone;
     Contacts.company := Str company;
     Contacts.notes := Absent;
     Contacts.tags := Absent |}.

(** Two contacts added to a new database, at times 100 and 200. *)
Definition two_contacts : database :=
  let db := (Contacts.add_contact (contact_of " Joanne Doe" "+15550100 " "Acme") 100
               empty_database).2 in
  (Contacts.add_contact (contact_of "Bob Roe" "+15550101" "") 200 db).2.

(** The transcripts of two calls: three messages of call 7, the last
    of them stored with an earlier time, as after the clock was set
    back, and one message of call 8. *)
Definition four_messages : database :=
  {| calls_table := []; calls_sequence := 0;
     contacts_table := []; contacts_sequence := 0;
     transcripts_table :=
       [ {| transcript_id := 1; transcript_call_id := 7; transcript_speaker := "agent";
            transcript_message := "Hello, this is Krish."; transcript_timestamp := 100 |};
         {| transcript_id := 2; transcript_call_id := 8; transcript_speaker := "agent";
            transcript_message := "Hello!"; transcript_timestamp := 100 |};
         {| transcript_id := 3; transcript_call_id := 7; transcript_speaker := "user";
            transcript_message := "Who is this?"; transcript_timestamp := 100 |};
         {| transcript_id := 4; transcript_call_id := 7; transcript_speaker := "system";
            transcript_message := "connected"; transcript_timestamp := 90 |} ];
     transcripts_sequence := 4 |}.

(** A call whose status was set to NULL, as an update with the status
    [null] does. *)
Definition without_status (r : call_row) : call_row :=
  {| row_id := row_id r;
     row_phone_number := row_phone_number r;
     row_room_name := row_room_name r;
     row_dispatch_id := row_dispatch_id r;
     row_status := None;
     row_duration := row_duration r;
     row_notes := row_notes r;
     row_created_at := row_created_at r;
     row_ended_at := row_ended_at r;
     row_cost_livekit := row_cost_livekit r;
     row_cost_stt := row_cost_stt r;
     row_cost_tts := row_cost_tts r;
     row_cost_llm := row_cost_llm r;
     row_total_cost_usd := row_total_cost_usd r;
     row_total_cost_inr := row_total_cost_inr r |}.

(** ** The agent configuration: get_agent_config and save_agent_config

    The two handlers read the text of config.py and look for three
    assignments in it with regular expressions.  The model works on
    the text that [f.read()] returns; the functions below are the
    patterns of the source, piece by piece, with Python's matching
    order: leftmost match, greedy [\s*], lazy [.*?] and [.+?].  In the
    comments Q stands for the class of the pattern that holds the
    double and the single quote, and QQQ for three double quotes. *)

Module AgentConfig.

Definition double_quote : Ascii.ascii := Ascii.ascii_of_N 34.
Definition line_feed : Ascii.ascii := Ascii.ascii_of_N 10.
Definition carriage_return : Ascii.ascii := Ascii.ascii_of_N 13.
Definition backslash : Ascii.ascii := Ascii.ascii_of_N 92.

(** The three double quotes that open and close a Python long string. *)
Definition triple_quote : string :=
  String double_quote (String double_quote (String double_quote "")).

(** Q: a double or a single quote. *)
Definition is_quote (c : Ascii.ascii) : bool :=
  Ascii.eqb c double_quote || Ascii.eqb c "'".

(** A literal of a pattern at the start of [text]: the text after it. *)
Fixpoint literal (characters text : string) : option string :=
  match characters, text with
  | EmptyString, _ => Some text
  | String a characters', String b text' =>
      if Ascii.eqb a b then literal characters' text' else None
  | String _ _, EmptyString => None
  end.

(** [\s*]: as much white space as there is.  In the patterns it is
    followed by a character that is not white space, so that giving
    back white space cannot make the rest match. *)
Definition spaces (text : string) : string := lstrip text.

(** [key\s*=\s*] at the start of [text]. *)
Definition assigned (key text : string) : option string :=
  rest ← literal key text;
  rest ← literal "=" (spaces rest);
  Some (spaces rest).

(** [(.*?)stop] under DOTALL: the shortest text followed by [stop], and
    what comes after [stop]. *)
Fixpoint lazy_until (stop text : string) : option (string * string) :=
  match literal stop text with
  | Some rest => Some (EmptyString, rest)
  | None =>
      match text with
      | EmptyString => None
      | String c text' =>
          found ← lazy_until stop text';
          Some (String c found.1, found.2)
      end
  end.

(** [Q] *)
Definition quote (text : string) : option string :=
  match text with
  | String c rest => if is_quote c then Some rest else None
  | EmptyString => None
  end.

(** [(.*?)Q]: the dot does not match a line feed. *)
Fixpoint lazy_until_quote (text : string) : option (string * string) :=
  match text with
  | EmptyString => None
  | String c text' =>
      if is_quote c then Some (EmptyString, text')
      else if Ascii.eqb c line_feed then None
      else
        found ← lazy_until_quote text';
        Some (String c found.1, found.2)
  end.

(** [(.+?)Q]: at least one character, which may be a quote. *)
Definition lazy_some_until_quote (text : string) : option (string * string) :=
  match text with
  | EmptyString => None
  | String c text' =>
      if Ascii.eqb c line_feed then None
      else
        found ← lazy_until_quote text';
        Some (String c found.1, found.2)
  end.

(** [SYSTEM_PROMPT\s*=\s*QQQ(.*?)QQQ] at the start of [text]: the group
    and the text after the match. *)
Definition system_prompt_at (text : string) : option (string * string) :=
  rest ← assigned "SYSTEM_PROMPT" text;
  rest ← literal triple_quote rest;
  lazy_until triple_quote rest.

(** [key\s*=\s*Q(.+?)Q] at the start of [text]. *)
Definition greeting_at (key text : string) : option (string * string) :=
  rest ← assigned key text;
  rest ← quote rest;
  lazy_some_until_quote rest.

(** [re.search]: the match at the first position that has one. *)
Fixpoint search {A} (pattern_at : string -> option A) (text : string) : option A :=
  match pattern_at text with
  | Some found => Some found
  | None =>
      match text with
      | EmptyString => None
      | String _ text' => search pattern_at text'
      end
  end.

(** [match.group(1) if match else ''] *)
Definition group_or_empty (found : option (string * string)) : string :=
  match found with Some (group, _) => group | None => EmptyString end.

Record config := {
  system_prompt : string;
  initial_greeting : string;
  fallback_greeting : string
}.

(** [get_agent_config()] on the text [content] of the file. *)
Definition get_agent_config (content : string) : config :=
  {| system_prompt := strip (group_or_empty (search system_prompt_at content));
     initial_greeting := group_or_empty (search (greeting_at "INITIAL_GREETING") content);
     fallback_greeting := group_or_empty (search (greeting_at "fallback_greeting") content) |}.

(** [s.replace] of QQQ: each of the three quotes gets a backslash. *)
Fixpoint escape_triple_quotes (s : string) : string :=
  match s with
  | String a (String b (String c rest) as tail) =>
      if Ascii.eqb a double_quote && Ascii.eqb b double_quote && Ascii.eqb c double_quote
      then String backslash (String double_quote
             (String backslash (String double_quote
                (String backslash (String double_quote (escape_triple_quotes rest))))))
      else String a (escape_triple_quotes tail)
  | short => short
  end.

(** [s.replace] of the double quote: it gets a backslash. *)
Fixpoint escape_quotes (s : string) : string :=
  match s with
  | EmptyString => EmptyString
  | String c rest =>
      if Ascii.eqb c double_quote
      then String backslash (String double_quote (escape_quotes rest))
      else String c (escape_quotes rest)
  end.

(** The patterns of the three substitutions,
    [SYSTEM_PROMPT\s*=\s*QQQ.*?QQQ] and [key\s*=\s*Q.*?Q], which have
    no group: the text after the match. *)
Definition system_prompt_assignment (text : string) : option string :=
  rest ← assigned "SYSTEM_PROMPT" text;
  rest ← literal triple_quote rest;
  found ← lazy_until triple_quote rest;
  Some found.2.

Definition greeting_assignment (key text : string) : option string :=
  rest ← assigned key text;
  rest ← quote rest;
  found ← lazy_until_quote rest;
  Some found.2.

(** The text that a match starting at [text] and followed by [rest]
    covers. *)
Definition matched (text rest : string) : string :=
  String.substring 0 (String.length text - String.length rest) text.

(** [re.sub]: the matches are found from left to right, each search
    starting where the last match ended, and each match is replaced
    with what the template gives for it.  A match is never empty, so
    the length of the text bounds the number of steps. *)
Fixpoint sub_within (steps : nat) (pattern_at : string -> option string)
    (replacement : string -> string) (text : string) : string :=
  match steps with
  | O => text
  | S steps =>
      match pattern_at text with
      | Some rest =>
          replacement (matched text rest) +:+ sub_within steps pattern_at replacement rest
      | None =>
          match text with
          | EmptyString => EmptyString
          | String c text' => String c (sub_within steps pattern_at replacement text')
          end
      end
  end.

Definition sub (pattern_at : string -> option string) (replacement : string -> string)
    (text : string) : string :=
  sub_within (S (String.length text)) pattern_at replacement text.

(** The body of the POST request. *)
Record agent_data := {
  new_system_prompt : jfield;
  new_initial_greeting : jfield;
  new_fallback_greeting : jfield
}.

Section Templates.

(** The replacement template of [re.sub], compiled: [None] when the
    [re] module rejects the template (a bad escape or group reference),
    else what it puts in place of a given match.  The model does not
    define it; it is used under the one assumption stated with the
    properties: a template whose backslashes are all followed by a
    double quote is put in as it is. *)
Variable template : string -> option (string -> string).

(** One [if key in data:] block: [escape] is the [replace] applied to
    the value, [wrap] the f-string around it. *)
Definition substitute (value : jfield) (escape : string -> string) (wrap : string -> string)
    (pattern_at : string -> option string) (content : string) : option string :=
  match value with
  | Absent => Some content
  | Null => None
  | Str s =>
      replacement ← template (wrap (escape s));
      Some (sub pattern_at replacement content)
  end.

(** [save_agent_config()] on the text [content] of the file: the text
    written back, or [None] when an exception is raised (status 500;
    the file is then not opened for writing). *)
Definition save_agent_config (data : agent_data) (content : string) : option string :=
  content ← substitute (new_system_prompt data) escape_triple_quotes
               (fun prompt => "SYSTEM_PROMPT = " +:+ triple_quote +:+ String line_feed prompt
                              +:+ String line_feed triple_quote)
               system_prompt_assignment content;
  content ← substitute (new_initial_greeting data) escape_quotes
               (fun greeting => "INITIAL_GREETING = " +:+ String double_quote greeting
                                +:+ String double_quote EmptyString)
               (greeting_assignment "INITIAL_GREETING") content;
  substitute (new_fallback_greeting data) escape_quotes
    (fun fallback => "fallback_greeting = " +:+ String double_quote fallback
                     +:+ String double_quote EmptyString)
    (greeting_assignment "fallback_greeting") content.

End Templates.

(** What [f.read()] returns for a text written with [f.write()], on a
    system whose line separator is the line feed: a carriage return,
    with the line feed after it if there is one, is read as a line
    feed. *)
Fixpoint read_back (written : string) : string :=
  match written with
  | EmptyString => EmptyString
  | String c rest =>
      if Ascii.eqb c carriage_return then
        String line_feed
          match rest with
          | String d rest' => if Ascii.eqb d line_feed then read_back rest' else read_back rest
          | EmptyString => EmptyString
          end
      else String c (read_back rest)
  end.

End AgentConfig.

(** Every character of [s] satisfies [p]. *)
Fixpoint every (p : Ascii.ascii -> bool) (s : string) : bool :=
  match s with
  | EmptyString => true
  | String c rest => p c && every p rest
  end.

(** A text that the dot of a greeting pattern runs through: it has no
    quote of either kind and no line feed. *)
Definition quote_free (s : string) : bool :=
  every (fun c => negb (AgentConfig.is_quote c) && negb (Ascii.eqb c AgentConfig.line_feed)) s.

Definition without (c : Ascii.ascii) (s : string) : bool :=
  every (fun d => negb (Ascii.eqb d c)) s.

(** Every backslash of the template [t] is followed by a double quote
    (the two form one token of the template). *)
Fixpoint only_quotes_escaped (t : string) : bool :=
  match t with
  | EmptyString => true
  | String c rest =>
      if Ascii.eqb c AgentConfig.backslash then
        match rest with
        | String d rest' => Ascii.eqb d AgentConfig.double_quote && only_quotes_escaped rest'
        | EmptyString => false
        end
      else only_quotes_escaped rest
  end.

(** What is assumed of the templates of [re.sub]: an escaped double
    quote is left as it is, and a template without any other backslash
    is put in place of every match unchanged. *)
Definition keeps_plain_templates (template : string -> option (string -> string)) : Prop :=
  forall t, only_quotes_escaped t = true -> template t = Some (fun _ => t).

(** A template function of which this holds: it accepts the plain
    templates and rejects the others. *)
Definition plain_templates (t : string) : option (string -> string) :=
  if only_quotes_escaped t then Some (fun _ => t) else None.

(** [key] occurs in [text] only as its last characters. *)
Definition only_at_the_end (key text : string) : Prop :=
  forall before after, text = before +:+ key +:+ after -> after = "".

(** The two greetings of the file, their keys, the request that carries
    one of them alone, the request that carries the system prompt
    alone, and the field of the answer of [get_agent_config] that
    belongs to a greeting. *)
Inductive greeting := Initial | Fallback.

Definition key_of (which : greeting) : string :=
  match which with
  | Initial => "INITIAL_GREETING"
  | Fallback => "fallback_greeting"
  end.

Definition greeting_alone (which : greeting) (text : string) : AgentConfig.agent_data :=
  match which with
  | Initial =>
      {| AgentConfig.new_system_prompt := Absent;
         AgentConfig.new_initial_greeting := Str text;
         AgentConfig.new_fallback_greeting := Absent |}
  | Fallback =>
      {| AgentConfig.new_system_prompt := Absent;
         AgentConfig.new_initial_greeting := Absent;
         AgentConfig.new_fallback_greeting := Str text |}
  end.

Definition system_prompt_alone (text : string) : AgentConfig.agent_data :=
  {| AgentConfig.new_system_prompt := Str text;
     AgentConfig.new_initial_greeting := Absent;
     AgentConfig.new_fallback_greeting := Absent |}.

Definition greeting_of (which : greeting) (answer : AgentConfig.config) : string :=
  match which with
  | Initial => AgentConfig.initial_greeting answer
  | Fallback => AgentConfig.fallback_greeting answer
  end.
(** * Properties *)

(** ** Rounding to 53 bits *)

Lemma digits2_pos_size p : digits2_pos p = Pos.size p.
Proof. induction p; simpl; congruence. Qed.

Lemma Zdigits2_log2 z : 0 < z -> Zdigits2 z = Z.log2 z + 1.
Proof.
  destruct z as [|p|p]; try lia. intros _. simpl.
  rewrite digits2_pos_size. destruct p; simpl; lia.
Qed.

Lemma Zdigits2_bounds z : 0 < z -> 2 ^ (Zdigits2 z - 1) <= z < 2 ^ Zdigits2 z.
Proof.
  intros Hz. rewrite (Zdigits2_log2 z Hz).
  replace (Z.log2 z + 1 - 1) with (Z.log2 z) by lia.
  replace (Z.log2 z + 1) with (Z.succ (Z.log2 z)) by lia.
  apply Z.log2_spec; assumption.
Qed.

Lemma Zdigits2_unique z d : 2 ^ (d - 1) <= z < 2 ^ d -> 0 < d -> Zdigits2 z = d.
Proof.
  intros H Hd.
  assert (0 < z) by (pose proof (Z.pow_pos_nonneg 2 (d - 1)); lia).
  rewrite Zdigits2_log2 by assumption.
  rewrite (Z.log2_unique z (d - 1)); try lia.
  replace (Z.succ (d - 1)) with d by lia. assumption.
Qed.

Lemma Zdigits2_pos z : 0 < z -> 0 < Zdigits2 z.
Proof. intros H. rewrite Zdigits2_log2 by assumption. pose proof (Z.log2_nonneg z). lia. Qed.

Lemma Zdigits2_div_pow2 z t :
  0 < z -> 0 <= t < Zdigits2 z -> Zdigits2 (z / 2 ^ t) = Zdigits2 z - t.
Proof.
  intros Hz Ht.
  pose proof (Zdigits2_bounds z Hz) as [Hlo Hhi].
  apply Zdigits2_unique; [|lia].
  assert (Hp : 0 < 2 ^ t) by (apply Z.pow_pos_nonneg; lia).
  split.
  - apply Z.div_le_lower_bound; [assumption|].
    rewrite <- Z.pow_add_r by lia.
    replace (t + (Zdigits2 z - t - 1)) with (Zdigits2 z - 1) by lia. assumption.
  - apply Z.div_lt_upper_bound; [assumption|].
    rewrite <- Z.pow_add_r by lia.
    replace (t + (Zdigits2 z - t)) with (Zdigits2 z) by lia. assumption.
Qed.

Lemma iter_pos_iter {A} (f : A -> A) n x : iter_pos f n x = Pos.iter f x n.
Proof.
  revert x. induction n as [n IH|n IH|]; intros x; simpl.
  - rewrite !IH. rewrite !Pos.iter_swap. reflexivity.
  - rewrite !IH. reflexivity.
  - reflexivity.
Qed.

Lemma shr_1_m mrs : 0 <= shr_m mrs -> shr_m (shr_1 mrs) = shr_m mrs / 2.
Proof.
  destruct mrs as [m r s]. simpl. intros Hm.
  destruct m as [|[p|p|]|p]; cbn [shr_m]; try lia; try reflexivity.
  - apply Z.div_unique with (r := 1); lia.
  - apply Z.div_unique with (r := 0); lia.
Qed.

Lemma shr_iter_m n mrs :
  0 <= shr_m mrs -> shr_m (iter_pos shr_1 n mrs) = shr_m mrs / 2 ^ Zpos n.
Proof.
  intros Hm. rewrite iter_pos_iter.
  induction n as [|n IH] using Pos.peano_ind.
  - simpl. rewrite shr_1_m by assumption. reflexivity.
  - rewrite Pos.iter_succ. rewrite shr_1_m.
    + rewrite IH. rewrite Pos2Z.inj_succ. rewrite Z.pow_succ_r by lia.
      rewrite Z.div_div by (try apply Z.pow_pos_nonneg; lia).
      f_equal. lia.
    + rewrite IH. apply Z.div_pos; [assumption|apply Z.pow_pos_nonneg; lia].
Qed.

Lemma shr_m_of_loc m l : shr_m (shr_record_of_loc m l) = m.
Proof. destruct l as [|[]]; reflexivity. Qed.

Lemma shr_spec m l e t :
  0 <= m -> 0 <= t ->
  shr_m (fst (shr (shr_record_of_loc m l) e t)) = m / 2 ^ t /\
  snd (shr (shr_record_of_loc m l) e t) = e + t.
Proof.
  intros Hm Ht. destruct t as [|p|p]; simpl; try lia.
  - rewrite shr_m_of_loc. rewrite Z.div_1_r. lia.
  - rewrite shr_iter_m by (rewrite shr_m_of_loc; assumption).
    rewrite shr_m_of_loc. split; reflexivity.
Qed.

Lemma round_nearest_even_cases m l :
  round_nearest_even m l = m \/ round_nearest_even m l = m + 1.
Proof. destruct l as [|[]]; simpl; auto. destruct (Z.even m); auto. Qed.

Lemma fexp_normal k : -1074 <= k - 53 -> fexp prec emax k = k - 53.
Proof. intros H. unfold fexp, emin, prec, emax. lia. Qed.

(** The rounding of a mantissa with at least 53 bits, away from the
    subnormal range and from overflow. *)
Lemma binary_round_aux_spec s mx ex l :
  let d := Zdigits2 mx in
  let t := d - 53 in
  0 < mx -> 53 <= d -> -1074 <= ex + t -> ex + t < 971 ->
  exists m' e',
    binary_round_aux prec emax s mx ex l = S754_finite s m' e' /\
    Zdigits2 (Zpos m') = 53 /\
    ((Zpos m' = mx / 2 ^ t \/ Zpos m' = mx / 2 ^ t + 1) /\ e' = ex + t \/
     mx / 2 ^ t + 1 = 2 ^ 53 /\ Zpos m' = 2 ^ 52 /\ e' = ex + t + 1).
Proof.
  intros d t Hmx Hd Hlo Hhi.
  unfold binary_round_aux, shr_fexp.
  fold d. rewrite (fexp_normal (d + ex)) by lia.
  replace (d + ex - 53 - ex) with t by lia.
  destruct (shr_spec mx l ex t) as [Hm0 He0]; try lia.
  destruct (shr (shr_record_of_loc mx l) ex t) as [mrs' e'] eqn:Hshr.
  simpl in Hm0, He0. subst e'.
  set (m0 := mx / 2 ^ t) in *.
  assert (Hd0 : Zdigits2 m0 = 53).
  { unfold m0. rewrite Zdigits2_div_pow2; fold d; lia. }
  assert (Hm0pos : 0 < m0).
  { assert (0 <= m0) by (apply Z.div_pos; [lia|apply Z.pow_pos_nonneg; lia]).
    assert (m0 <> 0) by (intros E; rewrite E in Hd0; discriminate).
    lia. }
  pose proof (Zdigits2_bounds m0 Hm0pos) as Hb. rewrite Hd0 in Hb.
  replace (53 - 1) with 52 in Hb by lia.
  pose proof (eq_refl : 2 ^ 52 = 4503599627370496) as P52.
  pose proof (eq_refl : 2 ^ 53 = 9007199254740992) as P53.
  set (m1 := round_nearest_even (shr_m mrs') (loc_of_shr_record mrs')).
  assert (Hm1 : m1 = m0 \/ m1 = m0 + 1).
  { unfold m1. rewrite Hm0. apply round_nearest_even_cases. }
  assert (Hcase : m1 < 2 ^ 53 \/ m1 = 2 ^ 53) by lia.
  destruct Hcase as [Hsmall|Hcarry].
  - assert (Hd1 : Zdigits2 m1 = 53).
    { apply Zdigits2_unique; [replace (53 - 1) with 52 by lia|]; lia. }
    rewrite Hd1. rewrite (fexp_normal (53 + (ex + t))) by lia.
    replace (53 + (ex + t) - 53 - (ex + t)) with 0 by lia.
    simpl shr. cbv beta iota. simpl shr_m.
    clearbody m1. destruct m1 as [|p|p] eqn:Hp; try lia.
    replace (ex + t <=? emax - prec) with true
      by (symmetry; apply Z.leb_le; unfold emax, prec; lia).
    exists p, (ex + t). split; [reflexivity|]. split; [exact Hd1|].
    left. split; [|reflexivity]. lia.
  - rewrite Hcarry.
    replace (Zdigits2 (2 ^ 53)) with 54 by reflexivity.
    rewrite (fexp_normal (54 + (ex + t))) by lia.
    replace (54 + (ex + t) - 53 - (ex + t)) with 1 by lia.
    simpl shr. cbv beta iota.
    replace (ex + t + 1 <=? emax - prec) with true
      by (symmetry; apply Z.leb_le; unfold emax, prec; lia).
    exists (Z.to_pos (2 ^ 52)), (ex + t + 1).
    split; [reflexivity|]. split; [reflexivity|].
    right. split; [lia|]. split; reflexivity.
Qed.

Lemma Zdigits2_le_upper z k : 0 < z -> z < 2 ^ k -> 0 <= k -> Zdigits2 z <= k.
Proof.
  intros Hz Hlt Hk.
  destruct (Z.le_gt_cases (Zdigits2 z) k) as [|Hgt]; [assumption|exfalso].
  pose proof (Zdigits2_bounds z Hz) as [Hlo _].
  assert (2 ^ k <= 2 ^ (Zdigits2 z - 1)) by (apply Z.pow_le_mono_r; lia).
  lia.
Qed.

Lemma Zdigits2_ge_lower z k : 2 ^ (k - 1) <= z -> 0 < k -> k <= Zdigits2 z.
Proof.
  intros Hle Hk.
  assert (Hz : 0 < z) by (pose proof (Z.pow_pos_nonneg 2 (k - 1)); lia).
  destruct (Z.le_gt_cases k (Zdigits2 z)) as [|Hgt]; [assumption|exfalso].
  pose proof (Zdigits2_bounds z Hz) as [_ Hhi].
  pose proof (Zdigits2_pos z Hz).
  assert (2 ^ Zdigits2 z <= 2 ^ (k - 1)) by (apply Z.pow_le_mono_r; lia).
  lia.
Qed.

Lemma mantissa_53 m : Zdigits2 (Zpos m) = 53 -> 2 ^ 52 <= Zpos m < 2 ^ 53.
Proof.
  intros H. pose proof (Zdigits2_bounds (Zpos m) eq_refl) as Hb.
  rewrite H in Hb. exact Hb.
Qed.

(** ** Ranges of products and quotients *)

Lemma mul_normal sx sy lx hx ly hy x y :
  normal sx lx hx x -> normal sy ly hy y ->
  -1126 <= lx + ly -> hx + hy < 917 ->
  normal (xorb sx sy) (lx + ly + 52) (hx + hy + 54) (mul x y).
Proof.
  intros (mx & ex & -> & Hdx & Hex) (my & ey & -> & Hdy & Hey) Hlo Hhi.
  apply mantissa_53 in Hdx, Hdy.
  pose proof (eq_refl : 2 ^ 52 = 4503599627370496) as P52.
  pose proof (eq_refl : 2 ^ 53 = 9007199254740992) as P53.
  assert (Hlow : 2 ^ (105 - 1) <= Zpos (mx * my)).
  { change (2 ^ (105 - 1)) with (4503599627370496 * 4503599627370496).
    rewrite Pos2Z.inj_mul. apply Z.mul_le_mono_nonneg; lia. }
  assert (Hupp : Zpos (mx * my) < 2 ^ 106).
  { change (2 ^ 106) with (9007199254740992 * 9007199254740992).
    rewrite Pos2Z.inj_mul. apply Z.mul_lt_mono_nonneg; lia. }
  pose proof (Zdigits2_ge_lower _ 105 Hlow ltac:(lia)) as Hd1.
  pose proof (Zdigits2_le_upper _ 106 (Pos2Z.is_pos _) Hupp ltac:(lia)) as Hd2.
  unfold mul, SFmul.
  destruct (binary_round_aux_spec (xorb sx sy) (Zpos (mx * my)) (ex + ey) loc_Exact)
    as (m' & e' & -> & Hd' & Hcases); try lia.
  exists m', e'. split; [reflexivity|]. split; [assumption|].
  destruct Hcases as [[_ ->]|(_ & _ & ->)]; lia.
Qed.

Lemma div_core_spec m1 e1 m2 e2 :
  0 < m1 -> 0 < m2 ->
  let e' := Z.min (fexp prec emax (Zdigits2 m1 + e1 - (Zdigits2 m2 + e2))) (e1 - e2) in
  exists l,
    SFdiv_core_binary prec emax m1 e1 m2 e2 = (m1 * 2 ^ (e1 - e2 - e') / m2, e', l).
Proof.
  intros H1 H2 e'. unfold SFdiv_core_binary. fold e'.
  assert (Hs : 0 <= e1 - e2 - e') by (unfold e'; lia).
  set (s := e1 - e2 - e') in *.
  assert (Hm : match s with Z.pos _ => Z.shiftl m1 s | 0 => m1 | Z.neg _ => 0 end
               = m1 * 2 ^ s).
  { destruct s as [|p|p]; try lia.
    - rewrite Z.shiftl_mul_pow2; lia. }
  rewrite Hm. unfold Z.div.
  destruct (Z.div_eucl (m1 * 2 ^ s) m2) as [q r].
  eexists. reflexivity.
Qed.

Lemma div_normal sx sy lx hx ly hy x y :
  normal sx lx hx x -> normal sy ly hy y ->
  -1021 <= lx - hy -> hx - ly < 1000 ->
  normal (xorb sx sy) (lx - hy - 53) (hx - ly - 51) (div x y).
Proof.
  intros (mx & ex & -> & Hdx & Hex) (my & ey & -> & Hdy & Hey) Hlo Hhi.
  unfold div, SFdiv.
  destruct (div_core_spec (Zpos mx) ex (Zpos my) ey) as (l & Hcore); try lia.
  rewrite Hdx, Hdy in Hcore.
  replace (53 + ex - (53 + ey)) with (ex - ey) in Hcore by lia.
  rewrite fexp_normal in Hcore by lia.
  replace (Z.min (ex - ey - 53) (ex - ey)) with (ex - ey - 53) in Hcore by lia.
  replace (ex - ey - (ex - ey - 53)) with 53 in Hcore by lia.
  rewrite Hcore. clear Hcore.
  apply mantissa_53 in Hdx, Hdy.
  pose proof (eq_refl : 2 ^ 52 = 4503599627370496) as P52.
  pose proof (eq_refl : 2 ^ 53 = 9007199254740992) as P53.
  pose proof (eq_refl : 2 ^ 54 = 18014398509481984) as P54.
  set (q := Zpos mx * 2 ^ 53 / Zpos my).
  assert (Hq1 : 2 ^ (53 - 1) <= q).
  { replace (53 - 1) with 52 by lia. apply Z.div_le_lower_bound; lia. }
  assert (Hq2 : q < 2 ^ 54).
  { apply Z.div_lt_upper_bound; lia. }
  assert (Hqpos : 0 < q) by (replace (53 - 1) with 52 in Hq1 by lia; lia).
  pose proof (Zdigits2_ge_lower _ 53 Hq1 ltac:(lia)) as Hd1.
  pose proof (Zdigits2_le_upper _ 54 Hqpos Hq2 ltac:(lia)) as Hd2.
  destruct (binary_round_aux_spec (xorb sx sy) q (ex - ey - 53) l)
    as (m' & e' & -> & Hd' & Hcases); try lia.
  exists m', e'. split; [reflexivity|]. split; [assumption|].
  destruct Hcases as [[_ ->]|(_ & _ & ->)]; lia.
Qed.

(** ** Alignment and the conversion of integers *)

Lemma iter_xO m k : Zpos (Pos.iter xO m k) = Zpos m * 2 ^ Zpos k.
Proof.
  induction k as [|k IH] using Pos.peano_ind.
  - simpl. lia.
  - rewrite Pos.iter_succ, Pos2Z.inj_xO, IH, Pos2Z.inj_succ, Z.pow_succ_r; lia.
Qed.

Lemma shl_align_spec mx ex ex' :
  snd (shl_align mx ex ex') = Z.min ex ex' /\
  Zpos (fst (shl_align mx ex ex')) = Zpos mx * 2 ^ (ex - Z.min ex ex').
Proof.
  unfold shl_align. destruct (ex' - ex) as [|p|p] eqn:E; simpl.
  - replace (Z.min ex ex') with ex by lia. rewrite Z.sub_diag. lia.
  - replace (Z.min ex ex') with ex by lia. rewrite Z.sub_diag. lia.
  - replace (Z.min ex ex') with ex' by lia.
    rewrite iter_xO. replace (ex - ex') with (Zpos p) by lia. lia.
Qed.

Lemma Zdigits2_mul_pow2 z k : 0 < z -> 0 <= k -> Zdigits2 (z * 2 ^ k) = Zdigits2 z + k.
Proof.
  intros Hz Hk.
  assert (0 < 2 ^ k) by (apply Z.pow_pos_nonneg; lia).
  rewrite !Zdigits2_log2 by lia.
  rewrite Z.log2_mul_pow2 by lia. lia.
Qed.

Lemma binary_round_spec s m e :
  let d := Zdigits2 (Zpos m) in
  -1074 <= d + e - 53 -> d + e - 53 < 970 ->
  exists m' e',
    binary_round prec emax s m e = S754_finite s m' e' /\
    Zdigits2 (Zpos m') = 53 /\ d + e - 53 <= e' <= d + e - 52.
Proof.
  intros d Hlo Hhi. unfold binary_round.
  change (Z.pos (digits2_pos m)) with d. rewrite fexp_normal by lia.
  pose proof (shl_align_spec m e (d + e - 53)) as [He Hm].
  destruct (shl_align m e (d + e - 53)) as [mz ez]. simpl in He, Hm. subst ez.
  pose proof (Zdigits2_pos (Zpos m) eq_refl) as Hdpos. fold d in Hdpos.
  assert (Hdz : Zdigits2 (Zpos mz) = d + (e - Z.min e (d + e - 53))).
  { rewrite Hm. rewrite Zdigits2_mul_pow2; lia. }
  destruct (binary_round_aux_spec s (Zpos mz) (Z.min e (d + e - 53)) loc_Exact)
    as (m' & e' & -> & Hd' & Hcases); try lia.
  exists m', e'. split; [reflexivity|]. split; [assumption|].
  destruct Hcases as [[_ ->]|(_ & _ & ->)]; lia.
Qed.

Lemma of_Z_normal z k :
  z <> 0 -> Z.abs z < 2 ^ k -> 0 <= k <= 1000 ->
  normal (z <? 0) (-52) (k - 52) (of_Z z).
Proof.
  intros Hz Hk Hk'. unfold of_Z, binary_normalize.
  destruct z as [|p|p]; try lia.
  - pose proof (Zdigits2_le_upper (Zpos p) k eq_refl Hk ltac:(lia)) as Hd.
    pose proof (Zdigits2_pos (Zpos p) eq_refl) as Hdpos.
    destruct (binary_round_spec false p 0) as (m' & e' & -> & Hd' & He'); try lia.
    exists m', e'. split; [reflexivity|]. split; [assumption|]. lia.
  - pose proof (Zdigits2_le_upper (Zpos p) k eq_refl Hk ltac:(lia)) as Hd.
    pose proof (Zdigits2_pos (Zpos p) eq_refl) as Hdpos.
    destruct (binary_round_spec true p 0) as (m' & e' & -> & Hd' & He'); try lia.
    exists m', e'. split; [reflexivity|]. split; [assumption|]. lia.
Qed.

(** ** Ranges of correctly rounded ratios *)

Lemma Zdigits2_div a b :
  0 < a -> 0 < b -> Zdigits2 b < Zdigits2 a ->
  Zdigits2 a - Zdigits2 b <= Zdigits2 (a / b) <= Zdigits2 a - Zdigits2 b + 1.
Proof.
  intros Ha Hb Hlt.
  pose proof (Zdigits2_bounds a Ha) as [Ha1 Ha2].
  pose proof (Zdigits2_bounds b Hb) as [Hb1 Hb2].
  pose proof (Zdigits2_pos b Hb) as Hdb.
  set (da := Zdigits2 a) in *. set (db := Zdigits2 b) in *.
  assert (Hq1 : 2 ^ (da - db - 1) <= a / b).
  { apply Z.div_le_lower_bound; [assumption|].
    assert (b * 2 ^ (da - db - 1) <= 2 ^ db * 2 ^ (da - db - 1)).
    { apply Z.mul_le_mono_nonneg_r; [apply Z.pow_nonneg|]; lia. }
    rewrite <- Z.pow_add_r in H by lia.
    replace (db + (da - db - 1)) with (da - 1) in H by lia. lia. }
  assert (Hq2 : a / b < 2 ^ (da - db + 1)).
  { apply Z.div_lt_upper_bound; [assumption|].
    assert (2 ^ (db - 1) * 2 ^ (da - db + 1) <= b * 2 ^ (da - db + 1)).
    { apply Z.mul_le_mono_nonneg_r; [apply Z.pow_nonneg|]; lia. }
    rewrite <- Z.pow_add_r in H by lia.
    replace (db - 1 + (da - db + 1)) with da in H by lia. lia. }
  assert (Hqpos : 0 < a / b).
  { pose proof (Z.pow_pos_nonneg 2 (da - db - 1)). lia. }
  split.
  - apply Zdigits2_ge_lower; [assumption|lia].
  - apply Zdigits2_le_upper; [assumption|assumption|lia].
Qed.

Lemma of_ratio_normal s n d :
  let d1 := Zdigits2 (Zpos n) in
  let d2 := Zdigits2 (Zpos d) in
  -1021 <= d1 - d2 -> d1 - d2 < 1020 ->
  normal s (d1 - d2 - 53) (d1 - d2 - 51) (of_ratio s n d).
Proof.
  intros d1 d2 Hlo Hhi. unfold of_ratio.
  destruct (div_core_spec (Zpos n) 0 (Zpos d) 0) as (l & Hcore); try lia.
  fold d1 d2 in Hcore.
  replace (d1 + 0 - (d2 + 0)) with (d1 - d2) in Hcore by lia.
  rewrite fexp_normal in Hcore by lia.
  set (e' := Z.min (d1 - d2 - 53) (0 - 0)) in *.
  rewrite Hcore. clear Hcore.
  set (sh := 0 - 0 - e') in *.
  assert (Hsh : 0 <= sh) by (unfold sh, e'; lia).
  assert (Hpos : 0 < Zpos n * 2 ^ sh).
  { apply Z.mul_pos_pos; [lia|apply Z.pow_pos_nonneg; lia]. }
  pose proof (Zdigits2_mul_pow2 (Zpos n) sh eq_refl Hsh) as Hdn. fold d1 in Hdn.
  pose proof (Zdigits2_div (Zpos n * 2 ^ sh) (Zpos d) Hpos eq_refl) as Hdq.
  rewrite Hdn in Hdq. fold d2 in Hdq.
  specialize (Hdq ltac:(unfold sh, e'; lia)).
  set (q := Zpos n * 2 ^ sh / Zpos d) in *.
  assert (Hqpos : 0 < q).
  { assert (0 <= q) by (apply Z.div_pos; lia).
    assert (q <> 0); [|lia].
    intros E. rewrite E in Hdq. simpl in Hdq. unfold sh, e' in Hdq. lia. }
  destruct (binary_round_aux_spec s q e' l) as (m' & e'' & -> & Hd' & Hcases);
    try (unfold sh, e' in *; lia).
  exists m', e''. split; [reflexivity|]. split; [assumption|].
  unfold sh, e' in *.
  destruct Hcases as [[_ ->]|(_ & _ & ->)]; lia.
Qed.

(** ** Ranges of sums *)

Lemma normal_weaken s lo hi lo' hi' x :
  normal s lo hi x -> lo' <= lo -> hi <= hi' -> normal s lo' hi' x.
Proof.
  intros (m & e & -> & Hd & He) Hlo Hhi.
  exists m, e. repeat split; try assumption; lia.
Qed.

Lemma zero_or_normal_weaken lo hi lo' hi' x :
  zero_or_normal lo hi x -> lo' <= lo -> hi <= hi' -> zero_or_normal lo' hi' x.
Proof.
  intros [Hz|[s Hn]] Hlo Hhi; [left; assumption|right].
  exists s. eapply normal_weaken; eassumption.
Qed.

Lemma binary_normalize_sign M e k :
  M <> 0 -> Z.abs M < 2 ^ k -> 0 <= k -> -1022 <= e -> k + e - 53 < 970 ->
  normal (M <? 0) (e - 52) (k + e - 52) (binary_normalize prec emax M e false).
Proof.
  intros HM0 HM Hk He Hhi. unfold binary_normalize.
  destruct M as [|p|p]; [congruence| |].
  - pose proof (Zdigits2_le_upper (Zpos p) k eq_refl HM Hk) as Hd.
    pose proof (Zdigits2_pos (Zpos p) eq_refl) as Hdpos.
    destruct (binary_round_spec false p e) as (m' & e' & -> & Hd' & He'); try lia.
    exists m', e'. split; [reflexivity|]. split; [assumption|]. lia.
  - pose proof (Zdigits2_le_upper (Zpos p) k eq_refl HM Hk) as Hd.
    pose proof (Zdigits2_pos (Zpos p) eq_refl) as Hdpos.
    destruct (binary_round_spec true p e) as (m' & e' & -> & Hd' & He'); try lia.
    exists m', e'. split; [reflexivity|]. split; [assumption|]. lia.
Qed.

Lemma binary_normalize_spec M e k :
  Z.abs M < 2 ^ k -> 0 <= k -> -1022 <= e -> k + e - 53 < 970 ->
  zero_or_normal (e - 52) (k + e - 52) (binary_normalize prec emax M e false).
Proof.
  intros HM Hk He Hhi. destruct (Z.eq_dec M 0) as [->|HM0].
  - left. exists false. reflexivity.
  - right. exists (M <? 0). apply binary_normalize_sign; assumption.
Qed.

Lemma aligned_mantissa_lt m e ez top :
  Zdigits2 (Zpos m) = 53 -> ez <= e -> e <= top ->
  Zpos m * 2 ^ (e - ez) < 2 ^ (53 + top - ez).
Proof.
  intros Hd H1 H2. apply mantissa_53 in Hd.
  assert (0 < 2 ^ (e - ez)) by (apply Z.pow_pos_nonneg; lia).
  assert (Zpos m * 2 ^ (e - ez) < 2 ^ 53 * 2 ^ (e - ez)).
  { apply Z.mul_lt_mono_pos_r; lia. }
  rewrite <- Z.pow_add_r in H0 by lia.
  assert (2 ^ (53 + (e - ez)) <= 2 ^ (53 + top - ez)) by (apply Z.pow_le_mono_r; lia).
  lia.
Qed.

Lemma add_zero_or_normal lx hx ly hy x y :
  zero_or_normal lx hx x -> zero_or_normal ly hy y ->
  -1022 <= lx -> -1022 <= ly -> hx < 965 -> hy < 965 ->
  zero_or_normal (Z.min lx ly - 52) (Z.max hx hy + 2) (add x y).
Proof.
  intros [[sx ->]|[sx Hx]] [[sy ->]|[sy Hy]] Hlx Hly Hhx Hhy.
  - left. destruct sx, sy; eexists; reflexivity.
  - destruct Hy as (my & ey & -> & Hdy & Hey). right. exists sy, my, ey.
    split; [reflexivity|]. split; [assumption|]. lia.
  - destruct Hx as (mx & ex & -> & Hdx & Hex). right. exists sx, mx, ex.
    split; [reflexivity|]. split; [assumption|]. lia.
  - destruct Hx as (mx & ex & -> & Hdx & Hex).
    destruct Hy as (my & ey & -> & Hdy & Hey).
    unfold add, SFadd.
    set (ez := Z.min ex ey).
    pose proof (shl_align_spec mx ex ez) as [_ Hmx].
    pose proof (shl_align_spec my ey ez) as [_ Hmy].
    replace (Z.min ex ez) with ez in Hmx by lia.
    replace (Z.min ey ez) with ez in Hmy by lia.
    set (top := Z.max ex ey).
    pose proof (aligned_mantissa_lt mx ex ez top Hdx ltac:(lia) ltac:(lia)) as Bx.
    pose proof (aligned_mantissa_lt my ey ez top Hdy ltac:(lia) ltac:(lia)) as By.
    rewrite <- Hmx in Bx. rewrite <- Hmy in By.
    set (ax := Zpos (fst (shl_align mx ex ez))) in *.
    set (ay := Zpos (fst (shl_align my ey ez))) in *.
    assert (Hax : 0 < ax) by (unfold ax; lia).
    assert (Hay : 0 < ay) by (unfold ay; lia).
    assert (HM : Z.abs (cond_Zopp sx ax + cond_Zopp sy ay) < 2 ^ (54 + top - ez)).
    { replace (54 + top - ez) with (Z.succ (53 + top - ez)) by lia.
      rewrite Z.pow_succ_r by lia.
      destruct sx, sy; simpl; lia. }
    eapply zero_or_normal_weaken.
    + apply (binary_normalize_spec _ ez (54 + top - ez) HM); lia.
    + lia.
    + lia.
Qed.

(** ** Rounding to decimals *)

Lemma div_half_even_bounds n d :
  0 <= n -> 0 < d -> n / d <= div_half_even n d <= n / d + 1.
Proof.
  intros Hn Hd. unfold div_half_even.
  destruct (2 * (n mod d) ?= d); [destruct (Z.even (n / d))| |]; lia.
Qed.

Lemma digits_pow10 nd : 0 <= nd <= 15 -> 1 <= Zdigits2 (Zpos (pow10 nd)) <= 64.
Proof.
  intros H. unfold pow10.
  assert (Hp : 0 < 10 ^ nd) by (apply Z.pow_pos_nonneg; lia).
  rewrite Z2Pos.id by assumption.
  split.
  - pose proof (Zdigits2_pos _ Hp). lia.
  - apply Zdigits2_le_upper; [assumption| |lia].
    assert (10 ^ nd <= 10 ^ 15) by (apply Z.pow_le_mono_r; lia).
    assert (10 ^ 15 < 2 ^ 64) by reflexivity. lia.
Qed.

Lemma of_units_zero s nd : of_units s 0 nd = S754_zero s.
Proof. reflexivity. Qed.

Lemma of_units_normal s u nd :
  0 < u < 2 ^ 1000 -> 0 <= nd <= 15 -> normal s (-116) 948 (of_units s u nd).
Proof.
  intros Hu Hnd. unfold of_units.
  replace (Z.max (- nd) 0) with 0 by lia.
  replace (Z.max nd 0) with nd by lia.
  rewrite Z.pow_0_r, Z.mul_1_r.
  destruct u as [|p|p]; try lia.
  pose proof (digits_pow10 nd Hnd) as Hd2.
  pose proof (Zdigits2_pos (Zpos p) eq_refl) as Hd1.
  pose proof (Zdigits2_le_upper (Zpos p) 1000 eq_refl ltac:(lia) ltac:(lia)) as Hd1'.
  eapply normal_weaken.
  - apply of_ratio_normal; lia.
  - lia.
  - lia.
Qed.

Lemma round_units_bounds m e nd hi :
  Zdigits2 (Zpos m) = 53 -> e <= hi -> 0 <= hi <= 800 -> 0 <= nd <= 15 ->
  0 <= round_units m e nd < 2 ^ 1000.
Proof.
  intros Hd He Hhi Hnd. unfold round_units.
  replace (Z.max (- nd) 0) with 0 by lia.
  replace (Z.max nd 0) with nd by lia.
  rewrite Z.pow_0_r, Z.mul_1_r.
  apply mantissa_53 in Hd.
  assert (Hden : 0 < 2 ^ Z.max (- e) 0) by (apply Z.pow_pos_nonneg; lia).
  assert (H10 : 0 < 10 ^ nd) by (apply Z.pow_pos_nonneg; lia).
  assert (H2 : 0 < 2 ^ Z.max e 0) by (apply Z.pow_pos_nonneg; lia).
  set (N := Zpos m * 2 ^ Z.max e 0 * 10 ^ nd).
  assert (HN0 : 0 <= N) by (unfold N; apply Z.mul_nonneg_nonneg; lia).
  assert (HN : N < 2 ^ 53 * 2 ^ 800 * 2 ^ 64).
  { unfold N.
    assert (2 ^ Z.max e 0 <= 2 ^ 800) by (apply Z.pow_le_mono_r; lia).
    assert (10 ^ nd <= 10 ^ 15) by (apply Z.pow_le_mono_r; lia).
    assert (10 ^ 15 < 2 ^ 64) by reflexivity.
    assert (Zpos m * 2 ^ Z.max e 0 <= 2 ^ 53 * 2 ^ 800)
      by (apply Z.mul_le_mono_nonneg; lia).
    apply Z.le_lt_trans with (2 ^ 53 * 2 ^ 800 * 10 ^ nd).
    - apply Z.mul_le_mono_nonneg_r; lia.
    - apply Z.mul_lt_mono_pos_l; [reflexivity|lia]. }
  pose proof (div_half_even_bounds N (2 ^ Z.max (- e) 0) HN0 Hden) as [B1 B2].
  assert (0 <= N / 2 ^ Z.max (- e) 0) by (apply Z.div_pos; lia).
  assert (N / 2 ^ Z.max (- e) 0 <= N).
  { apply Z.div_le_upper_bound; [assumption|]. nia. }
  assert (2 ^ 53 * 2 ^ 800 * 2 ^ 64 < 2 ^ 1000) by reflexivity.
  lia.
Qed.

Lemma float_round_spec lo hi x nd :
  zero_or_normal lo hi x -> hi <= 800 -> 0 <= nd <= 15 ->
  exists r, float_round x nd = Ok r /\ zero_or_normal (-116) 948 r.
Proof.
  intros [[s ->]|[s (m & e & -> & Hd & He)]] Hhi Hnd.
  - exists (S754_zero s). split; [reflexivity|]. left. exists s. reflexivity.
  - unfold float_round.
    replace (NDIGITS_MAX <? nd) with false by (symmetry; apply Z.ltb_ge; unfold NDIGITS_MAX; lia).
    replace (nd <? NDIGITS_MIN) with false by (symmetry; apply Z.ltb_ge; unfold NDIGITS_MIN; lia).
    pose proof (round_units_bounds m e nd (Z.max hi 0) Hd ltac:(lia) ltac:(lia) Hnd) as Hu.
    set (u := round_units m e nd) in *.
    assert (Hcase : u = 0 \/ 0 < u) by lia.
    destruct Hcase as [->|Hpos].
    + rewrite of_units_zero. simpl. eexists. split; [reflexivity|].
      left. exists s. reflexivity.
    + pose proof (of_units_normal s u nd ltac:(lia) Hnd) as Hn.
      destruct Hn as (m' & e' & Heq & Hd' & He').
      rewrite Heq. simpl. eexists. split; [reflexivity|].
      right. exists s, m', e'. repeat split; try assumption; lia.
Qed.

(** ** Ranges with zeros allowed *)

Lemma nonneg_zero_or_normal lo hi x : nonneg lo hi x -> zero_or_normal lo hi x.
Proof.
  intros [->|H]; [left; exists false; reflexivity|right; exists false; exact H].
Qed.

Lemma nonneg_weaken lo hi lo' hi' x :
  nonneg lo hi x -> lo' <= lo -> hi <= hi' -> nonneg lo' hi' x.
Proof.
  intros [->|H] Hlo Hhi; [left; reflexivity|right].
  eapply normal_weaken; eassumption.
Qed.

Lemma of_Z_zero_or_normal z k :
  Z.abs z < 2 ^ k -> 0 <= k <= 1000 -> zero_or_normal (-52) (k - 52) (of_Z z).
Proof.
  intros Hz Hk. destruct (Z.eq_dec z 0) as [->|Hnz].
  - left. exists false. reflexivity.
  - right. exists (z <? 0). apply of_Z_normal; assumption.
Qed.

Lemma float_of_int_ok lo hi z :
  zero_or_normal lo hi (of_Z z) -> float_of_int z = Ok (of_Z z).
Proof.
  unfold float_of_int.
  intros [[s ->]|[s (m & e & -> & _)]]; reflexivity.
Qed.

Lemma mul_zero_or_normal lx hx ly hy x y :
  zero_or_normal lx hx x -> zero_or_normal ly hy y ->
  -1126 <= lx + ly -> hx + hy < 917 ->
  zero_or_normal (lx + ly + 52) (hx + hy + 54) (mul x y).
Proof.
  intros [[sx ->]|[sx Hx]] [[sy ->]|[sy Hy]] Hlo Hhi.
  - left. eexists. reflexivity.
  - destruct Hy as (my & ey & -> & _). left. eexists. reflexivity.
  - destruct Hx as (mx & ex & -> & _). left. eexists. reflexivity.
  - right. exists (xorb sx sy). apply mul_normal; assumption.
Qed.

Lemma div_zero_or_normal sy lx hx ly hy x y :
  zero_or_normal lx hx x -> normal sy ly hy y ->
  -1021 <= lx - hy -> hx - ly < 1000 ->
  zero_or_normal (lx - hy - 53) (hx - ly - 51) (div x y).
Proof.
  intros [[sx ->]|[sx Hx]] Hy Hlo Hhi.
  - destruct Hy as (my & ey & -> & _). left. eexists. reflexivity.
  - right. exists (xorb sx sy). apply div_normal; assumption.
Qed.

Lemma sixty_normal : normal false (-47) (-47) sixty.
Proof. exists 8444249301319680%positive, (-47). repeat split; try reflexivity; lia. Qed.

Lemma int64_abs d : fits_int64 d = true -> Z.abs d < 2 ^ 64.
Proof.
  unfold fits_int64, INT64_MIN, INT64_MAX. intros H.
  apply andb_true_iff in H as [H1 H2].
  apply Z.leb_le in H1, H2.
  pose proof (eq_refl : 2 ^ 63 = 9223372036854775808).
  pose proof (eq_refl : 2 ^ 64 = 18446744073709551616). lia.
Qed.

Lemma minutes_of_range d :
  fits_int64 d = true -> zero_or_normal (-58) 8 (minutes_of d).
Proof.
  intros Hd. unfold minutes_of.
  pose proof (of_Z_zero_or_normal d 64 (int64_abs d Hd) ltac:(lia)) as Hz.
  eapply zero_or_normal_weaken.
  - eapply div_zero_or_normal; [exact Hz|exact sixty_normal| |]; lia.
  - lia.
  - lia.
Qed.

Lemma raw_cost_range p d :
  price_range p -> fits_int64 d = true -> zero_or_normal (-206) 29 (raw_cost p d).
Proof.
  intros Hp Hd. unfold raw_cost.
  eapply zero_or_normal_weaken.
  - eapply mul_zero_or_normal; [exact (nonneg_zero_or_normal _ _ _ Hp)|exact (minutes_of_range d Hd)| |]; lia.
  - lia.
  - lia.
Qed.

Lemma raw_llm_range a p_in p_out :
  0 <= a < 2 ^ 31 -> price_range p_in -> price_range p_out ->
  zero_or_normal (-252) 2 (raw_llm a p_in p_out).
Proof.
  intros Ha Hin Hout. unfold raw_llm.
  pose proof (of_Z_zero_or_normal a 31 ltac:(lia) ltac:(lia)) as Hz.
  eapply zero_or_normal_weaken.
  - eapply add_zero_or_normal.
    + eapply mul_zero_or_normal; [exact Hz|exact (nonneg_zero_or_normal _ _ _ Hin)| |]; lia.
    + eapply mul_zero_or_normal; [exact Hz|exact (nonneg_zero_or_normal _ _ _ Hout)| |]; lia.
    + lia.
    + lia.
    + lia.
    + lia.
  - lia.
  - lia.
Qed.

Lemma raw_total_range c1 c2 c3 llm :
  zero_or_normal (-206) 29 c1 -> zero_or_normal (-206) 29 c2 ->
  zero_or_normal (-206) 29 c3 -> zero_or_normal (-252) 2 llm ->
  zero_or_normal (-414) 35 (raw_total c1 c2 c3 llm).
Proof.
  intros H1 H2 H3 H4. unfold raw_total.
  pose proof (add_zero_or_normal _ _ _ _ _ _ H1 H2
                ltac:(lia) ltac:(lia) ltac:(lia) ltac:(lia)) as H12.
  pose proof (add_zero_or_normal _ _ _ _ _ _ H12 H3
                ltac:(lia) ltac:(lia) ltac:(lia) ltac:(lia)) as H123.
  pose proof (add_zero_or_normal _ _ _ _ _ _ H123 H4
                ltac:(lia) ltac:(lia) ltac:(lia) ltac:(lia)) as Ht.
  eapply zero_or_normal_weaken; [exact Ht| |]; lia.
Qed.

(** ** Doubles that are not negative *)

Lemma of_Z_nonneg z k :
  0 <= z < 2 ^ k -> 0 <= k <= 1000 -> nonneg (-52) (k - 52) (of_Z z).
Proof.
  intros Hz Hk. destruct (Z.eq_dec z 0) as [->|Hnz].
  - left. reflexivity.
  - right. replace false with (z <? 0) by (apply Z.ltb_ge; lia).
    apply of_Z_normal; lia.
Qed.

Lemma mul_nonneg lx hx ly hy x y :
  nonneg lx hx x -> nonneg ly hy y ->
  -1126 <= lx + ly -> hx + hy < 917 ->
  nonneg (lx + ly + 52) (hx + hy + 54) (mul x y).
Proof.
  intros [->|Hx] [->|Hy] Hlo Hhi.
  - left. reflexivity.
  - destruct Hy as (my & ey & -> & _). left. reflexivity.
  - destruct Hx as (mx & ex & -> & _). left. reflexivity.
  - right. change false with (xorb false false). apply mul_normal; assumption.
Qed.

Lemma add_nonneg lx hx ly hy x y :
  nonneg lx hx x -> nonneg ly hy y ->
  -1022 <= lx -> -1022 <= ly -> hx < 965 -> hy < 965 ->
  nonneg (Z.min lx ly - 52) (Z.max hx hy + 2) (add x y).
Proof.
  intros [->|Hx] [->|Hy] Hlx Hly Hhx Hhy.
  - left. reflexivity.
  - right. destruct Hy as (my & ey & -> & Hdy & Hey). exists my, ey.
    split; [reflexivity|]. split; [assumption|]. lia.
  - right. destruct Hx as (mx & ex & -> & Hdx & Hex). exists mx, ex.
    split; [reflexivity|]. split; [assumption|]. lia.
  - right.
    destruct Hx as (mx & ex & -> & Hdx & Hex).
    destruct Hy as (my & ey & -> & Hdy & Hey).
    unfold add, SFadd.
    set (ez := Z.min ex ey).
    pose proof (shl_align_spec mx ex ez) as [_ Hmx].
    pose proof (shl_align_spec my ey ez) as [_ Hmy].
    replace (Z.min ex ez) with ez in Hmx by lia.
    replace (Z.min ey ez) with ez in Hmy by lia.
    set (top := Z.max ex ey).
    pose proof (aligned_mantissa_lt mx ex ez top Hdx ltac:(lia) ltac:(lia)) as Bx.
    pose proof (aligned_mantissa_lt my ey ez top Hdy ltac:(lia) ltac:(lia)) as By.
    rewrite <- Hmx in Bx. rewrite <- Hmy in By.
    set (ax := Zpos (fst (shl_align mx ex ez))) in *.
    set (ay := Zpos (fst (shl_align my ey ez))) in *.
    assert (Hax : 0 < ax) by (unfold ax; lia).
    assert (Hay : 0 < ay) by (unfold ay; lia).
    cbn [cond_Zopp].
    assert (HM : Z.abs (ax + ay) < 2 ^ (54 + top - ez)).
    { replace (54 + top - ez) with (Z.succ (53 + top - ez)) by lia.
      rewrite Z.pow_succ_r by lia. lia. }
    pose proof (binary_normalize_sign (ax + ay) ez (54 + top - ez)
                  ltac:(lia) HM ltac:(lia) ltac:(lia) ltac:(lia)) as Hn.
    replace (ax + ay <? 0) with false in Hn by (symmetry; apply Z.ltb_ge; lia).
    eapply normal_weaken; [exact Hn| |]; lia.
Qed.

Lemma minutes_of_zero : minutes_of 0 = pzero.
Proof. reflexivity. Qed.

Lemma raw_cost_zero p : price_range p -> raw_cost p 0 = pzero.
Proof.
  unfold raw_cost. rewrite minutes_of_zero.
  intros [->|(m & e & -> & _)]; reflexivity.
Qed.

Lemma raw_llm_nonneg a p_in p_out :
  0 <= a < 2 ^ 31 -> price_range p_in -> price_range p_out ->
  nonneg (-252) 2 (raw_llm a p_in p_out).
Proof.
  intros Ha Hin Hout. unfold raw_llm.
  pose proof (of_Z_nonneg a 31 ltac:(lia) ltac:(lia)) as Hz.
  eapply nonneg_weaken.
  - eapply add_nonneg.
    + eapply mul_nonneg; [exact Hz|exact Hin| |]; lia.
    + eapply mul_nonneg; [exact Hz|exact Hout| |]; lia.
    + lia.
    + lia.
    + lia.
    + lia.
  - lia.
  - lia.
Qed.

Lemma raw_total_zero lo hi llm :
  nonneg lo hi llm -> raw_total pzero pzero pzero llm = llm.
Proof. intros [->|(m & e & -> & _)]; reflexivity. Qed.

(** ** Doubling

    Away from overflow and from the subnormal range, rounding to 53 bits
    commutes with a multiplication by two: only the exponent moves. *)










(** ** The calculator returns on every 64-bit duration *)

Lemma py_truediv_int_float z a y :
  float_of_int z = Ok a -> is_zero y = false ->
  py_truediv (PInt z) (PFloat y) = Ok (PFloat (div a y)).
Proof. intros Ha Hy. unfold py_truediv, to_float. rewrite Ha. simpl. rewrite Hy. reflexivity. Qed.

Lemma py_mul_float_float x y : py_mul (PFloat x) (PFloat y) = Ok (PFloat (mul x y)).
Proof. reflexivity. Qed.

Lemma py_mul_int_float z a y :
  float_of_int z = Ok a -> py_mul (PInt z) (PFloat y) = Ok (PFloat (mul a y)).
Proof. intros Ha. unfold py_mul, to_float. rewrite Ha. reflexivity. Qed.

Lemma py_mul_num_float v p y :
  to_float v = Ok p -> py_mul v (PFloat y) = Ok (PFloat (mul p y)).
Proof. intros Hv. destruct v; unfold py_mul; rewrite Hv; reflexivity. Qed.

Lemma py_add_float_float x y : py_add (PFloat x) (PFloat y) = Ok (PFloat (add x y)).
Proof. reflexivity. Qed.

Lemma py_round_float x nd r :
  float_round x nd = Ok r -> py_round (PFloat x) nd = Ok (PFloat r).
Proof. intros H. unfold py_round. rewrite H. reflexivity. Qed.

Lemma zero_or_normal_finite lo hi x : zero_or_normal lo hi x -> is_finite x = true.
Proof. intros [[s ->]|[s (m & e & -> & _)]]; reflexivity. Qed.

Section CalculatorRuns.

(** A price table with its six entries: the per-minute prices as ints
    or doubles, the token prices as doubles and the token count as an
    int, all in range. *)
Variable pricing : gmap string pynum.
Variables v_livekit v_stt v_tts : pynum.
Variables p_livekit p_stt p_tts p_in p_out rate : float.
Variable avg : Z.

Hypothesis H_livekit : pricing !! "livekit_sip" = Some v_livekit.
Hypothesis H_stt : pricing !! "deepgram_stt" = Some v_stt.
Hypothesis H_tts : pricing !! "deepgram_tts" = Some v_tts.
Hypothesis F_livekit : to_float v_livekit = Ok p_livekit.
Hypothesis F_stt : to_float v_stt = Ok p_stt.
Hypothesis F_tts : to_float v_tts = Ok p_tts.
Hypothesis H_in : pricing !! "groq_input" = Some (PFloat p_in).
Hypothesis H_out : pricing !! "groq_output" = Some (PFloat p_out).
Hypothesis H_avg : pricing !! "avg_tokens_per_call" = Some (PInt avg).

Hypothesis R_livekit : price_range p_livekit.
Hypothesis R_stt : price_range p_stt.
Hypothesis R_tts : price_range p_tts.
Hypothesis R_in : price_range p_in.
Hypothesis R_out : price_range p_out.
Hypothesis R_avg : 0 <= avg < 2 ^ 31.
Hypothesis R_rate : rate_range rate.

Lemma calculate_call_cost_with_runs d :
  fits_int64 d = true ->
  let total := raw_total (raw_cost p_livekit d) (raw_cost p_stt d) (raw_cost p_tts d)
                 (raw_llm avg p_in p_out) in
  exists r_livekit r_stt r_tts r_llm r_usd r_inr r_min,
    float_round (raw_cost p_livekit d) 6 = Ok r_livekit /\
    float_round (raw_cost p_stt d) 6 = Ok r_stt /\
    float_round (raw_cost p_tts d) 6 = Ok r_tts /\
    float_round (raw_llm avg p_in p_out) 6 = Ok r_llm /\
    float_round total 4 = Ok r_usd /\
    float_round (mul total rate) 2 = Ok r_inr /\
    float_round (minutes_of d) 2 = Ok r_min /\
    Forall (fun r => is_finite r = true) [r_livekit; r_stt; r_tts; r_llm; r_usd; r_inr] /\
    calculate_call_cost_with pricing (PFloat rate) d =
      Ok {| cost_livekit := PFloat r_livekit;
            cost_stt := PFloat r_stt;
            cost_tts := PFloat r_tts;
            cost_llm := PFloat r_llm;
            total_cost_usd := PFloat r_usd;
            total_cost_inr := PFloat r_inr;
            duration_minutes := PFloat r_min |}.
Proof.
  intros Hd total.
  pose proof (minutes_of_range d Hd) as Rmin.
  pose proof (raw_cost_range _ d R_livekit Hd) as R1.
  pose proof (raw_cost_range _ d R_stt Hd) as R2.
  pose proof (raw_cost_range _ d R_tts Hd) as R3.
  pose proof (raw_llm_range avg _ _ R_avg R_in R_out) as R4.
  pose proof (raw_total_range _ _ _ _ R1 R2 R3 R4) as R5. fold total in R5.
  assert (R6 : zero_or_normal (-462) 56 (mul total rate)).
  { eapply zero_or_normal_weaken.
    - eapply mul_zero_or_normal; [exact R5|exact (nonneg_zero_or_normal _ _ _ R_rate)| |]; lia.
    - lia.
    - lia. }
  destruct (float_round_spec _ _ _ 6 R1) as (r1 & E1 & F1); try lia.
  destruct (float_round_spec _ _ _ 6 R2) as (r2 & E2 & F2); try lia.
  destruct (float_round_spec _ _ _ 6 R3) as (r3 & E3 & F3); try lia.
  destruct (float_round_spec _ _ _ 6 R4) as (r4 & E4 & F4); try lia.
  destruct (float_round_spec _ _ _ 4 R5) as (r5 & E5 & F5); try lia.
  destruct (float_round_spec _ _ _ 2 R6) as (r6 & E6 & F6); try lia.
  destruct (float_round_spec _ _ _ 2 Rmin) as (r7 & E7 & _); try lia.
  exists r1, r2, r3, r4, r5, r6, r7.
  repeat (split; [assumption|]).
  split.
  { repeat constructor; eapply zero_or_normal_finite; eassumption. }
  pose proof (float_of_int_ok _ _ d
                (of_Z_zero_or_normal d 64 (int64_abs d Hd) ltac:(lia))) as Fd.
  pose proof (float_of_int_ok _ _ avg
                (of_Z_zero_or_normal avg 31 ltac:(lia) ltac:(lia))) as Fa.
  unfold calculate_call_cost_with, getitem.
  rewrite H_livekit, H_stt, H_tts, H_in, H_out, H_avg.
  rewrite (py_truediv_int_float d (of_Z d) (literal 600 1) Fd eq_refl).
  cbn [pybind].
  change (div (of_Z d) (literal 600 1)) with (minutes_of d).
  rewrite (py_mul_num_float _ _ _ F_livekit). cbn [pybind].
  rewrite (py_mul_num_float _ _ _ F_stt). cbn [pybind].
  rewrite (py_mul_num_float _ _ _ F_tts). cbn [pybind].
  repeat (first [ rewrite py_mul_float_float
                | rewrite (py_mul_int_float avg (of_Z avg) _ Fa)
                | rewrite py_add_float_float ]; cbn [pybind]).
  fold (raw_cost p_livekit d) (raw_cost p_stt d) (raw_cost p_tts d).
  fold (raw_llm avg p_in p_out).
  fold (raw_total (raw_cost p_livekit d) (raw_cost p_stt d) (raw_cost p_tts d)
          (raw_llm avg p_in p_out)).
  fold total.
  rewrite (py_round_float _ _ _ E1). cbn [pybind].
  rewrite (py_round_float _ _ _ E2). cbn [pybind].
  rewrite (py_round_float _ _ _ E3). cbn [pybind].
  rewrite (py_round_float _ _ _ E4). cbn [pybind].
  rewrite (py_round_float _ _ _ E5). cbn [pybind].
  rewrite (py_round_float _ _ _ E6). cbn [pybind].
  rewrite (py_round_float _ _ _ E7). cbn [pybind].
  reflexivity.
Qed.

Lemma zero_price_cost p d :
  price_range p -> is_zero p = true -> fits_int64 d = true ->
  exists s, raw_cost p d = S754_zero s.
Proof.
  intros [->|(m & e & -> & _)] Hz Hd; [|discriminate].
  unfold raw_cost.
  destruct (minutes_of_range d Hd) as [[s ->]|[s (m & e & -> & _)]];
    eexists; reflexivity.
Qed.

Lemma zero_prices_llm a p q :
  0 <= a < 2 ^ 31 -> price_range p -> price_range q ->
  is_zero p = true /\ is_zero q = true \/ a = 0 ->
  raw_llm a p q = pzero.
Proof.
  intros Ha Hp Hq Hcase. unfold raw_llm.
  destruct (of_Z_nonneg a 31 ltac:(lia) ltac:(lia)) as [Ea|(m & e & Ea & _)].
  - rewrite Ea. destruct Hp as [->|(mp & ep & -> & _)], Hq as [->|(mq & eq & -> & _)];
      reflexivity.
  - destruct Hcase as [[Zp Zq]| ->]; [|discriminate].
    rewrite Ea.
    destruct Hp as [->|(mp & ep & -> & _)]; [|discriminate].
    destruct Hq as [->|(mq & eq & -> & _)]; [|discriminate].
    reflexivity.
Qed.

(** The calculator at duration 0: the three per-minute costs are 0.0 and
    the total in USD is the token estimate [avg * p_in + avg * p_out]
    rounded to 4 decimals (the cost_llm field is the same estimate
    rounded to 6 decimals). *)
Lemma calculate_call_cost_with_zero :
  exists c,
    calculate_call_cost_with pricing (PFloat rate) 0 = Ok c /\
    cost_livekit c = PFloat pzero /\
    cost_stt c = PFloat pzero /\
    cost_tts c = PFloat pzero /\
    py_round (PFloat (raw_llm avg p_in p_out)) 6 = Ok (cost_llm c) /\
    py_round (PFloat (raw_llm avg p_in p_out)) 4 = Ok (total_cost_usd c).
Proof.
  destruct (calculate_call_cost_with_runs 0 eq_refl)
    as (r1 & r2 & r3 & r4 & r5 & r6 & r7 & E1 & E2 & E3 & E4 & E5 & E6 & E7 & _ & Ec).
  rewrite (raw_cost_zero _ R_livekit) in E1, E5.
  rewrite (raw_cost_zero _ R_stt) in E2, E5.
  rewrite (raw_cost_zero _ R_tts) in E3, E5.
  rewrite (raw_total_zero _ _ _ (raw_llm_nonneg avg _ _ R_avg R_in R_out)) in E5.
  injection E1 as <-. injection E2 as <-. injection E3 as <-.
  eexists. split; [exact Ec|]. cbn.
  repeat split; try reflexivity.
  - rewrite E4. reflexivity.
  - rewrite E5. reflexivity.
Qed.

(** A price of zero makes its category cost zero, on every 64-bit
    duration, and the calculator still returns. *)
Lemma calculate_call_cost_with_zero_price d :
  fits_int64 d = true ->
  exists c,
    calculate_call_cost_with pricing (PFloat rate) d = Ok c /\
    (is_zero p_livekit = true -> is_zero_num (cost_livekit c)) /\
    (is_zero p_stt = true -> is_zero_num (cost_stt c)) /\
    (is_zero p_tts = true -> is_zero_num (cost_tts c)) /\
    (is_zero p_in = true /\ is_zero p_out = true \/ avg = 0 ->
     is_zero_num (cost_llm c)).
Proof.
  intros Hd.
  destruct (calculate_call_cost_with_runs d Hd)
    as (r1 & r2 & r3 & r4 & r5 & r6 & r7 & E1 & E2 & E3 & E4 & E5 & E6 & E7 & _ & Ec).
  eexists. split; [exact Ec|]. cbn.
  repeat split.
  - intros Hz. destruct (zero_price_cost _ d R_livekit Hz Hd) as [s Es].
    rewrite Es in E1. injection E1 as <-. reflexivity.
  - intros Hz. destruct (zero_price_cost _ d R_stt Hz Hd) as [s Es].
    rewrite Es in E2. injection E2 as <-. reflexivity.
  - intros Hz. destruct (zero_price_cost _ d R_tts Hz Hd) as [s Es].
    rewrite Es in E3. injection E3 as <-. reflexivity.
  - intros Hz. rewrite (zero_prices_llm avg _ _ R_avg R_in R_out Hz) in E4.
    injection E4 as <-. reflexivity.
Qed.

End CalculatorRuns.

(** ** The calculator with the configured prices *)

Ltac range_by_evaluation :=
  first
    [ left; reflexivity
    | eexists; eexists; split; [vm_compute; reflexivity|split; [reflexivity|lia]]
    | right; eexists; eexists;
      split; [vm_compute; reflexivity|split; [reflexivity|lia]] ].

Ltac price_table_by_evaluation :=
  unfold price_table;
  repeat match goal with
  | |- _ /\ _ => split
  | |- exists v, _ !! _ = Some v /\ _ => eexists; split; [reflexivity|reflexivity]
  | |- _ !! _ = Some _ => reflexivity
  | |- price_range _ => range_by_evaluation
  | |- rate_range _ => range_by_evaluation
  | |- _ <= _ => lia
  | |- _ < _ => reflexivity
  end.

Lemma PRICING_table :
  price_table PRICING (literal 10 3) (literal 59 4) (literal 27 3)
    (literal 59 8) (literal 79 8) 2000.
Proof. price_table_by_evaluation. Qed.

Lemma USD_TO_INR_range : rate_range (literal 830 1).
Proof. range_by_evaluation. Qed.

Lemma calculate_call_cost_priced pricing p1 p2 p3 p_in p_out avg rate d :
  price_table pricing p1 p2 p3 p_in p_out avg -> rate_range rate ->
  fits_int64 d = true ->
  let total := raw_total (raw_cost p1 d) (raw_cost p2 d) (raw_cost p3 d)
                 (raw_llm avg p_in p_out) in
  exists r_livekit r_stt r_tts r_llm r_usd r_inr r_min,
    float_round (raw_cost p1 d) 6 = Ok r_livekit /\
    float_round (raw_cost p2 d) 6 = Ok r_stt /\
    float_round (raw_cost p3 d) 6 = Ok r_tts /\
    float_round (raw_llm avg p_in p_out) 6 = Ok r_llm /\
    float_round total 4 = Ok r_usd /\
    float_round (mul total rate) 2 = Ok r_inr /\
    float_round (minutes_of d) 2 = Ok r_min /\
    Forall (fun r => is_finite r = true) [r_livekit; r_stt; r_tts; r_llm; r_usd; r_inr] /\
    calculate_call_cost_with pricing (PFloat rate) d =
      Ok {| cost_livekit := PFloat r_livekit;
            cost_stt := PFloat r_stt;
            cost_tts := PFloat r_tts;
            cost_llm := PFloat r_llm;
            total_cost_usd := PFloat r_usd;
            total_cost_inr := PFloat r_inr;
            duration_minutes := PFloat r_min |}.
Proof.
  intros ((v1 & L1 & F1) & (v2 & L2 & F2) & (v3 & L3 & F3) & L4 & L5 & L6 &
          R1 & R2 & R3 & R4 & R5 & R6) Rr Hd.
  exact (calculate_call_cost_with_runs pricing v1 v2 v3 p1 p2 p3 p_in p_out rate avg
           L1 L2 L3 F1 F2 F3 L4 L5 L6 R1 R2 R3 R4 R5 R6 Rr d Hd).
Qed.

(** C1: with the configured prices and the rate 83.0, a call of 120
    seconds costs 0.02 for transport, 0.0118 for speech-to-text, 0.054
    for text-to-speech and 0.00276 for the LLM; the total is 0.0886 USD
    (4 decimals) and 7.35 INR (2 decimals). *)
Theorem C1_call_of_120_seconds :
  PRICING !! "livekit_sip" = Some (dec 10 3) /\
  PRICING !! "deepgram_stt" = Some (dec 59 4) /\
  PRICING !! "deepgram_tts" = Some (dec 27 3) /\
  PRICING !! "groq_input" = Some (dec 59 8) /\
  PRICING !! "groq_output" = Some (dec 79 8) /\
  PRICING !! "avg_tokens_per_call" = Some (PInt 2000) /\
  USD_TO_INR = dec 830 1 /\
  calculate_call_cost 120 =
    Ok {| cost_livekit := dec 2 2;
          cost_stt := dec 118 4;
          cost_tts := dec 54 3;
          cost_llm := dec 276 5;
          total_cost_usd := dec 886 4;
          total_cost_inr := dec 735 2;
          duration_minutes := dec 20 1 |}.
Proof. repeat split; vm_compute; reflexivity. Qed.

(** C2, as stated, fails: at duration 0 the total in USD is 0.0028, the
    LLM estimate rounded to 4 decimals; it is neither the cost_llm field
    (0.00276) nor the unrounded estimate, computed either way. *)
Lemma C2_total_is_not_the_llm_estimate :
  exists c,
    calculate_call_cost 0 = Ok c /\
    cost_llm c = dec 276 5 /\
    total_cost_usd c = dec 28 4 /\
    total_cost_usd c <> cost_llm c /\
    total_cost_usd c <> PFloat (raw_llm 2000 (literal 59 8) (literal 79 8)) /\
    (do s <- py_add (PFloat (literal 59 8)) (PFloat (literal 79 8));
     py_mul (PInt 2000) s) <> Ok (total_cost_usd c).
Proof.
  eexists. split; [vm_compute; reflexivity|].
  repeat split; try (vm_compute; reflexivity); vm_compute; discriminate.
Qed.

(** C2 (amended): at duration 0, for every price table in range, the
    three per-minute costs are 0.0, cost_llm is the token estimate
    [avg * p_in + avg * p_out] rounded to 6 decimals, and the total in
    USD is that same estimate rounded to 4 decimals. *)
Theorem C2_zero_duration pricing p1 p2 p3 p_in p_out avg rate :
  price_table pricing p1 p2 p3 p_in p_out avg -> rate_range rate ->
  exists c,
    calculate_call_cost_with pricing (PFloat rate) 0 = Ok c /\
    cost_livekit c = PFloat pzero /\
    cost_stt c = PFloat pzero /\
    cost_tts c = PFloat pzero /\
    py_round (PFloat (raw_llm avg p_in p_out)) 6 = Ok (cost_llm c) /\
    py_round (PFloat (raw_llm avg p_in p_out)) 4 = Ok (total_cost_usd c).
Proof.
  intros ((v1 & L1 & F1) & (v2 & L2 & F2) & (v3 & L3 & F3) & L4 & L5 & L6 &
          R1 & R2 & R3 & R4 & R5 & R6) Rr.
  exact (calculate_call_cost_with_zero pricing v1 v2 v3 p1 p2 p3 p_in p_out rate avg
           L1 L2 L3 F1 F2 F3 L4 L5 L6 R1 R2 R3 R4 R5 R6 Rr).
Qed.

Lemma C2_zero_duration_witness :
  exists c,
    calculate_call_cost 0 = Ok c /\
    cost_livekit c = PFloat pzero /\
    cost_stt c = PFloat pzero /\
    cost_tts c = PFloat pzero /\
    py_round (PFloat (raw_llm 2000 (literal 59 8) (literal 79 8))) 6 = Ok (cost_llm c) /\
    py_round (PFloat (raw_llm 2000 (literal 59 8) (literal 79 8))) 4
      = Ok (total_cost_usd c).
Proof.
  apply (C2_zero_duration PRICING (literal 10 3) (literal 59 4) (literal 27 3)
           (literal 59 8) (literal 79 8) 2000 (literal 830 1)).
  - price_table_by_evaluation.
  - range_by_evaluation.
Defined.

(** A table that lacks one of the six keys makes the calculator raise. *)
Lemma missing_key_raises pricing rate d key :
  In key PRICING_KEYS -> pricing !! key = None ->
  is_ok (calculate_call_cost_with pricing rate d) = false.
Proof.
  intros Hin Hnone. unfold calculate_call_cost_with.
  repeat match goal with
  | H : getitem pricing key = Ok _ |- _ =>
      unfold getitem in H; rewrite Hnone in H; discriminate H
  | |- is_ok (pybind ?m _) = false =>
      destruct m eqn:?; cbn [pybind]; [|reflexivity]
  end.
  exfalso. unfold PRICING_KEYS in Hin. cbn [In] in Hin.
  repeat match goal with
  | H : _ \/ _ |- _ => destruct H as [H|H]
  | H : False |- _ => destruct H
  | H : _ = key |- _ => subst key
  | H : getitem pricing ?k = Ok _ |- _ =>
      unfold getitem in H; rewrite Hnone in H; discriminate H
  end.
Qed.

(** C7, as stated, fails: without its "deepgram_stt" entry the price
    table makes the calculator raise KeyError. *)
Lemma C7_missing_entry_raises :
  calculate_call_cost_with (delete "deepgram_stt" PRICING) USD_TO_INR 120
    = Raise (KeyError "deepgram_stt").
Proof. vm_compute. reflexivity. Qed.

(** C7 (amended): a zero price-table entry is valid input: on every
    64-bit duration the calculator returns and the cost of that category
    is zero (for the LLM category, when both token prices or the token
    count are zero).  A missing entry is not: if one of the six keys is
    absent the calculator raises. *)
Theorem C7_zero_entry_is_valid_missing_entry_raises :
  (forall pricing p1 p2 p3 p_in p_out avg rate d,
     price_table pricing p1 p2 p3 p_in p_out avg -> rate_range rate ->
     fits_int64 d = true ->
     exists c,
       calculate_call_cost_with pricing (PFloat rate) d = Ok c /\
       (is_zero p1 = true -> is_zero_num (cost_livekit c)) /\
       (is_zero p2 = true -> is_zero_num (cost_stt c)) /\
       (is_zero p3 = true -> is_zero_num (cost_tts c)) /\
       (is_zero p_in = true /\ is_zero p_out = true \/ avg = 0 ->
        is_zero_num (cost_llm c))) /\
  (forall pricing rate d key,
     In key PRICING_KEYS -> pricing !! key = None ->
     is_ok (calculate_call_cost_with pricing rate d) = false).
Proof.
  split.
  - intros pricing p1 p2 p3 p_in p_out avg rate d
      ((v1 & L1 & F1) & (v2 & L2 & F2) & (v3 & L3 & F3) & L4 & L5 & L6 &
       R1 & R2 & R3 & R4 & R5 & R6) Rr Hd.
    exact (calculate_call_cost_with_zero_price pricing v1 v2 v3 p1 p2 p3 p_in p_out
             rate avg L1 L2 L3 F1 F2 F3 L4 L5 L6 R1 R2 R3 R4 R5 R6 Rr d Hd).
  - exact missing_key_raises.
Qed.

Lemma C7_zero_entry_is_valid_missing_entry_raises_witness :
  (exists c,
     calculate_call_cost_with (<["deepgram_tts" := PInt 0]> PRICING) USD_TO_INR 120
       = Ok c /\
     is_zero_num (cost_tts c)) /\
  is_ok (calculate_call_cost_with (delete "groq_input" PRICING) USD_TO_INR 120) = false.
Proof.
  split.
  - destruct (proj1 C7_zero_entry_is_valid_missing_entry_raises
                (<["deepgram_tts" := PInt 0]> PRICING)
                (literal 10 3) (literal 59 4) pzero (literal 59 8) (literal 79 8)
                2000 (literal 830 1) 120)
      as (c & Hc & _ & _ & Htts & _).
    + price_table_by_evaluation.
    + range_by_evaluation.
    + reflexivity.
    + exists c. split; [exact Hc|]. apply Htts. reflexivity.
  - apply (proj2 C7_zero_entry_is_valid_missing_entry_raises
             (delete "groq_input" PRICING) USD_TO_INR 120 "groq_input").
    + simpl. tauto.
    + reflexivity.
Defined.

(** C8: the calculator is a function of the duration, the price table
    and the rate: two invocations on the same duration give the same
    result, field by field, and on every duration from 0 up in the
    64-bit range that result is a cost breakdown, not an exception. *)
Theorem C8_deterministic d d' r r' :
  0 <= d -> d' = d ->
  calculate_call_cost d = r -> calculate_call_cost d' = r' ->
  r' = r /\
  (fits_int64 d = true ->
   exists c c',
     r = Ok c /\ r' = Ok c' /\
     cost_livekit c' = cost_livekit c /\
     cost_stt c' = cost_stt c /\
     cost_tts c' = cost_tts c /\
     cost_llm c' = cost_llm c /\
     total_cost_usd c' = total_cost_usd c /\
     total_cost_inr c' = total_cost_inr c /\
     duration_minutes c' = duration_minutes c).
Proof.
  intros Hd -> <- <-. split; [reflexivity|].
  intros Hfit.
  destruct (calculate_call_cost_priced _ _ _ _ _ _ _ _ d PRICING_table USD_TO_INR_range Hfit)
    as (r1 & r2 & r3 & r4 & r5 & r6 & r7 & _ & _ & _ & _ & _ & _ & _ & _ & Ec).
  unfold calculate_call_cost, USD_TO_INR. rewrite Ec.
  eexists; eexists. repeat split; reflexivity.
Qed.

Lemma C8_deterministic_witness :
  calculate_call_cost 120 = calculate_call_cost 120 /\
  exists c c',
    calculate_call_cost 120 = Ok c /\ calculate_call_cost 120 = Ok c' /\
    cost_livekit c' = cost_livekit c /\
    cost_stt c' = cost_stt c /\
    cost_tts c' = cost_tts c /\
    cost_llm c' = cost_llm c /\
    total_cost_usd c' = total_cost_usd c /\
    total_cost_inr c' = total_cost_inr c /\
    duration_minutes c' = duration_minutes c.
Proof.
  destruct (C8_deterministic 120 120 (calculate_call_cost 120) (calculate_call_cost 120))
    as [Heq Hfields].
  - lia.
  - reflexivity.
  - reflexivity.
  - reflexivity.
  - split; [exact Heq|]. apply Hfields. reflexivity.
Defined.

(** ** Rounding to decimals, exactly *)

Lemma div_half_even_spec n d :
  0 <= n -> 0 < d ->
  - d <= 2 * (n - div_half_even n d * d) <= d.
Proof.
  intros Hn Hd. unfold div_half_even.
  pose proof (Z.div_mod n d ltac:(lia)) as Hdm.
  pose proof (Z.mod_pos_bound n d Hd) as Hr.
  set (q := n / d) in *. set (r := n mod d) in *.
  destruct (Z.compare_spec (2 * r) d); [destruct (Z.even q)| |]; nia.
Qed.



Lemma float_round_normal s lo hi x nd :
  normal s lo hi x -> hi <= 800 -> 0 <= nd <= 15 ->
  exists m e,
    x = S754_finite s m e /\
    float_round x nd = Ok (of_units s (round_units m e nd) nd) /\
    0 <= round_units m e nd < 2 ^ 1000.
Proof.
  intros (m & e & -> & Hd & He) Hhi Hnd.
  exists m, e. split; [reflexivity|].
  pose proof (round_units_bounds m e nd (Z.max hi 0) Hd ltac:(lia) ltac:(lia) Hnd) as Hu.
  split; [|exact Hu].
  unfold float_round.
  replace (NDIGITS_MAX <? nd) with false by (symmetry; apply Z.ltb_ge; unfold NDIGITS_MAX; lia).
  replace (nd <? NDIGITS_MIN) with false by (symmetry; apply Z.ltb_ge; unfold NDIGITS_MIN; lia).
  set (u := round_units m e nd) in *.
  assert (Hcase : u = 0 \/ 0 < u) by lia.
  destruct Hcase as [->|Hpos].
  - reflexivity.
  - destruct (of_units_normal s u nd ltac:(lia) Hnd) as (m' & e' & -> & _).
    reflexivity.
Qed.

Lemma dec_nonneg u nd : 0 <= u -> dec u nd = PFloat (of_units false u nd).
Proof.
  intros Hu. unfold dec.
  replace (u <? 0) with false by (symmetry; apply Z.ltb_ge; lia).
  rewrite Z.abs_eq by lia. reflexivity.
Qed.

(** ** Doubling the duration *)

Lemma minutes_of_normal d :
  d <> 0 -> Z.abs d < 2 ^ 64 -> normal (d <? 0) (-58) 8 (minutes_of d).
Proof.
  intros Hd Habs. unfold minutes_of.
  eapply normal_weaken.
  - replace (d <? 0) with (xorb (d <? 0) false) by apply xorb_false_r.
    eapply div_normal;
      [apply (of_Z_normal d 64); [assumption|assumption|lia]|exact sixty_normal| |]; lia.
  - lia.
  - lia.
Qed.






(** The tolerance is needed: one second of transport costs 0.000167,
    two seconds cost 0.000333, one unit short of the double. *)
Lemma doubling_is_exact_only_before_rounding :
  (exists c, calculate_call_cost 1 = Ok c /\ cost_livekit c = dec 167 6) /\
  (exists c, calculate_call_cost 2 = Ok c /\ cost_livekit c = dec 333 6) /\
  raw_cost (literal 10 3) 2 = double (raw_cost (literal 10 3) 1).
Proof.
  split; [|split].
  - eexists. split; vm_compute; reflexivity.
  - eexists. split; vm_compute; reflexivity.
  - vm_compute. reflexivity.
Qed.

(** ** Rounding errors

    The result of a rounding is within one unit in the last place of
    the value rounded. *)

Lemma binary_round_aux_value s mx ex l :
  let d := Zdigits2 mx in
  let t := d - 53 in
  0 < mx -> 53 <= d -> -1074 <= ex + t -> ex + t < 971 ->
  exists m' e',
    binary_round_aux prec emax s mx ex l = S754_finite s m' e' /\
    Zdigits2 (Zpos m') = 53 /\
    ex + t <= e' <= ex + t + 1 /\
    mx + 1 - 2 ^ (e' - ex) <= Zpos m' * 2 ^ (e' - ex) <= mx + 2 ^ (e' - ex).
Proof.
  intros d t Hmx Hd Hlo Hhi.
  destruct (binary_round_aux_spec s mx ex l Hmx Hd Hlo Hhi)
    as (m' & e' & Heq & Hd' & Hcases).
  fold d in Hcases. fold t in Hcases.
  exists m', e'. split; [exact Heq|]. split; [exact Hd'|].
  assert (HT : 0 < 2 ^ t) by (apply Z.pow_pos_nonneg; lia).
  pose proof (Z.div_mod mx (2 ^ t) ltac:(lia)) as Hdm.
  pose proof (Z.mod_pos_bound mx (2 ^ t) HT) as Hr.
  set (T := 2 ^ t) in *. set (m0 := mx / T) in *. set (r := mx mod T) in *.
  destruct Hcases as [[Hm ->]|(Hc & Hm & ->)].
  - replace (ex + t - ex) with t by lia. fold T.
    split; [lia|]. destruct Hm as [-> | ->]; nia.
  - replace (ex + t + 1 - ex) with (Z.succ t) by lia.
    rewrite Z.pow_succ_r by lia. fold T.
    split; [lia|]. rewrite Hm.
    assert (2 ^ 53 = 2 * 2 ^ 52) by reflexivity.
    nia.
Qed.

Lemma of_ratio_value n d :
  let d1 := Zdigits2 (Zpos n) in
  let d2 := Zdigits2 (Zpos d) in
  d1 - d2 < 53 -> -147 <= d1 - d2 ->
  exists m e,
    of_ratio false n d = S754_finite false m e /\
    Zdigits2 (Zpos m) = 53 /\
    d1 - d2 - 53 <= e <= d1 - d2 - 51 /\
    Z.abs (Zpos m * 2 ^ (e + 200) * Zpos d - Zpos n * 2 ^ 200) <= 2 ^ (e + 200) * Zpos d.
Proof.
  intros d1 d2 Hhi Hlo. unfold of_ratio.
  destruct (div_core_spec (Zpos n) 0 (Zpos d) 0) as (l & Hcore); try lia.
  fold d1 d2 in Hcore.
  replace (d1 + 0 - (d2 + 0)) with (d1 - d2) in Hcore by lia.
  rewrite fexp_normal in Hcore by lia.
  replace (Z.min (d1 - d2 - 53) (0 - 0)) with (d1 - d2 - 53) in Hcore by lia.
  replace (0 - 0 - (d1 - d2 - 53)) with (53 + d2 - d1) in Hcore by lia.
  rewrite Hcore. clear Hcore.
  set (sh := 53 + d2 - d1) in *.
  assert (Hsh : 0 < sh) by (unfold sh; lia).
  assert (Hpos : 0 < Zpos n * 2 ^ sh).
  { apply Z.mul_pos_pos; [lia|apply Z.pow_pos_nonneg; lia]. }
  pose proof (Zdigits2_mul_pow2 (Zpos n) sh eq_refl ltac:(lia)) as Hdn. fold d1 in Hdn.
  pose proof (Zdigits2_div (Zpos n * 2 ^ sh) (Zpos d) Hpos eq_refl) as Hdq.
  rewrite Hdn in Hdq. fold d2 in Hdq.
  specialize (Hdq ltac:(unfold sh; lia)).
  pose proof (Z.div_mod (Zpos n * 2 ^ sh) (Zpos d) ltac:(lia)) as Hdm.
  pose proof (Z.mod_pos_bound (Zpos n * 2 ^ sh) (Zpos d) eq_refl) as Hr.
  set (q := Zpos n * 2 ^ sh / Zpos d) in *.
  set (r := (Zpos n * 2 ^ sh) mod Zpos d) in *.
  assert (Hqpos : 0 < q).
  { assert (0 <= q) by (apply Z.div_pos; lia).
    assert (q <> 0); [|lia].
    intros E. rewrite E in Hdq. simpl in Hdq. unfold sh in Hdq. lia. }
  destruct (binary_round_aux_value false q (d1 - d2 - 53) l)
    as (m & e & -> & Hd' & He & Hw); try (unfold sh in *; lia).
  exists m, e. split; [reflexivity|]. split; [exact Hd'|].
  split; [unfold sh in *; lia|].
  set (G := 2 ^ (e - (d1 - d2 - 53))) in *.
  set (F := 2 ^ (200 + (d1 - d2 - 53))).
  assert (HG : 0 < G) by (apply Z.pow_pos_nonneg; unfold sh in *; lia).
  assert (HF : 0 < F) by (apply Z.pow_pos_nonneg; lia).
  assert (EA : 2 ^ (e + 200) = G * F).
  { unfold G, F. rewrite <- Z.pow_add_r by (unfold sh in *; lia). f_equal. lia. }
  assert (EP : 2 ^ 200 = 2 ^ sh * F).
  { unfold F, sh. rewrite <- Z.pow_add_r by lia. f_equal. lia. }
  rewrite EA, EP.
  set (S := 2 ^ sh) in *. set (w := Zpos m * G) in *.
  replace (Zpos m * (G * F) * Zpos d - Zpos n * (S * F))
    with (F * (w * Zpos d - Zpos n * S)) by (unfold w; ring).
  rewrite Z.abs_mul, (Z.abs_eq F) by lia.
  replace (G * F * Zpos d) with (F * (G * Zpos d)) by ring.
  apply Z.mul_le_mono_nonneg_l; [lia|].
  rewrite Hdm. apply Z.abs_le. nia.
Qed.

Lemma add_value lo hi x y :
  nonneg lo hi x -> nonneg lo hi y -> -200 <= lo <= hi -> hi < 900 ->
  nonneg lo (hi + 2) (add x y) /\
  Z.abs (scaled (add x y) - (scaled x + scaled y)) <= 2 ^ (hi + 202).
Proof.
  intros Hx Hy Hlo Hhi.
  assert (Hpow : 0 < 2 ^ (hi + 202)) by (apply Z.pow_pos_nonneg; lia).
  destruct Hx as [->|Hx], Hy as [->|Hy].
  - split; [left; reflexivity|]. simpl. lia.
  - destruct Hy as (my & ey & -> & Hdy & Hey). cbn [add SFadd scaled pzero]. split.
    + right. exists my, ey. split; [reflexivity|]. split; [assumption|]. lia.
    + match goal with |- Z.abs ?t <= _ => replace t with 0 by lia end.
      simpl. lia.
  - destruct Hx as (mx & ex & -> & Hdx & Hex). cbn [add SFadd scaled pzero]. split.
    + right. exists mx, ex. split; [reflexivity|]. split; [assumption|]. lia.
    + match goal with |- Z.abs ?t <= _ => replace t with 0 by lia end.
      simpl. lia.
  - destruct Hx as (mx & ex & -> & Hdx & Hex).
    destruct Hy as (my & ey & -> & Hdy & Hey).
    unfold add, SFadd. cbn [cond_Zopp].
    set (ez := Z.min ex ey).
    pose proof (shl_align_spec mx ex ez) as [_ Hmx].
    pose proof (shl_align_spec my ey ez) as [_ Hmy].
    replace (Z.min ex ez) with ez in Hmx by lia.
    replace (Z.min ey ez) with ez in Hmy by lia.
    set (top := Z.max ex ey).
    pose proof (aligned_mantissa_lt mx ex ez top Hdx ltac:(lia) ltac:(lia)) as Bx.
    pose proof (aligned_mantissa_lt my ey ez top Hdy ltac:(lia) ltac:(lia)) as By.
    rewrite <- Hmx in Bx. rewrite <- Hmy in By.
    set (ax := Zpos (fst (shl_align mx ex ez))) in *.
    set (ay := Zpos (fst (shl_align my ey ez))) in *.
    assert (Lx : 2 ^ 52 <= ax).
    { rewrite Hmx. apply mantissa_53 in Hdx.
      assert (1 <= 2 ^ (ex - ez)) by (pose proof (Z.pow_pos_nonneg 2 (ex - ez)); lia).
      nia. }
    assert (Hay : 0 < ay) by (unfold ay; lia).
    assert (HM : ax + ay < 2 ^ (54 + top - ez)).
    { replace (54 + top - ez) with (Z.succ (53 + top - ez)) by lia.
      rewrite Z.pow_succ_r by lia. lia. }
    destruct (ax + ay) as [|p|p] eqn:EM; try lia.
    unfold binary_normalize, binary_round.
    change (Zpos (digits2_pos p)) with (Zdigits2 (Zpos p)).
    pose proof (Zdigits2_ge_lower (Zpos p) 53 ltac:(replace (53 - 1) with 52 by lia; lia)
                  ltac:(lia)) as Hd1.
    pose proof (Zdigits2_le_upper (Zpos p) (54 + top - ez) eq_refl HM ltac:(lia)) as Hd2.
    set (dM := Zdigits2 (Zpos p)) in *.
    rewrite fexp_normal by lia.
    pose proof (shl_align_spec p ez (dM + ez - 53)) as [Es Ms].
    destruct (shl_align p ez (dM + ez - 53)) as [mz ez'].
    cbn [fst snd] in Es, Ms.
    replace (Z.min ez (dM + ez - 53)) with ez in Es, Ms by lia.
    subst ez'. rewrite Z.sub_diag, Z.pow_0_r, Z.mul_1_r in Ms.
    apply Pos2Z.inj in Ms. subst mz.
    destruct (binary_round_aux_value false (Zpos p) ez loc_Exact)
      as (m & e & -> & Hd' & He & Hw); try (fold dM; lia).
    fold dM in He.
    split.
    + right. exists m, e. split; [reflexivity|]. split; [exact Hd'|]. lia.
    + cbn [scaled].
      set (G := 2 ^ (e - ez)) in *.
      set (F := 2 ^ (ez + 200)).
      assert (HG : 0 < G) by (apply Z.pow_pos_nonneg; lia).
      assert (HF : 0 < F) by (apply Z.pow_pos_nonneg; lia).
      assert (EA : 2 ^ (e + 200) = G * F).
      { unfold G, F. rewrite <- Z.pow_add_r by lia. f_equal. lia. }
      assert (EX : Zpos mx * 2 ^ (ex + 200) = ax * F).
      { rewrite Hmx. unfold F. rewrite <- Z.mul_assoc, <- Z.pow_add_r by lia.
        do 2 f_equal. lia. }
      assert (EY : Zpos my * 2 ^ (ey + 200) = ay * F).
      { rewrite Hmy. unfold F. rewrite <- Z.mul_assoc, <- Z.pow_add_r by lia.
        do 2 f_equal. lia. }
      rewrite EA, EX, EY.
      replace (Zpos m * (G * F) - (ax * F + ay * F))
        with (F * (Zpos m * G - (ax + ay))) by ring.
      rewrite EM, Z.abs_mul, (Z.abs_eq F) by lia.
      assert (Hle : 2 ^ (e + 200) <= 2 ^ (hi + 202)) by (apply Z.pow_le_mono_r; lia).
      rewrite EA in Hle.
      assert (Z.abs (Zpos m * G - Zpos p) <= G) by (apply Z.abs_le; lia).
      apply Z.le_trans with (F * G); [|lia].
      apply Z.mul_le_mono_nonneg_l; lia.
Qed.

Lemma div_half_even_unique n d k :
  0 <= n -> 0 < d -> Z.abs (2 * (n - k * d)) < d -> div_half_even n d = k.
Proof.
  intros Hn Hd Hk.
  pose proof (div_half_even_spec n d Hn Hd) as Hu.
  set (u := div_half_even n d) in *.
  apply Z.abs_lt in Hk.
  assert (- 1 < u - k < 1) by nia.
  lia.
Qed.

(** ** Sums of amounts with four decimals *)

Lemma of_units_value k :
  0 <= k <= 10 ^ 13 ->
  nonneg (-66) (-21) (of_units false k 4) /\
  Z.abs (scaled (of_units false k 4) * 10 ^ 4 - k * 2 ^ 200) <= 2 ^ 179 * 10 ^ 4.
Proof.
  intros Hk. unfold of_units.
  change (Z.max (- 4) 0) with 0. change (Z.max 4 0) with 4.
  rewrite Z.pow_0_r, Z.mul_1_r.
  destruct k as [|n|n]; try lia.
  - split; [left; reflexivity|]. simpl. lia.
  - change (pow10 4) with 10000%positive.
    assert (Hd1 : Zdigits2 (Zpos n) <= 44).
    { apply Zdigits2_le_upper; [lia| |lia].
      assert (10 ^ 13 < 2 ^ 44) by reflexivity. lia. }
    pose proof (Zdigits2_pos (Zpos n) eq_refl) as Hd0.
    destruct (of_ratio_value n 10000) as (m & e & -> & Hd & He & Hv).
    + change (Zdigits2 (Zpos 10000)) with 14. lia.
    + change (Zdigits2 (Zpos 10000)) with 14. lia.
    + change (Zdigits2 (Zpos 10000)) with 14 in He.
      split.
      * right. exists m, e. split; [reflexivity|]. split; [assumption|]. lia.
      * cbn [scaled]. change (10 ^ 4) with 10000.
        assert (2 ^ (e + 200) <= 2 ^ 179) by (apply Z.pow_le_mono_r; lia).
        lia.
Qed.

Lemma add_pzero_l lo hi x : nonneg lo hi x -> add pzero x = x.
Proof. intros [->|(m & e & -> & _)]; reflexivity. Qed.

Lemma round_units_of_scaled m e k :
  -200 <= e < 0 ->
  Z.abs (Zpos m * 2 ^ (e + 200) * 10 ^ 4 - k * 2 ^ 200) < 2 ^ 199 ->
  round_units m e 4 = k.
Proof.
  intros He Hk. unfold round_units.
  change (Z.max (- 4) 0) with 0. change (Z.max 4 0) with 4.
  replace (Z.max e 0) with 0 by lia.
  replace (Z.max (- e) 0) with (- e) by lia.
  rewrite !Z.pow_0_r, !Z.mul_1_r.
  set (D := 2 ^ (- e)). set (F := 2 ^ (e + 200)) in *.
  assert (HD : 0 < D) by (apply Z.pow_pos_nonneg; lia).
  assert (HF : 0 < F) by (apply Z.pow_pos_nonneg; lia).
  assert (EP : 2 ^ 200 = D * F).
  { unfold D, F. rewrite <- Z.pow_add_r by lia. f_equal. lia. }
  assert (EH : 2 * 2 ^ 199 = 2 ^ 200) by reflexivity.
  apply div_half_even_unique; [nia|assumption|].
  apply Z.abs_lt in Hk. apply Z.abs_lt. nia.
Qed.

(** Three amounts of at most 10^13 units of 10^-4, added as doubles in
    order from 0.0 and rounded to 4 decimals, give their exact sum. *)
Lemma sum_of_three_amounts k1 k2 k3 :
  0 <= k1 <= 10 ^ 13 -> 0 <= k2 <= 10 ^ 13 -> 0 <= k3 <= 10 ^ 13 ->
  float_round
    (fold_left add [of_units false k1 4; of_units false k2 4; of_units false k3 4] pzero) 4
  = Ok (of_units false (k1 + k2 + k3) 4).
Proof.
  intros H1 H2 H3. cbn [fold_left].
  destruct (of_units_value k1 H1) as [N1 V1].
  destruct (of_units_value k2 H2) as [N2 V2].
  destruct (of_units_value k3 H3) as [N3 V3].
  set (x1 := of_units false k1 4) in *.
  set (x2 := of_units false k2 4) in *.
  set (x3 := of_units false k3 4) in *.
  rewrite (add_pzero_l _ _ _ N1).
  destruct (add_value (-66) (-21) x1 x2 N1 N2 ltac:(lia) ltac:(lia)) as [Na Va].
  change (-21 + 2) with (-19) in Na. change (-21 + 202) with 181 in Va.
  pose proof (nonneg_weaken _ _ (-66) (-19) _ N3 ltac:(lia) ltac:(lia)) as N3'.
  destruct (add_value (-66) (-19) (add x1 x2) x3 Na N3' ltac:(lia) ltac:(lia)) as [Ns Vs].
  change (-19 + 2) with (-17) in Ns. change (-19 + 202) with 183 in Vs.
  set (S := add (add x1 x2) x3) in *.
  assert (Hsum : Z.abs (scaled S * 10 ^ 4 - (k1 + k2 + k3) * 2 ^ 200) < 2 ^ 199).
  { change (10 ^ 4) with 10000 in *.
    pose proof (eq_refl : 2 ^ 179 = 766247770432944429179173513575154591809369561091801088).
    pose proof (eq_refl : 2 ^ 181 = 4 * 2 ^ 179).
    pose proof (eq_refl : 2 ^ 183 = 16 * 2 ^ 179).
    pose proof (eq_refl : 2 ^ 199 = 1048576 * 2 ^ 179).
    pose proof (eq_refl : 2 ^ 200 = 2097152 * 2 ^ 179).
    lia. }
  destruct Ns as [ES|Ns].
  - rewrite ES in *.
    assert (k1 + k2 + k3 = 0).
    { destruct (Z.eq_dec (k1 + k2 + k3) 0) as [E0|E0]; [exact E0|exfalso].
      assert (2 ^ 199 < 2 ^ 200) by reflexivity.
      assert (0 < 2 ^ 199) by reflexivity.
      assert (1 * 2 ^ 200 <= (k1 + k2 + k3) * 2 ^ 200)
        by (apply Z.mul_le_mono_nonneg_r; lia).
      change (scaled pzero) with 0 in Hsum.
      apply Z.abs_lt in Hsum. lia. }
    rewrite H. reflexivity.
  - destruct (float_round_normal _ _ _ _ 4 Ns ltac:(lia) ltac:(lia))
      as (m & e & ES & Er & _).
    rewrite Er. f_equal. f_equal.
    destruct Ns as (m0 & e0 & ES' & _ & He0).
    rewrite ES in ES'. injection ES' as <- <-.
    rewrite ES in Hsum. cbn [scaled] in Hsum.
    apply round_units_of_scaled; [lia|exact Hsum].
Qed.

(** ** The update handler *)

Lemma bind_real_finite f : is_finite f = true -> bind_real (PFloat f) = Ok (Some f).
Proof. destruct f; simpl; congruence. Qed.

Lemma bind_int_fits z : fits_int64 z = true -> bind_int z = Ok z.
Proof. intros H. unfold bind_int. rewrite H. reflexivity. Qed.

Lemma Forall2_map_self {A} (R : A -> A -> Prop) (g : A -> A) (l : list A) :
  (forall a, R a (g a)) -> Forall2 R l (map g l).
Proof. intros H. induction l; simpl; constructor; auto. Qed.

Lemma bind_all_cons now a l fa g :
  bind_assignment now a = Ok fa -> bind_all now l = Ok g ->
  bind_all now (a :: l) = Ok (fun r => g (fa r)).
Proof. intros Ha Hl. simpl. rewrite Ha, Hl. reflexivity. Qed.

Lemma bind_all_app now l1 l2 f1 f2 :
  bind_all now l1 = Ok f1 -> bind_all now l2 = Ok f2 ->
  bind_all now (l1 ++ l2) = Ok (fun r => f2 (f1 r)).
Proof.
  revert f1. induction l1 as [|a l1 IH]; intros f1 H1 H2; simpl in *.
  - injection H1 as <-. rewrite H2. reflexivity.
  - destruct (bind_assignment now a) as [fa|]; simpl in *; [|discriminate].
    destruct (bind_all now l1) as [g|]; simpl in *; [|discriminate].
    injection H1 as <-. rewrite (IH g eq_refl H2). reflexivity.
Qed.

Lemma bind_all_plain now l :
  Forall plain l ->
  exists f, bind_all now l = Ok f /\ forall r, accounting (f r) = accounting r.
Proof.
  induction 1 as [|a l Ha Hl (g & Eg & Hg)].
  - exists (fun r => r). split; reflexivity.
  - destruct a; try contradiction.
    + eexists. split; [apply bind_all_cons; [reflexivity|exact Eg]|].
      intros r. cbv beta. rewrite Hg. reflexivity.
    + eexists. split; [apply bind_all_cons; [reflexivity|exact Eg]|].
      intros r. cbv beta. rewrite Hg. reflexivity.
    + eexists. split; [apply bind_all_cons; [reflexivity|exact Eg]|].
      intros r. cbv beta. rewrite Hg. reflexivity.
Qed.

Lemma bind_all_costs now d f1 f2 f3 f4 f5 f6 f7 :
  fits_int64 d = true ->
  Forall (fun r => is_finite r = true) [f1; f2; f3; f4; f5; f6] ->
  let c := {| cost_livekit := PFloat f1; cost_stt := PFloat f2; cost_tts := PFloat f3;
              cost_llm := PFloat f4; total_cost_usd := PFloat f5;
              total_cost_inr := PFloat f6; duration_minutes := PFloat f7 |} in
  exists g,
    bind_all now (SetDuration d :: cost_assignments c) = Ok g /\
    forall r, accounting (g r)
              = (row_id r, d, [Some f1; Some f2; Some f3; Some f4; Some f5; Some f6]).
Proof.
  intros Hd Hfin c.
  inversion Hfin as [|? ? F1 Hfin1]; subst.
  inversion Hfin1 as [|? ? F2 Hfin2]; subst.
  inversion Hfin2 as [|? ? F3 Hfin3]; subst.
  inversion Hfin3 as [|? ? F4 Hfin4]; subst.
  inversion Hfin4 as [|? ? F5 Hfin5]; subst.
  inversion Hfin5 as [|? ? F6 _]; subst.
  eexists. split.
  - unfold cost_assignments.
    apply bind_all_cons; [unfold bind_assignment; rewrite (bind_int_fits d Hd); reflexivity|].
    apply bind_all_cons; [unfold bind_assignment, c, cost_livekit;
                          rewrite (bind_real_finite _ F1); reflexivity|].
    apply bind_all_cons; [unfold bind_assignment, c, cost_stt;
                          rewrite (bind_real_finite _ F2); reflexivity|].
    apply bind_all_cons; [unfold bind_assignment, c, cost_tts;
                          rewrite (bind_real_finite _ F3); reflexivity|].
    apply bind_all_cons; [unfold bind_assignment, c, cost_llm;
                          rewrite (bind_real_finite _ F4); reflexivity|].
    apply bind_all_cons; [unfold bind_assignment, c, total_cost_usd;
                          rewrite (bind_real_finite _ F5); reflexivity|].
    apply bind_all_cons; [unfold bind_assignment, c, total_cost_inr;
                          rewrite (bind_real_finite _ F6); reflexivity|].
    reflexivity.
  - intros r. reflexivity.
Qed.

Lemma status_and_notes_plain data : Forall plain (status_and_notes data).
Proof.
  unfold status_and_notes.
  destruct (data_status data), (data_notes data); repeat constructor.
Qed.

Lemma collect_updates_with_duration data d c :
  data_duration data = Some d -> calculate_call_cost d = Ok c ->
  collect_updates data =
    ([CostCalculated d],
     Ok (if is_terminal (data_status data)
         then (status_and_notes data ++ SetDuration d :: cost_assignments c)
                ++ [SetEndedAtCurrentTimestamp]
         else status_and_notes data ++ SetDuration d :: cost_assignments c)).
Proof.
  intros Hdur Ec. unfold collect_updates. rewrite Hdur, Ec. reflexivity.
Qed.

Lemma update_call_executes call_id data now calls calculated updates f :
  collect_updates data = (calculated, Ok updates) -> updates <> [] ->
  bind_all now updates = Ok f -> fits_int64 call_id = true ->
  update_call call_id data now calls =
    {| reply := Success;
       calls_after := map (fun r => if row_id r =? call_id then f r else r) calls;
       journal := calculated ++ [Executed updates call_id; Committed] |}.
Proof.
  intros Hc Hne Hf Hid. unfold update_call. rewrite Hc.
  destruct updates as [|a l]; [congruence|].
  unfold execute_update. rewrite Hf. cbn [pybind].
  rewrite (bind_int_fits call_id Hid). reflexivity.
Qed.

Lemma update_call_refuses call_id data now calls calculated updates :
  collect_updates data = (calculated, Ok updates) -> updates <> [] ->
  is_ok (bind_all now updates) && fits_int64 call_id = false ->
  exists e,
    update_call call_id data now calls =
      {| reply := ServerError e; calls_after := calls; journal := calculated |}.
Proof.
  intros Hc Hne Hf. unfold update_call. rewrite Hc.
  destruct updates as [|a l]; [congruence|].
  unfold execute_update.
  destruct (bind_all now (a :: l)) as [f|e]; cbn [pybind].
  - simpl in Hf. unfold bind_int. rewrite Hf. eexists. reflexivity.
  - eexists. reflexivity.
Qed.

Lemma accounting_id r r' : accounting r' = accounting r -> row_id r' = row_id r.
Proof. unfold accounting. intros H. injection H as H _. exact H. Qed.

Lemma app_cons_not_nil {A} (l l' : list A) (a : A) : l ++ a :: l' <> [].
Proof. destruct l; discriminate. Qed.

(** An update that carries a 64-bit duration, on a 64-bit call id: the
    calculator is called once, one statement is executed and committed,
    and the rows of the call hold the duration and the breakdown. *)
Lemma update_call_with_duration call_id data now calls d :
  data_duration data = Some d ->
  fits_int64 d = true -> fits_int64 call_id = true ->
  exists c updates,
    calculate_call_cost d = Ok c /\
    reply (update_call call_id data now calls) = Success /\
    journal (update_call call_id data now calls)
      = [CostCalculated d; Executed updates call_id; Committed] /\
    In (SetDuration d) updates /\
    incl (cost_assignments c) updates /\
    Forall2 (duration_written call_id d c) calls
      (calls_after (update_call call_id data now calls)).
Proof.
  intros Hdur Hd Hid.
  destruct (calculate_call_cost_priced _ _ _ _ _ _ _ _ d PRICING_table USD_TO_INR_range Hd)
    as (r1 & r2 & r3 & r4 & r5 & r6 & r7 & _ & _ & _ & _ & _ & _ & _ & Hfin & Ec).
  change (calculate_call_cost_with PRICING (PFloat (literal 830 1)) d)
    with (calculate_call_cost d) in Ec.
  set (c := {| cost_livekit := PFloat r1; cost_stt := PFloat r2; cost_tts := PFloat r3;
               cost_llm := PFloat r4; total_cost_usd := PFloat r5;
               total_cost_inr := PFloat r6; duration_minutes := PFloat r7 |}) in *.
  pose proof (collect_updates_with_duration data d c Hdur Ec) as Hcollect.
  destruct (bind_all_plain now _ (status_and_notes_plain data)) as (fpre & Epre & Hpre).
  destruct (bind_all_costs now d r1 r2 r3 r4 r5 r6 r7 Hd Hfin) as (g & Eg & Hg).
  fold c in Eg.
  pose proof (bind_all_app now _ _ _ _ Epre Eg) as Emid.
  destruct (bind_all_plain now [SetEndedAtCurrentTimestamp] ltac:(repeat constructor))
    as (fend & Eend & Hend).
  pose proof (bind_all_app now _ _ _ _ Emid Eend) as Eall.
  assert (Hrow : forall f, (forall r, accounting (f r)
                   = (row_id r, d, [Some r1; Some r2; Some r3; Some r4; Some r5; Some r6])) ->
                 forall r, duration_written call_id d c r
                             (if row_id r =? call_id then f r else r)).
  { intros f Hf r. unfold duration_written.
    destruct (row_id r =? call_id) eqn:E; [|reflexivity].
    apply Z.eqb_eq in E. specialize (Hf r). unfold accounting in Hf.
    injection Hf as H0 H1 H2 H3 H4 H5 H6 H7.
    unfold costs_stored. rewrite H0, H1, H2, H3, H4, H5, H6, H7.
    repeat split; try reflexivity; assumption. }
  exists c.
  destruct (is_terminal (data_status data)).
  - rewrite (update_call_executes call_id data now calls _ _ _ Hcollect
               (app_cons_not_nil _ _ _) Eall Hid).
    eexists. split; [exact Ec|]. cbn [reply journal calls_after app].
    split; [reflexivity|]. split; [reflexivity|].
    split; [apply in_or_app; left; apply in_or_app; right; left; reflexivity|].
    split; [intros a Ha; apply in_or_app; left; apply in_or_app; right; right; exact Ha|].
    apply Forall2_map_self. apply Hrow.
    intros r. rewrite Hend. cbv beta. rewrite Hg, (accounting_id _ _ (Hpre r)). reflexivity.
  - rewrite (update_call_executes call_id data now calls _ _ _ Hcollect
               (app_cons_not_nil _ _ _) Emid Hid).
    eexists. split; [exact Ec|]. cbn [reply journal calls_after app].
    split; [reflexivity|]. split; [reflexivity|].
    split; [apply in_or_app; right; left; reflexivity|].
    split; [intros a Ha; apply in_or_app; right; right; exact Ha|].
    apply Forall2_map_self. apply Hrow.
    intros r. cbv beta. rewrite Hg, (accounting_id _ _ (Hpre r)). reflexivity.
Qed.

Lemma bind_all_raise_app now l1 l2 :
  is_ok (bind_all now l1) = false -> is_ok (bind_all now (l1 ++ l2)) = false.
Proof.
  induction l1 as [|a l1 IH]; simpl; [discriminate|].
  destruct (bind_assignment now a); simpl; [|reflexivity].
  destruct (bind_all now l1); simpl; [discriminate|].
  intros _. specialize (IH eq_refl).
  destruct (bind_all now (l1 ++ l2)); simpl in *; [discriminate|reflexivity].
Qed.

Lemma bind_all_app_raise now l1 l2 :
  is_ok (bind_all now l2) = false -> is_ok (bind_all now (l1 ++ l2)) = false.
Proof.
  intros H. induction l1 as [|a l1 IH]; simpl; [exact H|].
  destruct (bind_assignment now a); simpl; [|reflexivity].
  destruct (bind_all now (l1 ++ l2)); simpl; [discriminate|reflexivity].
Qed.

(** An update that carries a duration outside the 64-bit range, or goes
    to a call id outside it, is answered with an error: the calculator
    was called once and nothing is written. *)
Lemma update_call_not_written call_id data now calls d :
  data_duration data = Some d ->
  fits_int64 d && fits_int64 call_id = false ->
  (exists e, reply (update_call call_id data now calls) = ServerError e) /\
  calls_after (update_call call_id data now calls) = calls /\
  journal (update_call call_id data now calls) = [CostCalculated d].
Proof.
  intros Hdur Hfit.
  destruct (calculate_call_cost d) as [c|e] eqn:Ec.
  - pose proof (collect_updates_with_duration data d c Hdur Ec) as Hcollect.
    assert (Hmid : is_ok (bind_all now (status_and_notes data
                                         ++ SetDuration d :: cost_assignments c))
                   && fits_int64 call_id = false).
    { destruct (fits_int64 d) eqn:Hd; simpl in Hfit.
      - rewrite Hfit. apply andb_false_r.
      - rewrite bind_all_app_raise; [reflexivity|].
        simpl. unfold bind_int. rewrite Hd. reflexivity. }
    destruct (is_terminal (data_status data)).
    + destruct (update_call_refuses call_id data now calls _ _ Hcollect
                  (app_cons_not_nil _ _ _)) as (e & ->).
      * apply andb_false_iff in Hmid as [Hmid|Hmid].
        -- rewrite bind_all_raise_app; [reflexivity|exact Hmid].
        -- rewrite Hmid. apply andb_false_r.
      * split; [eexists; reflexivity|split; reflexivity].
    + destruct (update_call_refuses call_id data now calls _ _ Hcollect
                  (app_cons_not_nil _ _ _) Hmid) as (e & ->).
      split; [eexists; reflexivity|split; reflexivity].
  - unfold update_call, collect_updates. rewrite Hdur, Ec. cbn [pybind].
    split; [eexists; reflexivity|split; reflexivity].
Qed.



(** C3: an update that carries a duration calls the cost calculator
    once and either writes nothing (the request is answered with an
    error) or executes one UPDATE statement that sets the duration
    together with the six cost columns, after which the rows of the
    call hold that duration and exactly the breakdown the calculator
    returns for it; the other rows are untouched.  With a 64-bit
    duration and call id the update succeeds. *)
Theorem C3_duration_and_costs_in_one_update call_id data now calls d :
  data_duration data = Some d ->
  let o := update_call call_id data now calls in
  let written :=
    exists c updates,
      calculate_call_cost d = Ok c /\
      journal o = [CostCalculated d; Executed updates call_id; Committed] /\
      In (SetDuration d) updates /\
      incl (cost_assignments c) updates /\
      Forall2 (duration_written call_id d c) calls (calls_after o) in
  ((exists e, reply o = ServerError e) /\ calls_after o = calls /\
   journal o = [CostCalculated d]
   \/ reply o = Success /\ written) /\
  (fits_int64 d = true -> fits_int64 call_id = true -> reply o = Success /\ written).
Proof.
  intros Hdur o written.
  assert (Hok : fits_int64 d = true -> fits_int64 call_id = true ->
                reply o = Success /\ written).
  { intros Hd Hid.
    destruct (update_call_with_duration call_id data now calls d Hdur Hd Hid)
      as (c & updates & Ec & Hr & Hj & Hin & Hincl & Hrows).
    split; [exact Hr|]. exists c, updates. repeat split; assumption. }
  split; [|exact Hok].
  destruct (fits_int64 d && fits_int64 call_id) eqn:Hfit.
  - apply andb_true_iff in Hfit as [Hd Hid]. right. apply Hok; assumption.
  - left. apply update_call_not_written; assumption.
Qed.

Lemma C3_duration_and_costs_in_one_update_witness :
  let row := inserted_call 1 "+15550100" "call-15550100-1234" "AD_1" 1000 in
  let data := {| data_status := Some "completed"%string;
                 data_notes := None; data_duration := Some 120 |} in
  let o := update_call 1 data 2000 [row] in
  reply o = Success /\
  exists c updates,
    calculate_call_cost 120 = Ok c /\
    journal o = [CostCalculated 120; Executed updates 1; Committed] /\
    In (SetDuration 120) updates /\
    incl (cost_assignments c) updates /\
    Forall2 (duration_written 1 120 c) [row] (calls_after o).
Proof.
  intros row data o.
  apply (proj2 (C3_duration_and_costs_in_one_update 1 data 2000 [row] 120 eq_refl));
    reflexivity.
Defined.

(** ** The end timestamp *)

Lemma bind_assignment_keeps_ended now a f :
  a <> SetEndedAtCurrentTimestamp -> bind_assignment now a = Ok f ->
  forall r, row_ended_at (f r) = row_ended_at r.
Proof.
  intros Ha Hf r. destruct a; simpl in Hf; try congruence;
    try (injection Hf as <-; reflexivity);
    match type of Hf with
    | pybind ?m _ = _ => destruct m; simpl in Hf; [injection Hf as <-; reflexivity|discriminate]
    end.
Qed.

Lemma bind_all_keeps_ended now l :
  Forall (fun a => a <> SetEndedAtCurrentTimestamp) l ->
  forall f, bind_all now l = Ok f -> forall r, row_ended_at (f r) = row_ended_at r.
Proof.
  induction 1 as [|a l Ha Hl IH]; intros f Hf r; simpl in Hf.
  - injection Hf as <-. reflexivity.
  - destruct (bind_assignment now a) as [fa|] eqn:Ea; simpl in Hf; [|discriminate].
    destruct (bind_all now l) as [g|] eqn:Eg; simpl in Hf; [|discriminate].
    injection Hf as <-.
    rewrite (IH g eq_refl). eapply bind_assignment_keeps_ended; eassumption.
Qed.

Lemma bind_all_stamps_ended now l :
  forall f, bind_all now (l ++ [SetEndedAtCurrentTimestamp]) = Ok f ->
  forall r, row_ended_at (f r) = Some now.
Proof.
  induction l as [|a l IH]; intros f Hf r; simpl in Hf.
  - injection Hf as <-. reflexivity.
  - destruct (bind_assignment now a) as [fa|] eqn:Ea; simpl in Hf; [|discriminate].
    destruct (bind_all now (l ++ [SetEndedAtCurrentTimestamp])) as [g|] eqn:Eg;
      simpl in Hf; [|discriminate].
    injection Hf as <-. apply (IH g eq_refl).
Qed.

(** The statement of an update is made of assignments that leave the
    end timestamp alone, followed by the stamp exactly when the status
    given is terminal. *)
Lemma collect_updates_shape data calculated updates :
  collect_updates data = (calculated, Ok updates) ->
  exists base,
    Forall (fun a => a <> SetEndedAtCurrentTimestamp) base /\
    updates = if is_terminal (data_status data)
              then base ++ [SetEndedAtCurrentTimestamp] else base.
Proof.
  unfold collect_updates. intros H.
  destruct (data_duration data) as [d|].
  - destruct (calculate_call_cost d) as [c|]; cbn [pybind] in H; [|discriminate].
    injection H as _ <-. eexists. split; [|reflexivity].
    unfold cost_assignments.
    destruct (data_status data), (data_notes data); cbn [app];
      repeat constructor; discriminate.
  - injection H as _ <-. eexists. split; [|reflexivity].
    destruct (data_status data), (data_notes data); cbn [app];
      repeat constructor; discriminate.
Qed.

Lemma update_call_success call_id data now calls :
  reply (update_call call_id data now calls) = Success ->
  calls_after (update_call call_id data now calls) = calls /\
    snd (collect_updates data) = Ok []
  \/ exists updates f,
       snd (collect_updates data) = Ok updates /\
       bind_all now updates = Ok f /\
       calls_after (update_call call_id data now calls)
         = map (fun r => if row_id r =? call_id then f r else r) calls.
Proof.
  unfold update_call.
  destruct (collect_updates data) as [calculated [updates|e]]; cbn [snd]; [|discriminate].
  destruct updates as [|a updates]; [left; split; reflexivity|].
  unfold execute_update.
  destruct (bind_all now (a :: updates)) as [f|] eqn:Ef; cbn [pybind]; [|discriminate].
  unfold bind_int. destruct (fits_int64 call_id); cbn [pybind]; [|discriminate].
  intros _. right. exists (a :: updates), f. repeat split; assumption.
Qed.

(** C4, as stated, fails: a call that ended at time 1500 and receives
    the status 'completed' again at time 2500 has its end timestamp
    overwritten with 2500. *)
Lemma C4_second_terminal_update_overwrites :
  let row := inserted_call 1 "+15550100" "call-15550100-1234" "AD_1" 1000 in
  let completed := {| data_status := Some "completed"%string;
                      data_notes := None; data_duration := None |} in
  let first := update_call 1 completed 1500 [row] in
  let second := update_call 1 completed 2500 (calls_after first) in
  map row_ended_at (calls_after first) = [Some 1500] /\
  reply second = Success /\
  map row_ended_at (calls_after second) = [Some 2500].
Proof. vm_compute. repeat split; reflexivity. Qed.

(** C4 (amended): an update that succeeds with a terminal status
    (completed, failed or no_answer) sets the end timestamp of the
    call's rows to the time of that update, whether or not it was null;
    applied a second time it leaves the timestamp unchanged only when
    the clock reads the same.  An update without a terminal status
    never changes an end timestamp. *)
Theorem C4_terminal_update_stamps_end_time call_id data now calls :
  let o := update_call call_id data now calls in
  reply o = Success ->
  (is_terminal (data_status data) = true ->
   Forall2 (fun r r' => if row_id r =? call_id
                        then row_ended_at r' = Some now else r' = r)
     calls (calls_after o)) /\
  (is_terminal (data_status data) = false ->
   Forall2 (fun r r' => row_ended_at r' = row_ended_at r) calls (calls_after o)).
Proof.
  intros o Hok. subst o.
  destruct (update_call_success call_id data now calls Hok)
    as [[-> Hnil]|(updates & f & Hupd & Hf & ->)].
  - destruct (collect_updates data) as [calculated collected] eqn:Ec.
    cbn [snd] in Hnil. subst collected.
    destruct (collect_updates_shape data calculated [] Ec) as (base & Hbase & Hshape).
    split; intros Ht; rewrite Ht in Hshape.
    + destruct base; discriminate.
    + clear. induction calls; constructor; auto.
  - destruct (collect_updates data) as [calculated collected] eqn:Ec.
    cbn [snd] in Hupd. subst collected.
    destruct (collect_updates_shape data calculated updates Ec) as (base & Hbase & Hshape).
    split; intros Ht; rewrite Ht in Hshape; subst updates;
      apply Forall2_map_self; intros r.
    + destruct (row_id r =? call_id); [|reflexivity].
      eapply bind_all_stamps_ended; eassumption.
    + destruct (row_id r =? call_id); [|reflexivity].
      eapply bind_all_keeps_ended; eassumption.
Qed.

Lemma C4_terminal_update_stamps_end_time_witness :
  let row := inserted_call 1 "+15550100" "call-15550100-1234" "AD_1" 1000 in
  let completed := {| data_status := Some "completed"%string;
                      data_notes := None; data_duration := None |} in
  let first := update_call 1 completed 1500 [row] in
  Forall2 (fun r r' => if row_id r =? 1 then row_ended_at r' = Some 2500 else r' = r)
    (calls_after first)
    (calls_after (update_call 1 completed 2500 (calls_after first))).
Proof.
  intros row completed first.
  apply (proj1 (C4_terminal_update_stamps_end_time 1 completed 2500 (calls_after first)
                  eq_refl)).
  reflexivity.
Defined.

(** ** Negative durations *)







(** ** The cost report *)

Lemma zero_num_not_gt_0 x : is_zero_num x -> py_gt_0 x = false.
Proof.
  destruct x as [z|f]; simpl.
  - intros ->. reflexivity.
  - destruct f; try discriminate. reflexivity.
Qed.

(** C5: on an empty table the report is produced, not an error: every
    cost sum, the duration and the per-window sums and counts are 0, at
    any time; the cost per minute is 0 whenever the total minutes are 0,
    which is the case whenever the total duration is not positive. *)
Theorem C5_empty_table_report :
  (forall now,
     get_costs now [] =
       Ok {| breakdown_livekit_sip := PInt 0;
             breakdown_deepgram_stt := PInt 0;
             breakdown_deepgram_tts := PInt 0;
             breakdown_groq_llm := PInt 0;
             totals_usd := PInt 0;
             totals_inr := PInt 0;
             totals_minutes := PInt 0;
             totals_cost_per_minute_usd := PInt 0;
             totals_cost_per_minute_inr := PFloat pzero;
             costs_today := {| usd := PInt 0; inr := PInt 0; calls := 0 |};
             costs_week := {| usd := PInt 0; inr := PInt 0; calls := 0 |};
             costs_month := {| usd := PInt 0; inr := PInt 0; calls := 0 |} |}) /\
  (forall w now, window_total w now [] = Ok (PInt 0)) /\
  (forall total_usd total_minutes,
     is_zero_num total_minutes ->
     cost_per_minute_of total_usd total_minutes = Ok (PInt 0)) /\
  (forall total_duration,
     total_duration <= 0 -> total_minutes_of (PInt total_duration) = Ok (PInt 0)).
Proof.
  split; [|split; [|split]].
  - intros now. reflexivity.
  - intros [] now; reflexivity.
  - intros total_usd total_minutes Hz. unfold cost_per_minute_of.
    rewrite (zero_num_not_gt_0 _ Hz). reflexivity.
  - intros total_duration Hd. unfold total_minutes_of, py_gt_0.
    replace (0 <? total_duration) with false by (symmetry; apply Z.ltb_ge; lia).
    reflexivity.
Qed.

Lemma C5_empty_table_report_witness :
  cost_per_minute_of (PFloat (literal 886 4)) (PInt 0) = Ok (PInt 0) /\
  total_minutes_of (PInt (-5)) = Ok (PInt 0).
Proof.
  split.
  - apply (proj1 (proj2 (proj2 C5_empty_table_report))). reflexivity.
  - apply (proj2 (proj2 (proj2 C5_empty_table_report))). lia.
Defined.

(** ** Sums over a window *)

Lemma window_rows_all_time now table : window_rows all_time now table = table.
Proof.
  unfold window_rows. induction table as [|r table IH]; [reflexivity|].
  rewrite filter_cons, IH.
  destruct (decide (Is_true (in_window all_time now r))) as [_|H]; [reflexivity|].
  exfalso. apply H. exact I.
Qed.

Lemma sum_real_three x1 x2 x3 :
  sum_real [Some x1; Some x2; Some x3] = Some (fold_left add [x1; x2; x3] pzero).
Proof. reflexivity. Qed.

(** The sum of the stored totals of three calls, rounded as the report
    rounds it. *)
Lemma rounded_sum_of_three r1 r2 r3 k1 k2 k3 :
  row_total_cost_usd r1 = Some (of_units false k1 4) ->
  row_total_cost_usd r2 = Some (of_units false k2 4) ->
  row_total_cost_usd r3 = Some (of_units false k3 4) ->
  0 <= k1 <= 10 ^ 13 -> 0 <= k2 <= 10 ^ 13 -> 0 <= k3 <= 10 ^ 13 ->
  py_round (coalesce_real (sum_real (map row_total_cost_usd [r1; r2; r3]))) 4
  = Ok (dec (k1 + k2 + k3) 4).
Proof.
  intros E1 E2 E3 H1 H2 H3. cbn [map]. rewrite E1, E2, E3, sum_real_three.
  cbn [coalesce_real]. unfold py_round.
  rewrite (sum_of_three_amounts k1 k2 k3 H1 H2 H3). cbn [pybind].
  rewrite dec_nonneg by lia. reflexivity.
Qed.

Lemma window_total_of_three w now table r1 r2 r3 k1 k2 k3 t :
  window_rows w now table = [r1; r2; r3] ->
  row_total_cost_usd r1 = Some (of_units false k1 4) ->
  row_total_cost_usd r2 = Some (of_units false k2 4) ->
  row_total_cost_usd r3 = Some (of_units false k3 4) ->
  0 <= k1 <= 10 ^ 13 -> 0 <= k2 <= 10 ^ 13 -> 0 <= k3 <= 10 ^ 13 ->
  window_total w now table = Ok t -> t = dec (k1 + k2 + k3) 4.
Proof.
  intros Hrows E1 E2 E3 H1 H2 H3.
  pose proof (rounded_sum_of_three r1 r2 r3 k1 k2 k3 E1 E2 E3 H1 H2 H3) as Hsum.
  assert (Hq : forall w', window_rows w' now table = [r1; r2; r3] ->
               forall c, window_query w' now table = Ok c -> usd c = dec (k1 + k2 + k3) 4).
  { intros w' Hrows' c. unfold window_query. rewrite Hrows', Hsum. cbn [pybind].
    destruct (py_round _ 2); cbn [pybind]; [|discriminate].
    intros H. injection H as <-. reflexivity. }
  destruct w; cbn [window_total].
  - destruct (window_query today now table) as [c|] eqn:Ec; cbn [pybind]; [|discriminate].
    intros H. injection H as <-. eapply Hq; eassumption.
  - destruct (window_query week now table) as [c|] eqn:Ec; cbn [pybind]; [|discriminate].
    intros H. injection H as <-. eapply Hq; eassumption.
  - destruct (window_query month now table) as [c|] eqn:Ec; cbn [pybind]; [|discriminate].
    intros H. injection H as <-. eapply Hq; eassumption.
  - rewrite window_rows_all_time in Hrows. subst table.
    unfold get_costs. rewrite Hsum.
    repeat match goal with
    | |- pybind (pybind ?m _) _ = _ -> _ =>
        destruct m; cbn [pybind]; [|discriminate]
    end.
    intros H. injection H as <-. reflexivity.
Qed.
(** ** The report is produced *)

Lemma fold_add_ordinary l : forall j acc,
  (length l + j <= 3)%nat ->
  zero_or_normal (-300 - 52 * Z.of_nat j) (300 + 2 * Z.of_nat j) acc ->
  Forall (zero_or_normal (-300) 300) l ->
  zero_or_normal (-456) 306 (fold_left add l acc).
Proof.
  induction l as [|x l IH]; intros j acc Hlen Hacc Hl.
  - simpl in *. eapply zero_or_normal_weaken; [exact Hacc| |]; lia.
  - inversion Hl as [|? ? Hx Hl']; subst. simpl. apply (IH (S j)).
    + simpl in *. lia.
    + eapply zero_or_normal_weaken.
      * apply (add_zero_or_normal _ _ _ _ _ _ Hacc Hx); lia.
      * lia.
      * lia.
    + exact Hl'.
Qed.

Lemma omap_ordinary l :
  Forall ordinary l ->
  Forall (zero_or_normal (-300) 300) (omap id l) /\ length (omap id l) = length l.
Proof.
  induction 1 as [|x l [f [-> Hf]] _ [IH1 IH2]]; [split; constructor|].
  cbn [omap list_omap id]. split; [constructor; assumption|].
  cbn [length]. rewrite IH2. reflexivity.
Qed.

Lemma sum_real_ordinary l :
  (length l <= 3)%nat -> Forall ordinary l -> sum_range (coalesce_real (sum_real l)).
Proof.
  intros Hlen Hl. destruct (omap_ordinary l Hl) as [Hfs Hn].
  unfold sum_real. destruct (omap id l) as [|f fs] eqn:E; [left; reflexivity|].
  right. eexists. split; [reflexivity|].
  apply (fold_add_ordinary (f :: fs) 0).
  - rewrite Hn. lia.
  - left. exists false. reflexivity.
  - exact Hfs.
Qed.

Lemma py_round_sum v nd :
  sum_range v -> 0 <= nd <= 15 -> exists r, py_round v nd = Ok r.
Proof.
  intros [->|[f [-> Hf]]] Hnd.
  - eexists. reflexivity.
  - destruct (float_round_spec _ _ f nd Hf ltac:(lia) Hnd) as [r [Hr _]].
    exists (PFloat r). apply py_round_float. exact Hr.
Qed.

Lemma sum_int_from_small l : forall j acc,
  (length l + j <= 3)%nat -> Z.abs acc <= Z.of_nat j * 2 ^ 60 ->
  Forall (fun d => Z.abs d < 2 ^ 60) l ->
  exists s, sum_int_from acc l = Ok s /\ Z.abs s < 2 ^ 62.
Proof.
  pose proof (eq_refl : 2 ^ 60 = 1152921504606846976) as P60.
  pose proof (eq_refl : 2 ^ 62 = 4611686018427387904) as P62.
  induction l as [|d l IH]; intros j acc Hlen Hacc Hl.
  - exists acc. split; [reflexivity|]. simpl in Hlen. lia.
  - inversion Hl as [|? ? Hd Hl']; subst. cbn [sum_int_from].
    assert (Hfit : fits_int64 (acc + d) = true).
    { unfold fits_int64, INT64_MIN, INT64_MAX.
      pose proof (eq_refl : 2 ^ 63 = 9223372036854775808) as P63.
      simpl in Hlen.
      apply andb_true_intro. split; apply Z.leb_le; lia. }
    rewrite Hfit. apply (IH (S j)).
    + simpl in *. lia.
    + simpl in Hlen. lia.
    + exact Hl'.
Qed.

Lemma sum_int_small l :
  (length l <= 3)%nat -> Forall (fun d => Z.abs d < 2 ^ 60) l ->
  exists o, sum_int l = Ok o /\ Z.abs (match o with Some s => s | None => 0 end) < 2 ^ 62.
Proof.
  intros Hlen Hl. destruct l as [|d l].
  - exists None. split; [reflexivity|]. reflexivity.
  - destruct (sum_int_from_small (d :: l) 0 0) as [s [Hs Hb]]; [lia|simpl; lia|exact Hl|].
    exists (Some s). unfold sum_int. rewrite Hs. split; [reflexivity|exact Hb].
Qed.

Lemma total_minutes_of_small o :
  Z.abs (match o with Some s => s | None => 0 end) < 2 ^ 62 ->
  exists tm, total_minutes_of (coalesce_int o) = Ok tm /\
    (tm = PInt 0 \/ exists f, tm = PFloat f /\ normal false (-58) 8 f).
Proof.
  pose proof (eq_refl : 2 ^ 62 = 4611686018427387904) as P62.
  pose proof (eq_refl : 2 ^ 64 = 18446744073709551616) as P64.
  intros Hb. destruct o as [s|]; cbn [coalesce_int]; unfold total_minutes_of, py_gt_0.
  - destruct (0 <? s) eqn:Hs.
    + apply Z.ltb_lt in Hs.
      assert (Hof : float_of_int s = Ok (of_Z s)).
      { eapply float_of_int_ok. apply (of_Z_zero_or_normal s 64); lia. }
      rewrite (py_truediv_int_float s (of_Z s) (literal 600 1) Hof eq_refl).
      eexists. split; [reflexivity|]. right. eexists. split; [reflexivity|].
      pose proof (minutes_of_normal s ltac:(lia) ltac:(lia)) as Hn.
      replace (s <? 0) with false in Hn by (symmetry; apply Z.ltb_ge; lia).
      exact Hn.
    + eexists. split; [reflexivity|]. left. reflexivity.
  - eexists. split; [reflexivity|]. left. reflexivity.
Qed.

Lemma cost_per_minute_of_sum u tm :
  sum_range u ->
  tm = PInt 0 \/ (exists f, tm = PFloat f /\ normal false (-58) 8 f) ->
  exists c, cost_per_minute_of u tm = Ok c /\
    (c = PInt 0 \/ exists g, c = PFloat g /\ zero_or_normal (-600) 400 g).
Proof.
  intros Hu [->|[f [-> Hf]]]; unfold cost_per_minute_of.
  - eexists. split; [reflexivity|]. left. reflexivity.
  - destruct (py_gt_0 (PFloat f)); [|eexists; split; [reflexivity|left; reflexivity]].
    assert (Hz : is_zero f = false).
    { destruct Hf as [m [e [-> _]]]. reflexivity. }
    assert (Hdiv : forall a, zero_or_normal (-456) 306 a ->
              zero_or_normal (-600) 400 (div a f)).
    { intros a Ha. eapply zero_or_normal_weaken.
      - apply (div_zero_or_normal _ _ _ _ _ _ _ Ha Hf); lia.
      - lia.
      - lia. }
    destruct Hu as [->|[a [-> Ha]]].
    + exists (PFloat (div pzero f)). split.
      * unfold py_truediv. cbn [to_float]. change (float_of_int 0) with (Ok pzero).
        cbn [pybind]. rewrite Hz. reflexivity.
      * right. eexists. split; [reflexivity|]. apply Hdiv. left. exists false. reflexivity.
    + exists (PFloat (div a f)). split.
      * unfold py_truediv. cbn [to_float pybind]. rewrite Hz. reflexivity.
      * right. eexists. split; [reflexivity|]. apply Hdiv. exact Ha.
Qed.

Lemma cost_per_minute_inr c :
  c = PInt 0 \/ (exists g, c = PFloat g /\ zero_or_normal (-600) 400 g) ->
  exists i r, py_mul c USD_TO_INR = Ok i /\ py_round i 2 = Ok r.
Proof.
  intros Hc.
  assert (Hp : exists p, to_float c = Ok p /\ zero_or_normal (-600) 400 p).
  { destruct Hc as [->|[g [-> Hg]]].
    - exists pzero. split; [reflexivity|]. left. exists false. reflexivity.
    - exists g. split; [reflexivity|exact Hg]. }
  destruct Hp as [p [Hp Hr]].
  pose proof (mul_zero_or_normal _ _ _ _ _ _ Hr (nonneg_zero_or_normal _ _ _ USD_TO_INR_range)
                ltac:(lia) ltac:(lia)) as Hm.
  destruct (float_round_spec _ _ _ 2 Hm ltac:(lia) ltac:(lia)) as [r [Hround _]].
  exists (PFloat (mul p (literal 830 1))), (PFloat r). split.
  - apply py_mul_num_float. exact Hp.
  - apply py_round_float. exact Hround.
Qed.

Lemma ordinary_cells (f : call_row -> option float) rows :
  (forall r, ordinary_row r -> ordinary (f r)) ->
  (length rows <= 3)%nat -> Forall ordinary_row rows ->
  sum_range (coalesce_real (sum_real (map f rows))).
Proof.
  intros Hf Hlen Hrows. apply sum_real_ordinary.
  - rewrite length_map. exact Hlen.
  - apply Forall_map. eapply Forall_impl; [exact Hrows|]. exact Hf.
Qed.

Lemma window_rows_ordinary w now table :
  (length table <= 3)%nat -> Forall ordinary_row table ->
  (length (window_rows w now table) <= 3)%nat /\
  Forall ordinary_row (window_rows w now table).
Proof.
  intros Hlen Hrows. unfold window_rows. split.
  - etransitivity; [apply length_filter|exact Hlen].
  - induction Hrows as [|r l Hr Hl IH]; [constructor|].
    rewrite filter_cons. destruct (decide _).
    + constructor; [exact Hr|]. apply IH. simpl in Hlen. lia.
    + apply IH. simpl in Hlen. lia.
Qed.

Lemma window_query_of_rows w now table :
  (length (window_rows w now table) <= 3)%nat ->
  Forall ordinary_row (window_rows w now table) ->
  exists c, window_query w now table = Ok c.
Proof.
  intros Hlen Hrows. unfold window_query.
  destruct (py_round_sum _ 4 (ordinary_cells row_total_cost_usd _
              ltac:(intros r Hr; apply Hr) Hlen Hrows) ltac:(lia)) as [u ->].
  destruct (py_round_sum _ 2 (ordinary_cells row_total_cost_inr _
              ltac:(intros r Hr; apply Hr) Hlen Hrows) ltac:(lia)) as [i ->].
  eexists. reflexivity.
Qed.

Lemma get_costs_returns now table :
  (length table <= 3)%nat -> Forall ordinary_row table ->
  exists r, get_costs now table = Ok r.
Proof.
  intros Hlen Hrows. unfold get_costs.
  destruct (sum_int_small (map row_duration table)) as [o [-> Ho]].
  { rewrite length_map. exact Hlen. }
  { apply Forall_map. eapply Forall_impl; [exact Hrows|]. intros r Hr. apply Hr. }
  cbn [pybind].
  destruct (total_minutes_of_small o Ho) as [tm [-> Htm]]. cbn [pybind].
  pose proof (ordinary_cells row_total_cost_usd _
                ltac:(intros r Hr; apply Hr) Hlen Hrows) as Husd.
  destruct (cost_per_minute_of_sum _ tm Husd Htm) as [c [-> Hc]]. cbn [pybind].
  destruct (py_round_sum _ 4 (ordinary_cells row_cost_livekit _
              ltac:(intros r Hr; apply Hr) Hlen Hrows) ltac:(lia)) as [? ->].
  destruct (py_round_sum _ 4 (ordinary_cells row_cost_stt _
              ltac:(intros r Hr; apply Hr) Hlen Hrows) ltac:(lia)) as [? ->].
  destruct (py_round_sum _ 4 (ordinary_cells row_cost_tts _
              ltac:(intros r Hr; apply Hr) Hlen Hrows) ltac:(lia)) as [? ->].
  destruct (py_round_sum _ 4 (ordinary_cells row_cost_llm _
              ltac:(intros r Hr; apply Hr) Hlen Hrows) ltac:(lia)) as [? ->].
  destruct (py_round_sum _ 4 Husd ltac:(lia)) as [? ->].
  destruct (py_round_sum _ 2 (ordinary_cells row_total_cost_inr _
              ltac:(intros r Hr; apply Hr) Hlen Hrows) ltac:(lia)) as [? ->].
  cbn [pybind].
  assert (Hmin : exists r, py_round tm 2 = Ok r).
  { destruct Htm as [->|[f [-> Hf]]].
    - eexists. reflexivity.
    - destruct (float_round_spec (-58) 8 f 2) as [r [Hr _]]; [|lia|lia|].
      + right. exists false. exact Hf.
      + exists (PFloat r). apply py_round_float. exact Hr. }
  destruct Hmin as [? ->]. cbn [pybind].
  assert (Hcpm : exists r, py_round c 4 = Ok r).
  { destruct Hc as [->|[g [-> Hg]]].
    - eexists. reflexivity.
    - destruct (float_round_spec _ _ g 4 Hg ltac:(lia) ltac:(lia)) as [r [Hr _]].
      exists (PFloat r). apply py_round_float. exact Hr. }
  destruct Hcpm as [? ->]. cbn [pybind].
  destruct (cost_per_minute_inr c Hc) as [i [? [Hi Hr]]].
  rewrite Hi. cbn [pybind]. rewrite Hr. cbn [pybind].
  destruct (window_rows_ordinary today now table Hlen Hrows) as [L1 F1].
  destruct (window_query_of_rows today now table L1 F1) as [? ->].
  destruct (window_rows_ordinary week now table Hlen Hrows) as [L2 F2].
  destruct (window_query_of_rows week now table L2 F2) as [? ->].
  destruct (window_rows_ordinary month now table Hlen Hrows) as [L3 F3].
  destruct (window_query_of_rows month now table L3 F3) as [? ->].
  cbn [pybind]. eexists. reflexivity.
Qed.

Lemma window_total_returns w now table :
  (length (window_rows w now table) <= 3)%nat ->
  Forall ordinary_row (window_rows w now table) ->
  exists t, window_total w now table = Ok t.
Proof.
  intros Hlen Hrows.
  assert (Hq : w <> all_time -> exists t,
            (do c <- window_query w now table; Ok (usd c)) = Ok t).
  { intros _. destruct (window_query_of_rows w now table Hlen Hrows) as [c ->].
    eexists. reflexivity. }
  destruct w; try (apply Hq; discriminate).
  rewrite window_rows_all_time in Hlen, Hrows. cbn [window_total].
  destruct (get_costs_returns now table Hlen Hrows) as [r ->].
  eexists. reflexivity.
Qed.

Lemma total_stored_cell k r :
  0 <= k -> total_stored k r -> row_total_cost_usd r = Some (of_units false k 4).
Proof.
  intros Hk. unfold total_stored. rewrite dec_nonneg by exact Hk.
  destruct (row_total_cost_usd r) as [f|]; [|discriminate].
  cbn. intros H. injection H as ->. reflexivity.
Qed.
(** ** Three calls in a window *)

Ltac ordinary_by_evaluation :=
  repeat split;
  try (eexists; split; [reflexivity|];
       first [ left; eexists; reflexivity
             | right; eexists; eexists; eexists; split; [reflexivity|];
               split; [reflexivity|]; split; lia ]);
  try (vm_compute; reflexivity).

(** C9, as stated, does not hold for every stored total: a call whose
    total is at least 2^52 USD (here a duration of 7 * 10^18 seconds,
    stored total 5005000000000000.0) absorbs the totals of two calls of
    500 seconds (0.3603 each).  The window holds exactly the three
    records with these totals, and the aggregated total of the day and
    of all time is the first total alone, not the amount of the exact
    sum (5005000000000000.7206, whose double is 5005000000000001.0). *)
Lemma C9_large_totals_drift :
  let table := three_calls 7000000000000000000 500 500 in
  let k1 := 50050000000000000000 in
  let k2 := 3603 in
  let k3 := 3603 in
  window_rows today 3000 table = table /\
  map (fun r => PFloat <$> row_total_cost_usd r) table
    = [Some (dec k1 4); Some (dec k2 4); Some (dec k3 4)] /\
  window_total today 3000 table = Ok (dec k1 4) /\
  window_total all_time 3000 table = Ok (dec k1 4) /\
  dec k1 4 <> dec (k1 + k2 + k3) 4.
Proof.
  intros table k1 k2 k3.
  split; [vm_compute; reflexivity|].
  split; [vm_compute; reflexivity|].
  split; [vm_compute; reflexivity|].
  split; [vm_compute; reflexivity|].
  vm_compute. discriminate.
Qed.

(** C9 (amended): when a window selects exactly three call records
    whose stored totals are the amounts of [k1], [k2] and [k3] units of
    0.0001 USD, each at most 10^13 units (10^9 USD), the aggregated
    total of the window, if the report is produced, is the amount of
    exactly [k1 + k2 + k3] units: adding the doubles and rounding to 4
    decimals loses nothing.  The report is produced when the other cells
    of the three records are of ordinary size.  This holds for the three
    dated windows and for the all-time totals. *)
Theorem C9_window_total_of_three_calls w now table r1 r2 r3 k1 k2 k3 :
  window_rows w now table = [r1; r2; r3] ->
  total_stored k1 r1 -> total_stored k2 r2 -> total_stored k3 r3 ->
  0 <= k1 <= 10 ^ 13 -> 0 <= k2 <= 10 ^ 13 -> 0 <= k3 <= 10 ^ 13 ->
  (forall t, window_total w now table = Ok t -> t = dec (k1 + k2 + k3) 4) /\
  (ordinary_row r1 -> ordinary_row r2 -> ordinary_row r3 ->
   window_total w now table = Ok (dec (k1 + k2 + k3) 4)).
Proof.
  intros Hrows S1 S2 S3 H1 H2 H3.
  pose proof (total_stored_cell k1 r1 ltac:(lia) S1) as E1.
  pose proof (total_stored_cell k2 r2 ltac:(lia) S2) as E2.
  pose proof (total_stored_cell k3 r3 ltac:(lia) S3) as E3.
  assert (Hvalue : forall t, window_total w now table = Ok t -> t = dec (k1 + k2 + k3) 4).
  { intros t. apply (window_total_of_three w now table r1 r2 r3); assumption. }
  split; [exact Hvalue|].
  intros O1 O2 O3.
  destruct (window_total_returns w now table) as [t Ht].
  - rewrite Hrows. simpl. lia.
  - rewrite Hrows. repeat (first [assumption | constructor]).
  - rewrite Ht. f_equal. apply Hvalue. exact Ht.
Qed.

Lemma C9_window_total_of_three_calls_witness :
  window_total today 3000 (three_calls 120 120 120) = Ok (dec 2658 4) /\
  window_total all_time 3000 (three_calls 120 120 120) = Ok (dec 2658 4).
Proof.
  split.
  - eapply (proj2 (C9_window_total_of_three_calls today 3000 (three_calls 120 120 120)
                     _ _ _ 886 886 886 ltac:(vm_compute; reflexivity)
                     ltac:(vm_compute; reflexivity) ltac:(vm_compute; reflexivity)
                     ltac:(vm_compute; reflexivity) ltac:(lia) ltac:(lia) ltac:(lia)));
      ordinary_by_evaluation.
  - eapply (proj2 (C9_window_total_of_three_calls all_time 3000 (three_calls 120 120 120)
                     _ _ _ 886 886 886 ltac:(vm_compute; reflexivity)
                     ltac:(vm_compute; reflexivity) ltac:(vm_compute; reflexivity)
                     ltac:(vm_compute; reflexivity) ltac:(lia) ltac:(lia) ltac:(lia)));
      ordinary_by_evaluation.
Defined.

(** ** The order of listed rows *)

Lemma insert_ordered_Permutation {A} (R : relation A) `{!RelDecision R} row rows :
  insert_ordered R row rows ≡ₚ row :: rows.
Proof.
  induction rows as [|next rest IH]; [reflexivity|].
  cbn [insert_ordered]. destruct (decide (R row next)); [reflexivity|].
  rewrite IH. apply Permutation_swap.
Qed.

Lemma order_by_Permutation {A} (R : relation A) `{!RelDecision R} rows :
  order_by R rows ≡ₚ rows.
Proof.
  induction rows as [|row rows IH]; [reflexivity|].
  cbn [order_by fold_right]. fold (order_by R rows).
  rewrite insert_ordered_Permutation, IH. reflexivity.
Qed.

Lemma insert_ordered_sorted {A} (R : relation A) `{!RelDecision R}
    `{!Transitive R} `{!Total R} row rows :
  Sorted.StronglySorted R rows -> Sorted.StronglySorted R (insert_ordered R row rows).
Proof.
  induction 1 as [|next rest Hrest IH Hnext]; cbn [insert_ordered].
  - repeat constructor.
  - destruct (decide (R row next)) as [Hle|Hnle].
    + constructor; [constructor; assumption|].
      constructor; [exact Hle|].
      eapply Forall_impl; [exact Hnext|]. intros later Hlater. etransitivity; eassumption.
    + assert (Hge : R next row) by (destruct (total R row next); [contradiction|assumption]).
      constructor; [exact IH|].
      rewrite insert_ordered_Permutation. constructor; assumption.
Qed.

Lemma StronglySorted_order_by {A} (R : relation A) `{!RelDecision R}
    `{!Transitive R} `{!Total R} rows :
  Sorted.StronglySorted R (order_by R rows).
Proof.
  induction rows as [|row rows IH]; [constructor|].
  cbn [order_by fold_right]. exact (insert_ordered_sorted R row _ IH).
Qed.

(** Rows that may stand before each other, as rows of the same key
    may, keep their order. *)
Lemma order_by_stable {A} (R : relation A) `{!RelDecision R}
    (P : A -> Prop) `{!forall a, Decision (P a)} rows :
  (forall a b, P a -> P b -> R a b) ->
  filter P (order_by R rows) = filter P rows.
Proof.
  intros Htie.
  assert (Hinsert : forall row l,
            filter P (insert_ordered R row l) = filter P (row :: l)).
  { intros row l. induction l as [|next rest IH]; [reflexivity|].
    cbn [insert_ordered]. destruct (decide (R row next)) as [Hle|Hnle]; [reflexivity|].
    rewrite filter_cons, IH, !filter_cons.
    destruct (decide (P next)) as [Hn|Hn]; [|reflexivity].
    destruct (decide (P row)) as [Hr|Hr]; [|reflexivity].
    contradiction Hnle. apply Htie; assumption. }
  induction rows as [|row rows IH]; [reflexivity|].
  cbn [order_by fold_right]. fold (order_by R rows).
  rewrite Hinsert, !filter_cons, IH. reflexivity.
Qed.

(** * Further properties of the handlers *)

(** ** What an update of a call touches *)

Lemma map_unless_id {A} (f : A -> A) (p : A -> bool) (l : list A) :
  (forall a, p a = true -> f a = a) -> map (fun a => if p a then f a else a) l = l.
Proof.
  intros H. induction l as [|a l IH]; simpl; [reflexivity|].
  rewrite IH. destruct (p a) eqn:E; [rewrite (H a E)|]; reflexivity.
Qed.

Lemma map_unless_matching {A} (f : A -> A) (p : A -> bool) (l : list A) :
  Forall (fun a => p a = false) l -> map (fun a => if p a then f a else a) l = l.
Proof.
  induction 1 as [|a l Ha Hl IH]; simpl; [reflexivity|].
  rewrite IH, Ha. reflexivity.
Qed.

Lemma bind_assignment_dispatched now a f :
  bind_assignment now a = Ok f -> forall r, dispatched_as (f r) = dispatched_as r.
Proof.
  intros Hf r. destruct a; simpl in Hf;
    try (injection Hf as <-; reflexivity);
    match type of Hf with
    | pybind ?m _ = _ => destruct m; simpl in Hf; [injection Hf as <-; reflexivity|discriminate]
    end.
Qed.

Lemma bind_all_dispatched now l :
  forall f, bind_all now l = Ok f -> forall r, dispatched_as (f r) = dispatched_as r.
Proof.
  induction l as [|a l IH]; intros f Hf r; simpl in Hf.
  - injection Hf as <-. reflexivity.
  - destruct (bind_assignment now a) as [fa|] eqn:Ea; simpl in Hf; [|discriminate].
    destruct (bind_all now l) as [g|] eqn:Eg; simpl in Hf; [|discriminate].
    injection Hf as <-.
    rewrite (IH g eq_refl). eapply bind_assignment_dispatched; eassumption.
Qed.

(** Whatever the request, the table after it is the table before it
    with one function applied to the rows of the call; the function is
    the bound statement, or the identity when nothing was executed. *)
Lemma update_call_rows call_id data now calls :
  exists f,
    calls_after (update_call call_id data now calls)
      = map (fun r => if row_id r =? call_id then f r else r) calls /\
    (forall r, dispatched_as (f r) = dispatched_as r) /\
    (f = (fun r => r) \/
     exists updates, snd (collect_updates data) = Ok updates /\
                     bind_all now updates = Ok f /\
                     reply (update_call call_id data now calls) = Success).
Proof.
  assert (Hid : exists f : call_row -> call_row,
            calls = map (fun r => if row_id r =? call_id then f r else r) calls /\
            (forall r, dispatched_as (f r) = dispatched_as r) /\
            f = (fun r => r)).
  { exists (fun r => r). split; [|split; reflexivity].
    symmetry. apply (map_unless_id (fun r => r) (fun r => row_id r =? call_id)). reflexivity. }
  destruct Hid as (f0 & H0 & H1 & H2).
  unfold update_call.
  destruct (collect_updates data) as [calculated [updates|e]] eqn:Ec; cbn [snd];
    [|exists f0; cbn [calls_after]; auto].
  destruct updates as [|a updates]; [exists f0; cbn [calls_after]; auto|].
  unfold execute_update.
  destruct (bind_all now (a :: updates)) as [f|] eqn:Ef; cbn [pybind];
    [|exists f0; cbn [calls_after]; auto].
  unfold bind_int. destruct (fits_int64 call_id); cbn [pybind];
    [|exists f0; cbn [calls_after]; auto].
  exists f. cbn [calls_after reply]. split; [reflexivity|]. split.
  - eapply bind_all_dispatched; eassumption.
  - right. exists (a :: updates). auto.
Qed.

(** X1: no update creates, removes or reorders calls, or changes the
    id, the phone number, the room name, the dispatch id or the creation
    time of a call; and the rows of the other calls are left as they
    are.  This holds for every request, answered with success or not. *)
Theorem update_call_keeps_dispatch_columns call_id data now calls :
  Forall2 (fun r r' => dispatched_as r' = dispatched_as r /\
                       (row_id r <> call_id -> r' = r))
    calls (calls_after (update_call call_id data now calls)).
Proof.
  destruct (update_call_rows call_id data now calls) as (f & -> & Hf & _).
  apply Forall2_map_self. intros r.
  destruct (row_id r =? call_id) eqn:E.
  - split; [apply Hf|]. apply Z.eqb_eq in E. congruence.
  - split; reflexivity.
Qed.

(** ** Updates without a duration *)

Lemma collect_updates_without_duration data :
  data_duration data = None ->
  collect_updates data =
    ([], Ok (if is_terminal (data_status data)
             then status_and_notes data ++ [SetEndedAtCurrentTimestamp]
             else status_and_notes data)).
Proof. intros H. unfold collect_updates. rewrite H. reflexivity. Qed.

Lemma collected_plain data :
  Forall plain (if is_terminal (data_status data)
                then status_and_notes data ++ [SetEndedAtCurrentTimestamp]
                else status_and_notes data).
Proof.
  destruct (is_terminal (data_status data)).
  - apply Forall_app. split; [apply status_and_notes_plain|repeat constructor].
  - apply status_and_notes_plain.
Qed.

Lemma update_call_without_duration call_id data now calls :
  data_duration data = None ->
  let o := update_call call_id data now calls in
  (forall event, In event (journal o) ->
     event = Committed \/ exists updates, event = Executed updates call_id /\ Forall plain updates) /\
  map accounting (calls_after o) = map accounting calls /\
  (fits_int64 call_id = true -> reply o = Success).
Proof.
  intros Hdur o. subst o.
  pose proof (collect_updates_without_duration data Hdur) as Hc.
  pose proof (collected_plain data) as Hplain.
  set (updates := if is_terminal (data_status data)
                  then status_and_notes data ++ [SetEndedAtCurrentTimestamp]
                  else status_and_notes data) in *.
  destruct (bind_all_plain now updates Hplain) as (f & Ef & Hf).
  unfold update_call. rewrite Hc.
  clearbody updates. destruct updates as [|a rest].
  - cbn [journal calls_after reply]. split; [intros ? []|]. split; reflexivity.
  - unfold execute_update. rewrite Ef. cbn [pybind]. unfold bind_int.
    destruct (fits_int64 call_id); cbn [pybind journal calls_after reply app].
    + split.
      * intros event [<-|[<-|[]]]; [right; eexists; split; [reflexivity|exact Hplain]|left; reflexivity].
      * split; [|reflexivity]. rewrite map_map. apply map_ext. intros r.
        destruct (row_id r =? call_id); [apply Hf|reflexivity].
    + split; [intros ? []|]. split; [reflexivity|discriminate].
Qed.

(** X2: an update whose body has no duration never calls the cost
    calculator and never changes the duration or one of the six cost
    columns of any call, whatever it is answered with: the statement
    it executes, if any, only sets the status, the notes and the end
    timestamp.  A body with none of the three keys is answered with
    success for every call id, and nothing is executed. *)
Theorem update_call_without_duration_keeps_costs call_id data now calls :
  data_duration data = None ->
  let o := update_call call_id data now calls in
  (forall event, In event (journal o) ->
     event = Committed \/
     exists updates, event = Executed updates call_id /\ Forall plain updates) /\
  map accounting (calls_after o) = map accounting calls /\
  (data_status data = None -> data_notes data = None ->
   reply o = Success /\ journal o = [] /\ calls_after o = calls).
Proof.
  intros Hdur o.
  destruct (update_call_without_duration call_id data now calls Hdur) as (Hj & Ha & Hr).
  split; [exact Hj|]. split; [exact Ha|].
  intros Hs Hn. subst o. unfold update_call, collect_updates.
  rewrite Hdur, Hs, Hn. cbn. repeat split.
Qed.

Lemma update_call_without_duration_keeps_costs_witness :
  let row := inserted_call 1 "+15550100" "call-15550100-1234" "AD_1" 1000 in
  let costed := calls_after (update_call 1 (completed_call 120) 2000 [row]) in
  let noted := {| data_status := Some "failed"%string;
                  data_notes := Some "line dropped"%string; data_duration := None |} in
  map accounting (calls_after (update_call 1 noted 3000 costed)) = map accounting costed.
Proof.
  intros row costed noted.
  exact (proj1 (proj2 (update_call_without_duration_keeps_costs 1 noted 3000 costed eq_refl))).
Defined.

(** ** Calls that do not exist *)

(** X3: an update addressed to a call id that no row has changes
    nothing, whatever its body and whatever it is answered with: no row
    is created for the id, and no other row is written.  An answer of
    success therefore does not tell that a call was updated. *)
Theorem update_call_unknown_call call_id data now calls :
  Forall (fun r => row_id r <> call_id) calls ->
  calls_after (update_call call_id data now calls) = calls.
Proof.
  intros Hnone.
  destruct (update_call_rows call_id data now calls) as (f & -> & _ & _).
  apply (map_unless_matching f (fun r => row_id r =? call_id)).
  eapply Forall_impl; [exact Hnone|]. intros r Hr. apply Z.eqb_neq. exact Hr.
Qed.

Lemma update_call_unknown_call_witness :
  let row := inserted_call 1 "+15550100" "call-15550100-1234" "AD_1" 1000 in
  calls_after (update_call 7 (completed_call 120) 2000 [row]) = [row].
Proof.
  intros row.
  apply (update_call_unknown_call 7 (completed_call 120) 2000 [row]).
  repeat constructor. vm_compute. discriminate.
Defined.

(** ** Status and notes *)

Lemma collect_updates_split data calculated updates :
  collect_updates data = (calculated, Ok updates) ->
  exists rest, updates = status_and_notes data ++ rest /\ Forall (fun a => ~ labels a) rest.
Proof.
  unfold collect_updates, status_and_notes. intros H.
  destruct (is_terminal (data_status data)).
  - destruct (data_duration data) as [d|].
    + destruct (calculate_call_cost d) as [c|]; cbn [pybind] in H; [|discriminate].
      injection H as _ <-. unfold cost_assignments.
      destruct (data_status data), (data_notes data); cbn [app];
        eexists; (split; [reflexivity|]); repeat constructor; intros [].
    + injection H as _ <-.
      destruct (data_status data), (data_notes data); cbn [app];
        eexists; (split; [reflexivity|]); repeat constructor; intros [].
  - destruct (data_duration data) as [d|].
    + destruct (calculate_call_cost d) as [c|]; cbn [pybind] in H; [|discriminate].
      injection H as _ <-. unfold cost_assignments.
      destruct (data_status data), (data_notes data); cbn [app];
        eexists; (split; [reflexivity|]); repeat constructor; intros [].
    + injection H as _ <-. exists [].
      destruct (data_status data), (data_notes data); cbn [app];
        (split; [reflexivity|]); constructor.
Qed.

Lemma bind_all_app_inv now l1 l2 f :
  bind_all now (l1 ++ l2) = Ok f ->
  exists f1 f2, bind_all now l1 = Ok f1 /\ bind_all now l2 = Ok f2 /\
                forall r, f r = f2 (f1 r).
Proof.
  revert f. induction l1 as [|a l1 IH]; intros f Hf; simpl in Hf.
  - exists (fun r => r), f. repeat split; auto.
  - destruct (bind_assignment now a) as [fa|] eqn:Ea; simpl in Hf; [|discriminate].
    destruct (bind_all now (l1 ++ l2)) as [g|] eqn:Eg; simpl in Hf; [|discriminate].
    injection Hf as <-.
    destruct (IH g eq_refl) as (f1 & f2 & E1 & E2 & Hg).
    exists (fun r => f1 (fa r)), f2. split.
    + simpl. rewrite Ea, E1. reflexivity.
    + split; [exact E2|]. intros r. apply Hg.
Qed.

Lemma bind_all_keeps_labels now l :
  Forall (fun a => ~ labels a) l ->
  forall f, bind_all now l = Ok f ->
  forall r, row_status (f r) = row_status r /\ row_notes (f r) = row_notes r.
Proof.
  induction 1 as [|a l Ha Hl IH]; intros f Hf r; simpl in Hf.
  - injection Hf as <-. split; reflexivity.
  - destruct (bind_assignment now a) as [fa|] eqn:Ea; simpl in Hf; [|discriminate].
    destruct (bind_all now l) as [g|] eqn:Eg; simpl in Hf; [|discriminate].
    injection Hf as <-.
    destruct (IH g eq_refl (fa r)) as [-> ->].
    destruct a; simpl in Ea; try (exfalso; apply Ha; exact I);
      try (injection Ea as <-; split; reflexivity);
      match type of Ea with
      | pybind ?m _ = _ =>
          destruct m; simpl in Ea; [injection Ea as <-; split; reflexivity|discriminate]
      end.
Qed.

Lemma bind_all_status_and_notes now data f :
  bind_all now (status_and_notes data) = Ok f ->
  forall r, row_status (f r) = written (data_status data) (row_status r) /\
            row_notes (f r) = written (data_notes data) (row_notes r).
Proof.
  unfold status_and_notes.
  destruct (data_status data), (data_notes data); cbn; intros H r;
    injection H as <-; split; reflexivity.
Qed.

(** X4: a successful update stores the status and the notes of its
    body on the rows of the call, and leaves the status (the notes)
    as it was when the body has no status (no notes). *)
Theorem update_call_stores_status_and_notes call_id data now calls :
  let o := update_call call_id data now calls in
  reply o = Success ->
  Forall2 (fun r r' =>
             if row_id r =? call_id
             then row_status r' = written (data_status data) (row_status r) /\
                  row_notes r' = written (data_notes data) (row_notes r)
             else r' = r)
    calls (calls_after o).
Proof.
  intros o Hok. subst o.
  destruct (collect_updates data) as [calculated collected] eqn:Ec.
  destruct (update_call_success call_id data now calls Hok)
    as [[-> Hnil]|(updates & f & Hupd & Hf & ->)];
    rewrite Ec in *; cbn [snd] in *; subst collected.
  - destruct (collect_updates_split data calculated [] Ec) as (rest & Hsplit & _).
    symmetry in Hsplit. apply app_eq_nil in Hsplit as [Hsn _].
    unfold status_and_notes in Hsn.
    destruct (data_status data), (data_notes data); try discriminate.
    clear. induction calls as [|r calls IH]; constructor; [|exact IH].
    destruct (row_id r =? call_id); [split|]; reflexivity.
  - destruct (collect_updates_split data calculated updates Ec) as (rest & -> & Hrest).
    destruct (bind_all_app_inv now _ _ f Hf) as (f1 & f2 & E1 & E2 & Hcomp).
    apply Forall2_map_self. intros r.
    destruct (row_id r =? call_id); [|reflexivity].
    rewrite Hcomp.
    destruct (bind_all_keeps_labels now rest Hrest f2 E2 (f1 r)) as [-> ->].
    apply (bind_all_status_and_notes now data f1 E1).
Qed.

Lemma update_call_stores_status_and_notes_witness :
  let row := inserted_call 1 "+15550100" "call-15550100-1234" "AD_1" 1000 in
  let data := {| data_status := Some "no_answer"%string;
                 data_notes := None; data_duration := Some 0 |} in
  Forall2 (fun r r' =>
             if row_id r =? 1
             then row_status r' = Some "no_answer"%string /\ row_notes r' = row_notes r
             else r' = r)
    [row] (calls_after (update_call 1 data 2000 [row])).
Proof.
  intros row data.
  exact (update_call_stores_status_and_notes 1 data 2000 [row] eq_refl).
Defined.

(** ** Successive updates *)

Lemma update_call_with_duration_rows call_id data now d :
  data_duration data = Some d ->
  fits_int64 d = true -> fits_int64 call_id = true ->
  exists g cells,
    (forall calls,
       calls_after (update_call call_id data now calls)
         = map (fun r => if row_id r =? call_id then g r else r) calls) /\
    (forall r, accounting (g r) = (row_id r, d, cells)).
Proof.
  intros Hdur Hd Hid.
  destruct (calculate_call_cost_priced _ _ _ _ _ _ _ _ d PRICING_table USD_TO_INR_range Hd)
    as (r1 & r2 & r3 & r4 & r5 & r6 & r7 & _ & _ & _ & _ & _ & _ & _ & Hfin & Ec).
  change (calculate_call_cost_with PRICING (PFloat (literal 830 1)) d)
    with (calculate_call_cost d) in Ec.
  set (c := {| cost_livekit := PFloat r1; cost_stt := PFloat r2; cost_tts := PFloat r3;
               cost_llm := PFloat r4; total_cost_usd := PFloat r5;
               total_cost_inr := PFloat r6; duration_minutes := PFloat r7 |}) in *.
  pose proof (collect_updates_with_duration data d c Hdur Ec) as Hcollect.
  destruct (bind_all_plain now _ (status_and_notes_plain data)) as (fpre & Epre & Hpre).
  destruct (bind_all_costs now d r1 r2 r3 r4 r5 r6 r7 Hd Hfin) as (g & Eg & Hg).
  fold c in Eg.
  pose proof (bind_all_app now _ _ _ _ Epre Eg) as Emid.
  destruct (bind_all_plain now [SetEndedAtCurrentTimestamp] ltac:(repeat constructor))
    as (fend & Eend & Hend).
  pose proof (bind_all_app now _ _ _ _ Emid Eend) as Eall.
  destruct (is_terminal (data_status data)).
  - eexists. exists [Some r1; Some r2; Some r3; Some r4; Some r5; Some r6]. split.
    + intros calls.
      rewrite (update_call_executes call_id data now calls _ _ _ Hcollect
                 (app_cons_not_nil _ _ _) Eall Hid). reflexivity.
    + intros r. cbv beta. rewrite Hend, Hg, (accounting_id _ _ (Hpre r)). reflexivity.
  - eexists. exists [Some r1; Some r2; Some r3; Some r4; Some r5; Some r6]. split.
    + intros calls.
      rewrite (update_call_executes call_id data now calls _ _ _ Hcollect
                 (app_cons_not_nil _ _ _) Emid Hid). reflexivity.
    + intros r. cbv beta. rewrite Hg, (accounting_id _ _ (Hpre r)). reflexivity.
Qed.

(** X5: costs are recomputed, not accumulated.  After an update that
    carries a 64-bit duration, the duration and the six cost columns of
    every call are what that update alone would have left, whatever
    update of the same call came before it. *)
Theorem update_call_last_duration_wins call_id earlier data now_earlier now calls d :
  data_duration data = Some d ->
  fits_int64 d = true -> fits_int64 call_id = true ->
  map accounting
    (calls_after (update_call call_id data now
                    (calls_after (update_call call_id earlier now_earlier calls))))
  = map accounting (calls_after (update_call call_id data now calls)).
Proof.
  intros Hdur Hd Hid.
  destruct (update_call_with_duration_rows call_id data now d Hdur Hd Hid)
    as (g & cells & Hrows & Hg).
  destruct (update_call_rows call_id earlier now_earlier calls) as (f & -> & Hf & _).
  rewrite !Hrows, !map_map. apply map_ext. intros r.
  destruct (row_id r =? call_id) eqn:E; [|rewrite E; reflexivity].
  assert (Hrow : row_id (f r) = row_id r).
  { specialize (Hf r). unfold dispatched_as in Hf. congruence. }
  rewrite Hrow, E, !Hg, Hrow. reflexivity.
Qed.

Lemma update_call_last_duration_wins_witness :
  let row := inserted_call 1 "+15550100" "call-15550100-1234" "AD_1" 1000 in
  map accounting
    (calls_after (update_call 1 (completed_call 60) 3000
                    (calls_after (update_call 1 (completed_call 4000) 2000 [row]))))
  = map accounting (calls_after (update_call 1 (completed_call 60) 3000 [row])).
Proof.
  intros row.
  apply (update_call_last_duration_wins 1 (completed_call 4000) (completed_call 60)
           2000 3000 [row] 60); reflexivity.
Defined.

(** ** The sign of the costs *)

Lemma minutes_of_nonneg d :
  0 <= d -> fits_int64 d = true -> nonneg (-58) 8 (minutes_of d).
Proof.
  intros Hd Hfit. destruct (Z.eq_dec d 0) as [->|Hnz].
  - left. apply minutes_of_zero.
  - right. pose proof (minutes_of_normal d Hnz (int64_abs d Hfit)) as H.
    replace (d <? 0) with false in H by (symmetry; apply Z.ltb_ge; lia).
    exact H.
Qed.

Lemma raw_cost_nonneg p d :
  price_range p -> 0 <= d -> fits_int64 d = true -> nonneg (-206) 29 (raw_cost p d).
Proof.
  intros Hp Hd Hfit. unfold raw_cost.
  eapply nonneg_weaken.
  - apply (mul_nonneg _ _ _ _ _ _ Hp (minutes_of_nonneg d Hd Hfit)); lia.
  - lia.
  - lia.
Qed.

Lemma raw_total_nonneg c1 c2 c3 llm :
  nonneg (-206) 29 c1 -> nonneg (-206) 29 c2 -> nonneg (-206) 29 c3 ->
  nonneg (-252) 2 llm -> nonneg (-362) 35 (raw_total c1 c2 c3 llm).
Proof.
  intros H1 H2 H3 H4. unfold raw_total.
  pose proof (add_nonneg _ _ _ _ _ _ H1 H2 ltac:(lia) ltac:(lia) ltac:(lia) ltac:(lia)) as H12.
  pose proof (add_nonneg _ _ _ _ _ _ H12 H3 ltac:(lia) ltac:(lia) ltac:(lia) ltac:(lia)) as H123.
  pose proof (add_nonneg _ _ _ _ _ _ H123 H4 ltac:(lia) ltac:(lia) ltac:(lia) ltac:(lia)) as H.
  eapply nonneg_weaken; [exact H|lia|lia].
Qed.

Lemma float_round_nonneg lo hi x nd r :
  nonneg lo hi x -> hi <= 800 -> 0 <= nd <= 15 ->
  float_round x nd = Ok r -> is_nonnegative_num (PFloat r).
Proof.
  intros [->|Hx] Hhi Hnd Hr.
  - injection Hr as <-. exact I.
  - destruct (float_round_normal _ _ _ _ nd Hx Hhi Hnd) as (m & e & _ & Er & Hu).
    rewrite Er in Hr. injection Hr as <-.
    destruct (Z.eq_dec (round_units m e nd) 0) as [->|Hnz].
    + rewrite of_units_zero. exact I.
    + destruct (of_units_normal false (round_units m e nd) nd ltac:(lia) Hnd)
        as (m' & e' & -> & _). exact I.
Qed.

(** X6: with prices and a rate that are zero or positive, a call of
    zero or more seconds never gets a negative amount: the calculator
    returns, and each of its seven values is 0.0 or a positive
    double. *)
Theorem calculate_call_cost_nonnegative pricing p1 p2 p3 p_in p_out avg rate d :
  price_table pricing p1 p2 p3 p_in p_out avg -> rate_range rate ->
  0 <= d -> fits_int64 d = true ->
  exists c,
    calculate_call_cost_with pricing (PFloat rate) d = Ok c /\
    Forall is_nonnegative_num
      [ cost_livekit c; cost_stt c; cost_tts c; cost_llm c;
        total_cost_usd c; total_cost_inr c; duration_minutes c ].
Proof.
  intros Htable Hrate Hd Hfit.
  destruct (calculate_call_cost_priced pricing p1 p2 p3 p_in p_out avg rate d Htable Hrate Hfit)
    as (r1 & r2 & r3 & r4 & r5 & r6 & r7 & E1 & E2 & E3 & E4 & E5 & E6 & E7 & _ & Ec).
  destruct Htable as (_ & _ & _ & _ & _ & _ & R1 & R2 & R3 & Rin & Rout & Ravg).
  pose proof (raw_cost_nonneg p1 d R1 Hd Hfit) as N1.
  pose proof (raw_cost_nonneg p2 d R2 Hd Hfit) as N2.
  pose proof (raw_cost_nonneg p3 d R3 Hd Hfit) as N3.
  pose proof (raw_llm_nonneg avg p_in p_out Ravg Rin Rout) as N4.
  pose proof (raw_total_nonneg _ _ _ _ N1 N2 N3 N4) as N5.
  pose proof (mul_nonneg _ _ _ _ _ _ N5 Hrate ltac:(lia) ltac:(lia)) as N6.
  pose proof (minutes_of_nonneg d Hd Hfit) as N7.
  eexists. split; [exact Ec|]. cbn [cost_livekit cost_stt cost_tts cost_llm total_cost_usd
                                     total_cost_inr duration_minutes].
  repeat constructor.
  - exact (float_round_nonneg _ _ _ 6 _ N1 ltac:(lia) ltac:(lia) E1).
  - exact (float_round_nonneg _ _ _ 6 _ N2 ltac:(lia) ltac:(lia) E2).
  - exact (float_round_nonneg _ _ _ 6 _ N3 ltac:(lia) ltac:(lia) E3).
  - exact (float_round_nonneg _ _ _ 6 _ N4 ltac:(lia) ltac:(lia) E4).
  - exact (float_round_nonneg _ _ _ 4 _ N5 ltac:(lia) ltac:(lia) E5).
  - exact (float_round_nonneg _ _ _ 2 _ N6 ltac:(lia) ltac:(lia) E6).
  - exact (float_round_nonneg _ _ _ 2 _ N7 ltac:(lia) ltac:(lia) E7).
Qed.

Lemma calculate_call_cost_nonnegative_witness :
  exists c,
    calculate_call_cost 90 = Ok c /\
    Forall is_nonnegative_num
      [ cost_livekit c; cost_stt c; cost_tts c; cost_llm c;
        total_cost_usd c; total_cost_inr c; duration_minutes c ].
Proof.
  apply (calculate_call_cost_nonnegative PRICING _ _ _ _ _ _ (literal 830 1) 90
           PRICING_table USD_TO_INR_range); [lia|reflexivity].
Defined.

(** ** The counts and the duration of the cost report *)

Lemma filter_length_le {A} (p q : A -> bool) (l : list A) :
  (forall a, p a = true -> q a = true) ->
  (length (filter (fun a => Is_true (p a)) l) <= length (filter (fun a => Is_true (q a)) l))%nat.
Proof.
  intros Hpq. induction l as [|a l IH]; [reflexivity|].
  rewrite !filter_cons.
  destruct (decide (Is_true (p a))) as [Hp|Hp].
  - apply Is_true_true in Hp. pose proof (Hpq a Hp) as Hq.
    destruct (decide (Is_true (q a))) as [_|Hn]; [simpl; lia|].
    exfalso. apply Hn. rewrite Hq. exact I.
  - destruct (decide (Is_true (q a))); simpl; lia.
Qed.

Lemma window_rows_nested now table :
  (length (window_rows today now table) <= length (window_rows week now table))%nat /\
  (length (window_rows week now table) <= length (window_rows month now table))%nat /\
  (length (window_rows month now table) <= length table)%nat.
Proof.
  unfold window_rows. split; [|split].
  - apply (filter_length_le (in_window today now) (in_window week now)).
    intros r. cbn [in_window]. intros H. apply Z.eqb_eq in H. apply Z.leb_le. lia.
  - apply (filter_length_le (in_window week now) (in_window month now)).
    intros r. cbn [in_window]. intros H. apply Z.leb_le in H. apply Z.leb_le. lia.
  - apply length_filter.
Qed.

Lemma window_query_calls w now table c :
  window_query w now table = Ok c -> calls c = Z.of_nat (length (window_rows w now table)).
Proof.
  unfold window_query.
  destruct (py_round _ 4); cbn [pybind]; [|discriminate].
  destruct (py_round _ 2); cbn [pybind]; [|discriminate].
  intros H. injection H as <-. reflexivity.
Qed.

Lemma get_costs_windows now table r :
  get_costs now table = Ok r ->
  window_query today now table = Ok (costs_today r) /\
  window_query week now table = Ok (costs_week r) /\
  window_query month now table = Ok (costs_month r).
Proof.
  unfold get_costs.
  repeat match goal with
  | |- pybind ?m _ = _ -> _ => destruct m eqn:?; cbn [pybind]; [|discriminate]
  end.
  intros H. injection H as <-. cbn [costs_today costs_week costs_month]. auto.
Qed.

(** X7: in a cost report, the calls of today are counted among those
    of the week, those of the week among those of the month, and no
    count exceeds the number of rows of the table. *)
Theorem get_costs_counts_are_nested now table r :
  get_costs now table = Ok r ->
  0 <= calls (costs_today r) <= calls (costs_week r) /\
  calls (costs_week r) <= calls (costs_month r) /\
  calls (costs_month r) <= Z.of_nat (length table).
Proof.
  intros H. destruct (get_costs_windows now table r H) as (Ht & Hw & Hm).
  rewrite (window_query_calls _ _ _ _ Ht), (window_query_calls _ _ _ _ Hw),
    (window_query_calls _ _ _ _ Hm).
  destruct (window_rows_nested now table) as (H1 & H2 & H3). lia.
Qed.

Lemma get_costs_counts_are_nested_witness :
  exists r,
    get_costs 3000 (three_calls 120 120 120) = Ok r /\
    0 <= calls (costs_today r) <= calls (costs_week r) /\
    calls (costs_week r) <= calls (costs_month r) /\
    calls (costs_month r) <= 3.
Proof.
  destruct (get_costs 3000 (three_calls 120 120 120)) as [r|] eqn:E; [|vm_compute in E; discriminate].
  exists r. split; [reflexivity|].
  exact (get_costs_counts_are_nested 3000 (three_calls 120 120 120) r E).
Defined.

Lemma sum_int_from_overflow values : forall acc before after,
  values = before ++ after ->
  fits_int64 acc = true ->
  fits_int64 (acc + fold_right Z.add 0 before) = false ->
  sum_int_from acc values = Raise SqlError.
Proof.
  induction values as [|v values IH]; intros acc before after Hsplit Hacc Hover.
  - destruct before; [|discriminate]. simpl in Hover. rewrite Z.add_0_r in Hover. congruence.
  - destruct before as [|b before].
    + simpl in Hover. rewrite Z.add_0_r in Hover. congruence.
    + injection Hsplit as <- Hsplit. cbn [sum_int_from].
      destruct (fits_int64 (acc + v)) eqn:Hb; [|reflexivity].
      apply (IH (acc + v) before after Hsplit Hb).
      simpl in Hover. rewrite Z.add_assoc in Hover. exact Hover.
Qed.

(** X8: the cost report adds the durations as 64-bit integers.  When
    the durations of the first rows of the table add up to a number
    outside the 64-bit range, the report fails (it is answered with
    status 500), although each update that stored them succeeded. *)
Theorem get_costs_duration_overflow now before after :
  fits_int64 (fold_right Z.add 0 (map row_duration before)) = false ->
  get_costs now (before ++ after) = Raise SqlError.
Proof.
  intros Hover. unfold get_costs.
  assert (Hsum : sum_int (map row_duration (before ++ after)) = Raise SqlError).
  { unfold sum_int.
    rewrite (sum_int_from_overflow (map row_duration (before ++ after)) 0
               (map row_duration before) (map row_duration after)
               (map_app _ _ _) eq_refl Hover).
    destruct (map row_duration (before ++ after)) eqn:E; [|reflexivity].
    destruct before; [discriminate Hover|discriminate E]. }
  rewrite Hsum. reflexivity.
Qed.

Lemma get_costs_duration_overflow_witness :
  let table := three_calls 5000000000000000000 5000000000000000000 60 in
  map row_duration table = [5000000000000000000; 5000000000000000000; 60] /\
  get_costs 3000 table = Raise SqlError.
Proof.
  intros table. split; [vm_compute; reflexivity|].
  apply (get_costs_duration_overflow 3000 (take 2 table) (drop 2 table)).
  vm_compute. reflexivity.
Defined.

(** ** Analytics *)

Lemma group_count_lookup `{Countable K} (keys : list K) (k : K) :
  Analytics.group_count keys !! k =
    match length (filter (fun x => x = k) keys) with
    | O => None
    | n => Some (Z.of_nat n)
    end.
Proof.
  induction keys as [|x keys IH]; [reflexivity|].
  cbn [Analytics.group_count fold_right].
  fold (Analytics.group_count keys).
  rewrite filter_cons. destruct (decide (x = k)) as [->|Hne].
  - rewrite lookup_insert_eq, IH. cbn [length].
    destruct (length (filter (fun x => x = k) keys)); cbn [default id]; f_equal; lia.
  - rewrite lookup_insert_ne by exact Hne. exact IH.
Qed.

Lemma filter_map_length {A B} `{EqDecision B} (f : A -> B) (k : B) (l : list A) :
  length (filter (fun x => x = k) (map f l)) = length (filter (fun a => f a = k) l).
Proof.
  induction l as [|a l IH]; [reflexivity|].
  cbn [map]. rewrite !filter_cons.
  destruct (decide (f a = k)); cbn [length]; rewrite IH; reflexivity.
Qed.

Lemma total_count_perm {K} (l l' : list (K * Z)) :
  l ≡ₚ l' -> total_count l = total_count l'.
Proof.
  induction 1 as [|x l l' _ IH|x y l|l l' l'' _ IH1 _ IH2]; cbn [total_count fold_right] in *.
  - reflexivity.
  - fold (total_count l). fold (total_count l'). rewrite IH. reflexivity.
  - lia.
  - congruence.
Qed.

Lemma total_group_count `{Countable K} (keys : list K) :
  total_count (map_to_list (Analytics.group_count keys)) = Z.of_nat (length keys).
Proof.
  induction keys as [|k keys IH]; [reflexivity|].
  cbn [Analytics.group_count fold_right]. fold (Analytics.group_count keys).
  set (m := Analytics.group_count keys) in *.
  destruct (m !! k) as [n|] eqn:E; cbn [default].
  - rewrite <- (insert_delete_eq m).
    rewrite (total_count_perm _ _ (map_to_list_insert (delete k m) k (n + 1)
                                     (lookup_delete_eq m k))).
    rewrite <- (total_count_perm _ _ (map_to_list_delete m k n E)) in IH.
    cbn [total_count fold_right snd] in *. cbn [length]. lia.
  - rewrite (total_count_perm _ _ (map_to_list_insert m k (0 + 1) E)).
    cbn [total_count fold_right snd] in *. fold (total_count (map_to_list m)).
    cbn [length]. lia.
Qed.

Lemma get_analytics_fields now db a :
  forall calls, calls = calls_table db ->
  Analytics.get_analytics now db = Ok a ->
  py_round (Analytics.cost_sums today now calls).1 4 = Ok (Analytics.today_cost_usd a) /\
  py_round (Analytics.cost_sums today now calls).2 2 = Ok (Analytics.today_cost_inr a) /\
  py_round (Analytics.cost_sums week now calls).1 4 = Ok (Analytics.week_cost_usd a) /\
  py_round (Analytics.cost_sums week now calls).2 2 = Ok (Analytics.week_cost_inr a) /\
  py_round (Analytics.cost_sums month now calls).1 4 = Ok (Analytics.month_cost_usd a) /\
  py_round (Analytics.cost_sums month now calls).2 2 = Ok (Analytics.month_cost_inr a) /\
  py_round (Analytics.cost_sums all_time now calls).1 4 = Ok (Analytics.total_cost_usd a) /\
  py_round (Analytics.cost_sums all_time now calls).2 2 = Ok (Analytics.total_cost_inr a) /\
  Analytics.total_calls a = Z.of_nat (length calls) /\
  Analytics.today_calls a = Analytics.count_calls today now calls /\
  Analytics.week_calls a = Analytics.count_calls week now calls /\
  Analytics.month_calls a = Analytics.count_calls month now calls /\
  Analytics.status_counts a = Analytics.group_count (map row_status calls) /\
  Analytics.daily_calls a =
    Analytics.by_day (map (fun r => sql_date (row_created_at r)) (window_rows week now calls)) /\
  Analytics.total_contacts a = Z.of_nat (length (contacts_table db)).
Proof.
  intros calls ->. unfold Analytics.get_analytics. cbv zeta.
  repeat match goal with
  | |- pybind ?m _ = _ -> _ => destruct m eqn:?; cbn [pybind]; [|discriminate]
  end.
  destruct (Analytics.sortable _); cbn [negb]; [|discriminate].
  intros H. injection H as <-. cbn. repeat split; reflexivity.
Qed.

Lemma window_query_fields w now table c :
  window_query w now table = Ok c ->
  py_round (Analytics.cost_sums w now table).1 4 = Ok (usd c) /\
  py_round (Analytics.cost_sums w now table).2 2 = Ok (inr c) /\
  calls c = Analytics.count_calls w now table.
Proof.
  unfold window_query, Analytics.cost_sums, Analytics.count_calls. cbn [fst snd].
  destruct (py_round _ 4); cbn [pybind]; [|discriminate].
  destruct (py_round _ 2); cbn [pybind]; [|discriminate].
  intros H. injection H as <-. repeat split; reflexivity.
Qed.

Lemma get_costs_totals now table r :
  get_costs now table = Ok r ->
  py_round (Analytics.cost_sums all_time now table).1 4 = Ok (totals_usd r) /\
  py_round (Analytics.cost_sums all_time now table).2 2 = Ok (totals_inr r).
Proof.
  unfold Analytics.cost_sums. rewrite window_rows_all_time. cbn [fst snd].
  unfold get_costs.
  repeat match goal with
  | |- pybind ?m _ = _ -> _ => destruct m eqn:?; cbn [pybind]; [|discriminate]
  end.
  intros H. injection H as <-. cbn [totals_usd totals_inr]. split; reflexivity.
Qed.

(** X9: the analytics and the cost report show the same figures.  When
    both are produced from the same table at the same time, the rounded
    totals of today, of the week, of the month and of all time, in USD
    and in INR, and the three call counts are equal in the two
    answers. *)
Theorem analytics_agree_with_cost_report now db a r :
  Analytics.get_analytics now db = Ok a ->
  get_costs now (calls_table db) = Ok r ->
  Analytics.today_cost_usd a = usd (costs_today r) /\
  Analytics.today_cost_inr a = inr (costs_today r) /\
  Analytics.week_cost_usd a = usd (costs_week r) /\
  Analytics.week_cost_inr a = inr (costs_week r) /\
  Analytics.month_cost_usd a = usd (costs_month r) /\
  Analytics.month_cost_inr a = inr (costs_month r) /\
  Analytics.total_cost_usd a = totals_usd r /\
  Analytics.total_cost_inr a = totals_inr r /\
  Analytics.today_calls a = calls (costs_today r) /\
  Analytics.week_calls a = calls (costs_week r) /\
  Analytics.month_calls a = calls (costs_month r).
Proof.
  intros Ha Hr.
  destruct (get_analytics_fields now db a _ eq_refl Ha)
    as (A1 & A2 & A3 & A4 & A5 & A6 & A7 & A8 & _ & C1 & C2 & C3 & _).
  destruct (get_costs_windows now _ r Hr) as (Ht & Hw & Hm).
  destruct (window_query_fields _ _ _ _ Ht) as (T1 & T2 & T3).
  destruct (window_query_fields _ _ _ _ Hw) as (W1 & W2 & W3).
  destruct (window_query_fields _ _ _ _ Hm) as (M1 & M2 & M3).
  destruct (get_costs_totals now _ r Hr) as (S1 & S2).
  repeat split; congruence.
Qed.

Lemma analytics_agree_with_cost_report_witness :
  let db := {| calls_table := three_calls 120 45 0; calls_sequence := 3;
               contacts_table := []; contacts_sequence := 0;
               transcripts_table := []; transcripts_sequence := 0 |} in
  exists a r,
    Analytics.get_analytics 3000 db = Ok a /\
    get_costs 3000 (calls_table db) = Ok r /\
    Analytics.total_cost_usd a = totals_usd r /\
    Analytics.today_cost_inr a = inr (costs_today r).
Proof.
  intros db.
  destruct (Analytics.get_analytics 3000 db) as [a|] eqn:Ea; [|vm_compute in Ea; discriminate].
  destruct (get_costs 3000 (calls_table db)) as [r|] eqn:Er; [|vm_compute in Er; discriminate].
  exists a, r. split; [reflexivity|]. split; [reflexivity|].
  destruct (analytics_agree_with_cost_report 3000 db a r Ea Er)
    as (_ & H2 & _ & _ & _ & _ & H7 & _).
  split; assumption.
Defined.

Lemma group_count_key `{Countable K} (keys : list K) (k : K) :
  In k keys -> is_Some (Analytics.group_count keys !! k).
Proof.
  intros Hin. rewrite group_count_lookup.
  destruct (filter (fun x => x = k) keys) as [|x l] eqn:E; [|cbn; eauto].
  exfalso. apply list_elem_of_In in Hin.
  assert (Hk : k ∈ filter (fun x => x = k) keys)
    by (apply list_elem_of_filter; split; [reflexivity|exact Hin]).
  rewrite E in Hk. inversion Hk.
Qed.

Lemma group_count_size_one `{Countable K} (keys : list K) (k : K) :
  size (Analytics.group_count keys) = 1%nat ->
  is_Some (Analytics.group_count keys !! k) ->
  forall k', In k' keys -> k' = k.
Proof.
  intros Hsize [n Hk] k' Hin.
  destruct (decide (k' = k)) as [|Hne]; [assumption|exfalso].
  pose proof (map_size_delete_Some k (Analytics.group_count keys) (ex_intro _ n Hk)) as Hdel.
  rewrite Hsize in Hdel. apply map_size_empty_inv in Hdel.
  destruct (group_count_key keys k' Hin) as [n' Hk'].
  rewrite <- (lookup_delete_ne (Analytics.group_count keys) k k') in Hk' by congruence.
  rewrite Hdel, lookup_empty in Hk'. discriminate.
Qed.

(** X10: the status counts of the analytics.  When the analytics are
    answered, a status is a key of [status_counts] exactly when some
    call has it, its count is the number of calls that have it, and the
    counts add up to [total_calls]; a call with the status NULL is
    counted under the key [None], and then every call has the status
    NULL.  When one call has the status NULL and another call has a
    status, the analytics are not answered: the request gets status
    500. *)
Theorem analytics_status_counts now db :
  (forall a,
     Analytics.get_analytics now db = Ok a ->
     (forall s n,
        Analytics.status_counts a !! s = Some n <->
        0 < n /\ n = calls_with_status s (calls_table db)) /\
     total_count (map_to_list (Analytics.status_counts a)) = Analytics.total_calls a /\
     (Exists (fun r => row_status r = None) (calls_table db) ->
      Forall (fun r => row_status r = None) (calls_table db))) /\
  (Exists (fun r => row_status r = None) (calls_table db) ->
   Exists (fun r => row_status r <> None) (calls_table db) ->
   exists e, Analytics.get_analytics now db = Raise e).
Proof.
  assert (Hmixed :
    Exists (fun r => row_status r = None) (calls_table db) ->
    Exists (fun r => row_status r <> None) (calls_table db) ->
    Analytics.sortable (Analytics.group_count (map row_status (calls_table db))) = false).
  { intros Hnull Hother. unfold Analytics.sortable.
    apply Exists_exists in Hnull as (r1 & Hr1 & E1).
    apply Exists_exists in Hother as (r2 & Hr2 & E2).
    assert (H1 : In None (map row_status (calls_table db))).
    { apply in_map_iff. exists r1. split; [exact E1|apply list_elem_of_In; exact Hr1]. }
    assert (H2 : In (row_status r2) (map row_status (calls_table db))).
    { apply in_map. apply list_elem_of_In. exact Hr2. }
    destruct (group_count_key _ None H1) as [n Hn]. rewrite Hn.
    apply bool_decide_eq_false. intros Hsize.
    apply E2. apply (group_count_size_one _ None Hsize); [eauto|exact H2]. }
  split.
  - intros a Ha.
    assert (Hsortable :
      Analytics.sortable (Analytics.group_count (map row_status (calls_table db))) = true).
    { revert Ha. unfold Analytics.get_analytics. cbv zeta.
      repeat match goal with
      | |- pybind ?m _ = _ -> _ => destruct m eqn:?; cbn [pybind]; [|discriminate]
      end.
      destruct (Analytics.sortable _); [reflexivity|discriminate]. }
    destruct (get_analytics_fields now db a _ eq_refl Ha)
      as (_ & _ & _ & _ & _ & _ & _ & _ & -> & _ & _ & _ & -> & _).
    split; [|split].
    + intros s n. rewrite group_count_lookup, filter_map_length.
      unfold calls_with_status.
      destruct (length (filter (fun r => row_status r = s) (calls_table db))) as [|k].
      * split; [discriminate|]. intros [Hpos ->]. simpl in Hpos. lia.
      * split.
        -- intros E. injection E as <-. split; [lia|reflexivity].
        -- intros [_ ->]. reflexivity.
    + rewrite total_group_count, length_map. reflexivity.
    + intros Hnull. apply Forall_forall. intros r Hr.
      destruct (row_status r) as [s|] eqn:Es; [|reflexivity].
      exfalso. rewrite Hmixed in Hsortable; [discriminate|exact Hnull|].
      apply Exists_exists. exists r. split; [exact Hr|]. rewrite Es. discriminate.
  - intros Hnull Hother. unfold Analytics.get_analytics. cbv zeta.
    rewrite (Hmixed Hnull Hother). cbn [negb].
    repeat match goal with
    | |- exists e, pybind ?m _ = _ => destruct m; cbn [pybind]; [|eauto]
    end.
    eauto.
Qed.

Lemma analytics_status_counts_witness :
  let answered := {| calls_table := three_calls 120 45 0; calls_sequence := 3;
                     contacts_table := []; contacts_sequence := 0;
                     transcripts_table := []; transcripts_sequence := 0 |} in
  let refused := {| calls_table :=
                      [ without_status
                          (inserted_call 1 "+15550100" "call-15550100-1001" "AD_1" 1000);
                        inserted_call 2 "+15550101" "call-15550101-1002" "AD_2" 1100 ];
                    calls_sequence := 2;
                    contacts_table := []; contacts_sequence := 0;
                    transcripts_table := []; transcripts_sequence := 0 |} in
  (exists a,
     Analytics.get_analytics 3000 answered = Ok a /\
     Analytics.status_counts a !! Some "completed"%string = Some 3 /\
     total_count (map_to_list (Analytics.status_counts a)) = Analytics.total_calls a) /\
  (exists e, Analytics.get_analytics 3000 refused = Raise e).
Proof.
  intros answered refused. split.
  - destruct (Analytics.get_analytics 3000 answered) as [a|] eqn:Ea;
      [|vm_compute in Ea; discriminate].
    exists a. split; [reflexivity|].
    destruct (proj1 (analytics_status_counts 3000 answered) a Ea) as (Hlookup & Htotal & _).
    split; [|exact Htotal].
    apply Hlookup. split; [lia|]. vm_compute. reflexivity.
  - apply (proj2 (analytics_status_counts 3000 refused)).
    + left. reflexivity.
    + right. left. discriminate.
Defined.

#[local] Instance day_le_transitive : Transitive Analytics.day_le.
Proof. intros x y z. unfold Analytics.day_le. lia. Qed.

#[local] Instance day_le_total : Total Analytics.day_le.
Proof. intros x y. unfold Analytics.day_le. lia. Qed.

Lemma strictly_sorted_days (l : list (Z * Z)) :
  Sorted.StronglySorted Analytics.day_le l -> NoDup l.*1 ->
  Sorted.StronglySorted (fun x y => x.1 < y.1) l.
Proof.
  induction 1 as [|x l Hl IH Hx]; intros Hnd; [constructor|].
  cbn [fmap list_fmap] in Hnd. apply NoDup_cons in Hnd as [Hnotin Hnd].
  constructor; [apply IH; exact Hnd|].
  apply Forall_forall. intros y Hy.
  pose proof (proj1 (Forall_forall _ _) Hx y Hy) as Hle. unfold Analytics.day_le in Hle.
  assert (x.1 <> y.1); [|lia].
  intros E. apply Hnotin. rewrite E. apply list_elem_of_fmap. exists y. auto.
Qed.

Lemma by_day_elem days day n :
  (day, n) ∈ Analytics.by_day days <->
  0 < n /\ n = Z.of_nat (length (filter (fun x => x = day) days)).
Proof.
  unfold Analytics.by_day.
  rewrite (sorting.merge_sort_Permutation Analytics.day_le _).
  rewrite elem_of_map_to_list, group_count_lookup.
  destruct (length (filter (fun x => x = day) days)) as [|k].
  - split; [discriminate|]. intros [Hpos ->]. simpl in Hpos. lia.
  - split.
    + intros E. injection E as <-. split; [lia|reflexivity].
    + intros [_ ->]. reflexivity.
Qed.

(** X11: the chart data of the analytics has one entry per day on
    which a call of the last seven days was created, in increasing
    order of the days, each with the number of those calls created on
    that day; no day is before the start of the window and the counts
    add up to [week_calls]. *)
Theorem analytics_daily_calls now db a :
  Analytics.get_analytics now db = Ok a ->
  let recent := window_rows week now (calls_table db) in
  (forall day n,
     In (day, n) (Analytics.daily_calls a) <-> 0 < n /\ n = calls_on_day day recent) /\
  Sorted.StronglySorted (fun x y => x.1 < y.1) (Analytics.daily_calls a) /\
  Forall (fun entry => sql_date now - 7 <= entry.1) (Analytics.daily_calls a) /\
  total_count (Analytics.daily_calls a) = Analytics.week_calls a.
Proof.
  intros Ha recent.
  destruct (get_analytics_fields now db a _ eq_refl Ha)
    as (_ & _ & _ & _ & _ & _ & _ & _ & _ & _ & -> & _ & _ & -> & _).
  fold recent.
  assert (Hentry : forall day n,
            (day, n) ∈ Analytics.by_day (map (fun r => sql_date (row_created_at r)) recent) <->
            0 < n /\ n = calls_on_day day recent).
  { intros day n. rewrite by_day_elem, filter_map_length. reflexivity. }
  split; [|split; [|split]].
  - intros day n. rewrite <- Hentry. symmetry. apply list_elem_of_In.
  - apply strictly_sorted_days.
    + apply sorting.StronglySorted_merge_sort; apply _.
    + unfold Analytics.by_day.
      rewrite (sorting.merge_sort_Permutation Analytics.day_le _).
      apply NoDup_fst_map_to_list.
  - apply Forall_forall. intros [day n] Hin. apply Hentry in Hin as [Hpos ->]. cbn [fst].
    unfold calls_on_day in Hpos.
    destruct (filter (fun r => sql_date (row_created_at r) = day) recent) as [|r rest] eqn:E;
      [simpl in Hpos; lia|].
    assert (Hr : r ∈ filter (fun r => sql_date (row_created_at r) = day) recent)
      by (rewrite E; left).
    apply list_elem_of_filter in Hr as [<- Hr].
    unfold recent, window_rows in Hr. apply list_elem_of_filter in Hr as [Hw _].
    cbn [in_window] in Hw. apply Is_true_true in Hw. apply Z.leb_le in Hw. exact Hw.
  - unfold Analytics.by_day.
    rewrite (total_count_perm _ _ (sorting.merge_sort_Permutation Analytics.day_le _)).
    rewrite total_group_count, length_map. reflexivity.
Qed.

Lemma analytics_daily_calls_witness :
  let db := {| calls_table := three_calls 120 45 0; calls_sequence := 3;
               contacts_table := []; contacts_sequence := 0;
               transcripts_table := []; transcripts_sequence := 0 |} in
  exists a,
    Analytics.get_analytics 3000 db = Ok a /\
    In (0, 3) (Analytics.daily_calls a) /\
    total_count (Analytics.daily_calls a) = Analytics.week_calls a.
Proof.
  intros db.
  destruct (Analytics.get_analytics 3000 db) as [a|] eqn:Ea; [|vm_compute in Ea; discriminate].
  exists a. split; [reflexivity|].
  destruct (analytics_daily_calls 3000 db a Ea) as (Hentry & _ & _ & Htotal).
  split; [|exact Htotal].
  apply Hentry. split; [lia|]. vm_compute. reflexivity.
Defined.

(** ** Placing a call *)

Lemma rstrip_cons c s :
  rstrip (String c s) =
    match rstrip s with
    | EmptyString => if isspace c then EmptyString else String c EmptyString
    | kept => String c kept
    end.
Proof. reflexivity. Qed.

Lemma rstrip_idempotent s : rstrip (rstrip s) = rstrip s.
Proof.
  induction s as [|c s IH]; [reflexivity|].
  rewrite rstrip_cons. destruct (rstrip s) as [|d kept] eqn:E.
  - destruct (isspace c) eqn:Ec; [reflexivity|]. rewrite rstrip_cons. cbn [rstrip].
    rewrite Ec. reflexivity.
  - rewrite rstrip_cons, IH. reflexivity.
Qed.

Lemma lstrip_head s :
  match lstrip s with String c _ => isspace c = false | EmptyString => True end.
Proof.
  induction s as [|c s IH]; [exact I|].
  cbn [lstrip]. destruct (isspace c) eqn:Ec; [exact IH|exact Ec].
Qed.

Lemma rstrip_head c s : isspace c = false -> exists kept, rstrip (String c s) = String c kept.
Proof.
  intros Hc. cbn [rstrip]. destruct (rstrip s); [rewrite Hc|]; eexists; reflexivity.
Qed.

Lemma lstrip_strip s : lstrip (strip s) = strip s.
Proof.
  unfold strip. pose proof (lstrip_head s) as H.
  destruct (lstrip s) as [|c t]; [reflexivity|].
  destruct (rstrip_head c t H) as [kept ->]. cbn [lstrip]. rewrite H. reflexivity.
Qed.

Lemma strip_idempotent s : strip (strip s) = strip s.
Proof.
  unfold strip at 1. rewrite lstrip_strip. unfold strip. apply rstrip_idempotent.
Qed.

Lemma next_rowid_fresh sequence ids id :
  next_rowid sequence ids = Ok id ->
  sequence < id /\ Forall (fun i => i < id) ids /\ id <= INT64_MAX.
Proof.
  unfold next_rowid.
  assert (Hmax : sequence <= fold_right Z.max sequence ids /\
                 Forall (fun i => i <= fold_right Z.max sequence ids) ids).
  { induction ids as [|i ids [IH1 IH2]]; cbn [fold_right]; [split; [lia|constructor]|].
    split; [lia|]. constructor; [lia|].
    eapply Forall_impl; [exact IH2|]. intros j Hj. cbv beta in *. lia. }
  destruct Hmax as [H1 H2].
  destruct (fold_right Z.max sequence ids <? INT64_MAX) eqn:E; [|discriminate].
  apply Z.ltb_lt in E. intros H. injection H as <-.
  split; [lia|]. split; [|lia].
  eapply Forall_impl; [exact H2|]. intros j Hj. cbv beta in *. lia.
Qed.

(** What [make_call] leaves in the database, by its answer. *)
Lemma make_call_writes env field drawn created now db :
  let result := Dialer.make_call env field drawn created now db in
  match result.1 with
  | Dialer.Dispatched id dispatch_id room_name phone =>
      (exists s, field = Str s /\ phone = strip s) /\
      valid_phone_number phone /\
      room_name = Dialer.room_name_for phone drawn /\
      created room_name = Some dispatch_id /\
      calls_table result.2
        = calls_table db ++ [inserted_call id phone room_name dispatch_id now] /\
      calls_sequence db < id /\ Forall (fun r => row_id r < id) (calls_table db) /\
      calls_sequence result.2 = id /\
      contacts_table result.2
        = map (fun c => if String.eqb (contact_phone_number c) phone
                        then Dialer.set_last_called (Some now) c else c)
              (contacts_table db) /\
      contacts_sequence result.2 = contacts_sequence db /\
      transcripts_table result.2 = transcripts_table db /\
      transcripts_sequence result.2 = transcripts_sequence db
  | _ => result.2 = db
  end.
Proof.
  unfold Dialer.make_call.
  destruct field as [| |s]; cbn [get_default]; try reflexivity.
  destruct (nonempty (strip s)) eqn:Hne; cbn [negb]; [|reflexivity].
  - destruct (String.prefix "+" (strip s)) eqn:Hplus; cbn [negb]; [|reflexivity].
    destruct (String.length (strip s) <? 8)%nat eqn:Hlen; [reflexivity|].
    destruct (truthy (Dialer.LIVEKIT_URL env) && truthy (Dialer.LIVEKIT_API_KEY env)
              && truthy (Dialer.LIVEKIT_API_SECRET env)); cbn [negb]; [|reflexivity].
    unfold Dialer.dispatch_call.
    destruct (created (Dialer.room_name_for (strip s) drawn)) as [dispatch_id|] eqn:Hcreated;
      [|reflexivity].
    unfold Dialer.insert_call.
    destruct (next_rowid (calls_sequence db) (map row_id (calls_table db))) as [id|] eqn:Hid;
      cbn [pybind]; [|reflexivity].
    destruct (next_rowid_fresh _ _ _ Hid) as (Hseq & Hids & _).
    cbn. split; [exists s; split; reflexivity|].
    split.
    { split; [exact Hplus|]. split; [|apply strip_idempotent].
      apply Nat.ltb_ge in Hlen. exact Hlen. }
    split; [reflexivity|]. split; [exact Hcreated|]. split; [reflexivity|].
    split; [exact Hseq|]. split; [|repeat split].
    apply Forall_map in Hids. exact Hids.
Qed.


Lemma prefix_plus_nonempty s : String.prefix "+" s = true -> nonempty s = true.
Proof. destruct s; [discriminate|reflexivity]. Qed.

Lemma dispatch_call_status phone drawn created now db :
  Dialer.http_status (Dialer.dispatch_call phone drawn created now db).1 = 200.
Proof.
  unfold Dialer.dispatch_call.
  destruct (created _); [|reflexivity].
  destruct (Dialer.insert_call _ _ _ _ _) as [[? ?]|]; reflexivity.
Qed.

(** X13: the status of the answer of [make_call] depends on the phone
    number and on the three LiveKit credentials only.  It is 400
    exactly when the number (the empty string when the key is absent)
    does not, once stripped, start with [+] or has fewer than 8
    characters, whatever the credentials; 500 exactly when the number
    is [null] or is accepted while a credential is missing or empty;
    and 200 in all other cases, also when LiveKit refuses the dispatch
    or the insert fails. *)
Theorem make_call_status_codes env field drawn created now db :
  let answer := (Dialer.make_call env field drawn created now db).1 in
  let accepted :=
    exists s, get_default field "" = Some s /\
              String.prefix "+" (strip s) = true /\ (8 <= String.length (strip s))%nat in
  let credentials :=
    truthy (Dialer.LIVEKIT_URL env) && truthy (Dialer.LIVEKIT_API_KEY env)
    && truthy (Dialer.LIVEKIT_API_SECRET env) in
  (Dialer.http_status answer = 400 <-> field <> Null /\ ~ accepted) /\
  (Dialer.http_status answer = 500 <->
   field = Null \/ (accepted /\ credentials = false)) /\
  (Dialer.http_status answer = 200 <-> accepted /\ credentials = true).
Proof.
  intros answer accepted credentials. subst answer.
  unfold Dialer.make_call. fold credentials.
  destruct (get_default field "") as [s|] eqn:Hget.
  - assert (Hfield : field <> Null) by (intros ->; discriminate).
    destruct (String.prefix "+" (strip s)) eqn:Hplus.
    + rewrite (prefix_plus_nonempty _ Hplus). cbn [negb].
      destruct (String.length (strip s) <? 8)%nat eqn:Hlen.
      * apply Nat.ltb_lt in Hlen.
        assert (Hno : ~ accepted).
        { intros (s' & E & _ & Hl). injection E as <-. lia. }
        cbn. repeat split; try tauto; try discriminate; intros; tauto.
      * apply Nat.ltb_ge in Hlen.
        assert (Hyes : accepted) by (exists s; auto).
        destruct credentials; cbn [negb].
        -- rewrite dispatch_call_status. repeat split; try tauto; try discriminate.
           intros [?|[_ ?]]; [tauto|discriminate].
        -- cbn. repeat split; try tauto; try discriminate.
           intros [_ ?]. discriminate.
    + assert (Hno : ~ accepted).
      { intros (s' & E & Hp & _). injection E as <-. congruence. }
      destruct (nonempty (strip s)); cbn; repeat split; try tauto; try discriminate;
        intros; tauto.
  - assert (Hfield : field = Null) by (destruct field; [discriminate|reflexivity|discriminate]).
    assert (Hno : ~ accepted) by (intros (s' & E & _); discriminate).
    cbn. repeat split; try tauto; try discriminate; intros; tauto.
Qed.

Lemma update_call_uniform call_id data now :
  exists f,
    (forall calls,
       calls_after (update_call call_id data now calls)
         = map (fun r => if row_id r =? call_id then f r else r) calls) /\
    (forall r, dispatched_as (f r) = dispatched_as r).
Proof.
  assert (Hid : forall calls : list call_row,
            calls = map (fun r => if row_id r =? call_id then (fun r => r) r else r) calls).
  { intros calls. symmetry.
    apply (map_unless_id (fun r => r) (fun r => row_id r =? call_id)). reflexivity. }
  unfold update_call.
  destruct (collect_updates data) as [calculated [updates|e]] eqn:Ec;
    [|exists (fun r => r); split; [exact Hid|reflexivity]].
  destruct updates as [|a updates]; [exists (fun r => r); split; [exact Hid|reflexivity]|].
  unfold execute_update.
  destruct (bind_all now (a :: updates)) as [f|] eqn:Ef; cbn [pybind];
    [|exists (fun r => r); split; [exact Hid|reflexivity]].
  unfold bind_int. destruct (fits_int64 call_id); cbn [pybind];
    [|exists (fun r => r); split; [exact Hid|reflexivity]].
  exists f. split; [reflexivity|]. eapply bind_all_dispatched; eassumption.
Qed.

(** X14: the id that [make_call] returns addresses the new call and
    no other.  An update sent afterwards to that id leaves the rows
    that were in the table before the dispatch as they are, and does
    to the new row what it would do to it alone. *)
Theorem dispatched_call_is_updated_alone
    env field drawn created now db db' id dispatch_id room_name phone data later :
  Dialer.make_call env field drawn created now db
    = (Dialer.Dispatched id dispatch_id room_name phone, db') ->
  calls_after (update_call id data later (calls_table db'))
  = calls_table db
    ++ calls_after (update_call id data later
                      [inserted_call id phone room_name dispatch_id now]).
Proof.
  intros Hcall.
  pose proof (make_call_writes env field drawn created now db) as Heffect.
  rewrite Hcall in Heffect. cbn [fst snd] in Heffect.
  destruct Heffect as (_ & _ & _ & _ & -> & _ & Hids & _).
  destruct (update_call_uniform id data later) as (f & Hf & _).
  rewrite !Hf, map_app. f_equal.
  apply (map_unless_matching f (fun r => row_id r =? id)).
  eapply Forall_impl; [exact Hids|]. intros r Hr. apply Z.eqb_neq. cbv beta in Hr. lia.
Qed.

Lemma dispatched_call_is_updated_alone_witness :
  let env := {| Dialer.LIVEKIT_URL := Some "wss://example.livekit.cloud"%string;
                Dialer.LIVEKIT_API_KEY := Some "key"%string;
                Dialer.LIVEKIT_API_SECRET := Some "secret"%string;
                Dialer.VOBIZ_SIP_TRUNK_ID := None;
                Dialer.VOBIZ_OUTBOUND_NUMBER := None |} in
  let db := {| calls_table := three_calls 120 45 0; calls_sequence := 3;
               contacts_table := []; contacts_sequence := 0;
               transcripts_table := []; transcripts_sequence := 0 |} in
  let placed := Dialer.make_call env (Str " +15550103 ") 4821 (fun _ => Some "AD_4"%string)
                  5000 db in
  placed.1 = Dialer.Dispatched 4 "AD_4" "call-15550103-4821" "+15550103" /\
  calls_after (update_call 4 (completed_call 30) 5100 (calls_table placed.2))
  = three_calls 120 45 0
    ++ calls_after (update_call 4 (completed_call 30) 5100
                      [inserted_call 4 "+15550103" "call-15550103-4821" "AD_4" 5000]).
Proof.
  intros env db placed. split; [vm_compute; reflexivity|].
  apply (dispatched_call_is_updated_alone env (Str " +15550103 ") 4821
           (fun _ => Some "AD_4"%string) 5000 db placed.2 4 "AD_4" "call-15550103-4821"
           "+15550103" (completed_call 30) 5100).
  vm_compute. reflexivity.
Defined.

(** X15: the status endpoint and the call endpoint read the same
    credentials.  When [get_status] reports [configured], [make_call]
    answers an accepted phone number with status 200, never with the
    missing-credentials error; and [get_status] also asks for the SIP
    trunk id, which [make_call] does not read: without it the status
    is not [configured] although calls are dispatched. *)
Theorem configured_status_allows_calls env s drawn created now db :
  String.prefix "+" (strip s) = true -> (8 <= String.length (strip s))%nat ->
  let answer := (Dialer.make_call env (Str s) drawn created now db).1 in
  (Dialer.configured (Dialer.get_status env) = true -> Dialer.http_status answer = 200) /\
  (truthy (Dialer.LIVEKIT_URL env) = true -> truthy (Dialer.LIVEKIT_API_KEY env) = true ->
   truthy (Dialer.LIVEKIT_API_SECRET env) = true -> Dialer.VOBIZ_SIP_TRUNK_ID env = None ->
   Dialer.configured (Dialer.get_status env) = false /\ Dialer.http_status answer = 200).
Proof.
  intros Hplus Hlen answer.
  assert (Hok : truthy (Dialer.LIVEKIT_URL env) && truthy (Dialer.LIVEKIT_API_KEY env)
                && truthy (Dialer.LIVEKIT_API_SECRET env) = true ->
                Dialer.http_status answer = 200).
  { intros Hcred. subst answer. unfold Dialer.make_call. cbn [get_default].
    rewrite (prefix_plus_nonempty _ Hplus), Hplus, Hcred. cbn [negb].
    replace (String.length (strip s) <? 8)%nat with false
      by (symmetry; apply Nat.ltb_ge; exact Hlen).
    apply dispatch_call_status. }
  split.
  - unfold Dialer.get_status. cbn [Dialer.configured]. intros Hc.
    apply andb_true_iff in Hc as [Hc _]. apply Hok. exact Hc.
  - intros H1 H2 H3 H4. split.
    + unfold Dialer.get_status. cbn [Dialer.configured]. rewrite H4. apply andb_false_r.
    + apply Hok. rewrite H1, H2, H3. reflexivity.
Qed.

Lemma configured_status_allows_calls_witness :
  let env := {| Dialer.LIVEKIT_URL := Some "wss://example.livekit.cloud"%string;
                Dialer.LIVEKIT_API_KEY := Some "key"%string;
                Dialer.LIVEKIT_API_SECRET := Some "secret"%string;
                Dialer.VOBIZ_SIP_TRUNK_ID := None;
                Dialer.VOBIZ_OUTBOUND_NUMBER := None |} in
  Dialer.configured (Dialer.get_status env) = false /\
  Dialer.http_status
    (Dialer.make_call env (Str "+15550103") 4821 (fun _ => None) 5000 empty_database).1 = 200.
Proof.
  intros env.
  apply (proj2 (configured_status_allows_calls env "+15550103" 4821 (fun _ => None) 5000
                  empty_database eq_refl ltac:(vm_compute; lia)));
    reflexivity.
Defined.

(** ** The call history *)

#[local] Instance not_older_transitive : Transitive History.not_older.
Proof. intros x y z. unfold History.not_older. lia. Qed.

#[local] Instance not_older_total : Total History.not_older.
Proof. intros x y. unfold History.not_older. lia. Qed.

Lemma strongly_sorted_app {A} (R : A -> A -> Prop) (l1 l2 : list A) :
  Sorted.StronglySorted R (l1 ++ l2) ->
  Sorted.StronglySorted R l1 /\ forall a b, In a l1 -> In b l2 -> R a b.
Proof.
  induction l1 as [|x l1 IH]; cbn [app]; intros H.
  - split; [constructor|]. intros a b [].
  - inversion H as [|? ? Hs Hx]; subst. destruct (IH Hs) as [IH1 IH2].
    split.
    + constructor; [exact IH1|]. apply Forall_app in Hx as [Hx _]. exact Hx.
    + intros a b [<-|Ha] Hb; [|apply IH2; assumption].
      apply Forall_app in Hx as [_ Hx].
      apply (proj1 (Forall_forall _ _) Hx). apply list_elem_of_In. exact Hb.
Qed.

(** X16: [get_calls] lists the newest calls.  With a limit that fits
    64 bits (50 when the parameter is absent or is not an int), the
    calls listed and the calls left out are together the calls of the
    table; those listed are ordered from the newest to the oldest and
    none of them is older than a call left out; their number is the
    limit, or the size of the table when that is smaller or when the
    limit is negative; and no listed row has a [dispatch_id] key.  A
    limit outside 64 bits is answered with status 500. *)
Theorem get_calls_lists_the_newest limit db :
  let n := default 50 limit in
  (fits_int64 n = true ->
   exists shown hidden,
     History.get_calls limit db = History.Listed (map History.listed shown) /\
     shown ++ hidden ≡ₚ calls_table db /\
     length shown = (if n <? 0 then length (calls_table db)
                     else Nat.min (Z.to_nat n) (length (calls_table db))) /\
     Sorted.StronglySorted History.not_older shown /\
     (forall a b, In a shown -> In b hidden -> row_created_at b <= row_created_at a) /\
     Forall (fun row => column "dispatch_id" row = None) (map History.listed shown)) /\
  (fits_int64 n = false -> History.get_calls limit db = History.ServerError).
Proof.
  intros n. unfold History.get_calls. fold n. unfold bind_int.
  split; intros Hfit; rewrite Hfit; [|reflexivity].
  pose proof (order_by_Permutation History.not_older (calls_table db)) as Hperm.
  pose proof (StronglySorted_order_by History.not_older (calls_table db)) as Hsorted.
  fold (History.newest_first (calls_table db)) in Hperm, Hsorted.
  set (sorted := History.newest_first (calls_table db)) in *.
  unfold History.limit_rows.
  assert (Hcolumn : forall l, Forall (fun row => column "dispatch_id" row = None)
                                (map History.listed l)).
  { intros l. apply Forall_map. apply Forall_forall. intros r _. reflexivity. }
  destruct (n <? 0) eqn:Hneg.
  - exists sorted, []. rewrite app_nil_r.
    split; [reflexivity|]. split; [exact Hperm|].
    split; [apply Permutation_length; exact Hperm|].
    split; [exact Hsorted|]. split; [intros a b _ []|apply Hcolumn].
  - exists (take (Z.to_nat n) sorted), (drop (Z.to_nat n) sorted).
    rewrite take_drop.
    split; [reflexivity|]. split; [exact Hperm|].
    split; [rewrite length_take, (Permutation_length Hperm); reflexivity|].
    rewrite <- (take_drop (Z.to_nat n) sorted) in Hsorted.
    destruct (strongly_sorted_app _ _ _ Hsorted) as [Hs Hcross].
    split; [exact Hs|]. split; [|apply Hcolumn].
    intros a b Ha Hb. exact (Hcross a b Ha Hb).
Qed.

Lemma get_calls_lists_the_newest_witness :
  let db := {| calls_table := three_calls 120 45 0; calls_sequence := 3;
               contacts_table := []; contacts_sequence := 0;
               transcripts_table := []; transcripts_sequence := 0 |} in
  exists shown hidden,
    History.get_calls (Some 2) db = History.Listed (map History.listed shown) /\
    length shown = 2%nat /\
    (forall a b, In a shown -> In b hidden -> row_created_at b <= row_created_at a).
Proof.
  intros db.
  destruct (proj1 (get_calls_lists_the_newest (Some 2) db) eq_refl)
    as (shown & hidden & Hlist & _ & Hlen & _ & Hnewest & _).
  exists shown, hidden. split; [exact Hlist|]. split; [exact Hlen|exact Hnewest].
Defined.

(** ** Contacts: the search *)


Lemma append_nil s : "" +:+ s = s.
Proof. reflexivity. Qed.

Lemma append_cons c s t : String c s +:+ t = String c (s +:+ t).
Proof. reflexivity. Qed.





Lemma string_leb_transitive s1 s2 s3 :
  String.leb s1 s2 = true -> String.leb s2 s3 = true -> String.leb s1 s3 = true.
Proof.
  unfold String.leb. revert s2 s3.
  induction s1 as [|a s1 IH]; intros [|b s2] [|c s3]; cbn [String.compare];
    try reflexivity; try discriminate.
  unfold Ascii.compare.
  destruct (N.compare_spec (Ascii.N_of_ascii a) (Ascii.N_of_ascii b)) as [Eab|Lab|Gab];
    destruct (N.compare_spec (Ascii.N_of_ascii b) (Ascii.N_of_ascii c)) as [Ebc|Lbc|Gbc];
    destruct (N.compare_spec (Ascii.N_of_ascii a) (Ascii.N_of_ascii c)) as [Eac|Lac|Gac];
    try reflexivity; try discriminate; try lia.
  apply IH.
Qed.

#[local] Instance name_le_transitive : Transitive Contacts.name_le.
Proof. intros x y z. unfold Contacts.name_le. apply string_leb_transitive. Qed.

#[local] Instance name_le_total : Total Contacts.name_le.
Proof. intros x y. unfold Contacts.name_le. apply String.leb_total. Qed.






(** ** Contacts: adding, updating, deleting *)

(** What [add_contact] leaves in the database, by its answer. *)
Lemma add_contact_writes data now db :
  let result := Contacts.add_contact data now db in
  match result.1 with
  | Contacts.Added id =>
      exists name phone company notes tags,
        Contacts.stripped_fields data = Some (name, phone, company, notes, tags) /\
        name <> "" /\ phone <> "" /\
        Forall (fun c => contact_phone_number c <> phone) (contacts_table db) /\
        contacts_sequence db < id /\
        Forall (fun c => contact_id c < id) (contacts_table db) /\
        contacts_table result.2
          = contacts_table db ++
              [ {| contact_id := id; contact_name := name; contact_phone_number := phone;
                   contact_company := Some company; contact_notes := Some notes;
                   contact_tags := Some tags; contact_created_at := now;
                   contact_last_called := None |} ] /\
        contacts_sequence result.2 = id /\
        calls_table result.2 = calls_table db /\
        calls_sequence result.2 = calls_sequence db /\
        transcripts_table result.2 = transcripts_table db /\
        transcripts_sequence result.2 = transcripts_sequence db
  | _ => result.2 = db
  end.
Proof.
  unfold Contacts.add_contact.
  destruct (Contacts.stripped_fields data) as [[[[[name phone] company] notes] tags]|] eqn:Hs;
    [|reflexivity].
  destruct (nonempty name) eqn:Hn; cbn [negb orb]; [|reflexivity].
  destruct (nonempty phone) eqn:Hp; cbn [negb orb]; [|reflexivity].
  destruct (next_rowid (contacts_sequence db) (map contact_id (contacts_table db)))
    as [id|] eqn:Hid; [|reflexivity].
  destruct (Contacts.phone_taken phone (contacts_table db)) eqn:Htaken; [reflexivity|].
  destruct (next_rowid_fresh _ _ _ Hid) as (Hseq & Hids & _).
  cbn. exists name, phone, company, notes, tags.
  split; [reflexivity|].
  split; [intros ->; discriminate|]. split; [intros ->; discriminate|].
  split.
  { unfold Contacts.phone_taken in Htaken.
    apply Forall_forall. intros c Hc E.
    assert (Hex : existsb (fun c => String.eqb (contact_phone_number c) phone)
                    (contacts_table db) = true).
    { apply existsb_exists. exists c. split; [apply list_elem_of_In; exact Hc|].
      apply String.eqb_eq. exact E. }
    congruence. }
  split; [exact Hseq|]. split; [apply Forall_map in Hids; exact Hids|].
  repeat split.
Qed.

(** X18: what [add_contact] can write.  Unless the answer carries the
    id of a new contact, the database is left as it was.  With it,
    exactly one contact was appended: its id is fresh, its name and its
    phone number are the strings of the body stripped of white space
    and are not empty, no other contact has that phone number, and
    company, notes and tags are stored stripped too (the empty string
    for a key that is absent); nothing else changed. *)
Theorem add_contact_effect data now db :
  let result := Contacts.add_contact data now db in
  match result.1 with
  | Contacts.Added id =>
      exists name phone company notes tags,
        Contacts.stripped_fields data = Some (name, phone, company, notes, tags) /\
        name <> "" /\ phone <> "" /\
        Forall (fun c => contact_phone_number c <> phone) (contacts_table db) /\
        contacts_sequence db < id /\
        Forall (fun c => contact_id c < id) (contacts_table db) /\
        contacts_table result.2
          = contacts_table db ++
              [ {| contact_id := id; contact_name := name; contact_phone_number := phone;
                   contact_company := Some company; contact_notes := Some notes;
                   contact_tags := Some tags; contact_created_at := now;
                   contact_last_called := None |} ] /\
        contacts_sequence result.2 = id /\
        calls_table result.2 = calls_table db /\
        calls_sequence result.2 = calls_sequence db /\
        transcripts_table result.2 = transcripts_table db /\
        transcripts_sequence result.2 = transcripts_sequence db
  | _ => result.2 = db
  end.
Proof. exact (add_contact_writes data now db). Qed.



Lemma with_contacts_same db :
  Contacts.with_contacts db (contacts_table db) (contacts_sequence db) = db.
Proof. destruct db. reflexivity. Qed.

Lemma filter_all {A} (P : A -> Prop) `{forall a, Decision (P a)} (l : list A) :
  Forall P l -> filter P l = l.
Proof.
  induction 1 as [|a l Ha _ IH]; [reflexivity|].
  rewrite filter_cons, IH. destruct (decide (P a)); [reflexivity|contradiction].
Qed.

Lemma existsb_id_false id contacts :
  Forall (fun c => contact_id c <> id) contacts ->
  existsb (fun c => contact_id c =? id) contacts = false.
Proof.
  induction 1 as [|c l Hc _ IH]; [reflexivity|].
  cbn [existsb]. rewrite IH. apply Z.eqb_neq in Hc. rewrite Hc. reflexivity.
Qed.

Lemma existsb_id_true id contacts :
  Exists (fun c => contact_id c = id) contacts ->
  existsb (fun c => contact_id c =? id) contacts = true.
Proof.
  intros H. apply existsb_exists. apply Exists_exists in H as (c & Hc & E).
  exists c. split; [apply list_elem_of_In; exact Hc|apply Z.eqb_eq; exact E].
Qed.

(** X20: [update_contact] checks nothing itself.  By the answer: with
    any answer but a success nothing is written; with a success either
    no contact has the id, and nothing is written, or the contact of
    that id gets the name and the phone number of the body exactly as
    given (not stripped, possibly empty), a number that no other
    contact has, and company, notes and tags as given, [''] when
    absent and NULL when [null], while its id, its creation time and
    its last call stay, as do the other contacts and the other tables.
    When a contact has the id and the body has no name or no phone
    number (absent or [null]), or gives a phone number that another
    contact has, the answer is status 500. *)
Theorem update_contact_outcomes id data db :
  let result := Contacts.update_contact id data db in
  let others := filter (fun c => contact_id c <> id) (contacts_table db) in
  (result.1 <> Contacts.Updated -> result.2 = db) /\
  (result.1 = Contacts.Updated ->
   Forall (fun c => contact_id c <> id) (contacts_table db) -> result.2 = db) /\
  (result.1 = Contacts.Updated ->
   Exists (fun c => contact_id c = id) (contacts_table db) ->
   exists name phone,
     get (Contacts.name data) = Some name /\
     get (Contacts.phone_number data) = Some phone /\
     Forall (fun c => contact_phone_number c <> phone) others /\
     Forall2 (fun c c' =>
                if contact_id c =? id
                then c' = {| contact_id := contact_id c;
                             contact_name := name;
                             contact_phone_number := phone;
                             contact_company := get_default (Contacts.company data) "";
                             contact_notes := get_default (Contacts.notes data) "";
                             contact_tags := get_default (Contacts.tags data) "";
                             contact_created_at := contact_created_at c;
                             contact_last_called := contact_last_called c |}
                else c' = c)
       (contacts_table db) (contacts_table result.2) /\
     contacts_sequence result.2 = contacts_sequence db /\
     calls_table result.2 = calls_table db /\
     calls_sequence result.2 = calls_sequence db /\
     transcripts_table result.2 = transcripts_table db /\
     transcripts_sequence result.2 = transcripts_sequence db) /\
  (Exists (fun c => contact_id c = id) (contacts_table db) ->
   (get (Contacts.name data) = None \/ get (Contacts.phone_number data) = None \/
    exists phone, get (Contacts.phone_number data) = Some phone /\
                  Exists (fun c => contact_phone_number c = phone) others) ->
   result = (Contacts.ServerError, db)).
Proof.
  intros result others. subst result.
  unfold Contacts.update_contact, bind_int.
  destruct (fits_int64 id) eqn:Hfit.
  2:{ cbn [fst snd]. split; [reflexivity|]. split; [discriminate|].
      split; [discriminate|]. reflexivity. }
  destruct (existsb (fun c => contact_id c =? id) (contacts_table db)) eqn:Hid.
  2:{ cbn [fst snd]. split; [reflexivity|]. split; [reflexivity|]. split.
      - intros _ Hsome. rewrite (existsb_id_true id _ Hsome) in Hid. discriminate.
      - intros Hsome. rewrite (existsb_id_true id _ Hsome) in Hid. discriminate. }
  assert (Hnotnone : ~ Forall (fun c => contact_id c <> id) (contacts_table db)).
  { intros Hnone. rewrite (existsb_id_false id _ Hnone) in Hid. discriminate. }
  destruct (get (Contacts.name data)) as [name|].
  2:{ cbn [fst snd]. split; [reflexivity|]. split; [discriminate|].
      split; [discriminate|]. reflexivity. }
  destruct (get (Contacts.phone_number data)) as [phone|].
  2:{ cbn [fst snd]. split; [reflexivity|]. split; [discriminate|].
      split; [discriminate|]. reflexivity. }
  fold others.
  destruct (Contacts.phone_taken phone others) eqn:Htaken.
  { cbn [fst snd]. split; [reflexivity|]. split; [discriminate|].
    split; [discriminate|]. reflexivity. }
  cbn [fst snd Contacts.with_contacts contacts_table contacts_sequence
         calls_table calls_sequence transcripts_table transcripts_sequence].
  split; [intros H; contradiction H; reflexivity|].
  split; [intros _ Hnone; contradiction|].
  split.
  - intros _ _. exists name, phone.
    split; [reflexivity|]. split; [reflexivity|]. split.
    + apply Forall_forall. intros c Hc E.
      assert (Contacts.phone_taken phone others = true); [|congruence].
      apply existsb_exists. exists c.
      split; [apply list_elem_of_In; exact Hc|apply String.eqb_eq; exact E].
    + split; [|repeat split].
      apply Forall2_map_self. intros c. destruct (contact_id c =? id); reflexivity.
  - intros _ [Hbad|[Hbad|(phone' & E & Hdup)]]; try discriminate.
    injection E as <-.
    assert (Contacts.phone_taken phone others = true); [|congruence].
    apply existsb_exists. apply Exists_exists in Hdup as (c & Hc & E).
    exists c. split; [apply list_elem_of_In; exact Hc|apply String.eqb_eq; exact E].
Qed.

Lemma update_contact_outcomes_witness :
  (Contacts.update_contact 9 (contact_of "" "" "") two_contacts).2 = two_contacts /\
  Contacts.update_contact 2 (contact_of "Bob" "+15550100" "") two_contacts
    = (Contacts.ServerError, two_contacts) /\
  map contact_phone_number
    (contacts_table (Contacts.update_contact 2 (contact_of "" " 0 " "") two_contacts).2)
    = ["+15550100"; " 0 "]%string.
Proof.
  split; [|split].
  - apply (proj1 (proj2 (update_contact_outcomes 9 (contact_of "" "" "") two_contacts))).
    + reflexivity.
    + repeat constructor; vm_compute; discriminate.
  - apply (proj2 (proj2 (proj2 (update_contact_outcomes 2 (contact_of "Bob" "+15550100" "")
                                  two_contacts)))).
    + right. left. reflexivity.
    + right. right. exists "+15550100"%string. split; [reflexivity|].
      left. reflexivity.
  - destruct (proj1 (proj2 (proj2 (update_contact_outcomes 2 (contact_of "" " 0 " "")
                                     two_contacts))))
      as (name & phone & _ & Hphone & _ & Hrows & _).
    + reflexivity.
    + right. left. reflexivity.
    + injection Hphone as <-. vm_compute. reflexivity.
Defined.

(** X21: what [delete_contact] removes.  By the answer: with any
    answer but a success nothing is written; with a success the
    contacts are afterwards those that had another id, in their order,
    and the other tables are as they were.  Deleting an id that no
    contact has changes nothing, so that a delete repeated after a
    success is without effect; and the sequence of the table is kept,
    so that a contact added later does not get the id again. *)
Theorem delete_contact_removes id db :
  let result := Contacts.delete_contact id db in
  (result.1 <> Contacts.Deleted -> result.2 = db) /\
  (Forall (fun c => contact_id c <> id) (contacts_table db) -> result.2 = db) /\
  (result.1 = Contacts.Deleted ->
   contacts_table result.2 = filter (fun c => contact_id c <> id) (contacts_table db) /\
   (forall c, In c (contacts_table result.2) <->
              In c (contacts_table db) /\ contact_id c <> id) /\
   (Contacts.delete_contact id result.2).2 = result.2 /\
   contacts_sequence result.2 = contacts_sequence db /\
   calls_table result.2 = calls_table db /\
   calls_sequence result.2 = calls_sequence db /\
   transcripts_table result.2 = transcripts_table db /\
   transcripts_sequence result.2 = transcripts_sequence db /\
   (forall data now new db',
      Contacts.add_contact data now result.2 = (Contacts.Added new, db') ->
      contacts_sequence db < new)).
Proof.
  intros result. subst result.
  unfold Contacts.delete_contact, bind_int.
  destruct (fits_int64 id) eqn:Hfit.
  2:{ cbn [fst snd]. split; [reflexivity|]. split; [reflexivity|]. discriminate. }
  cbn [fst snd Contacts.with_contacts contacts_table contacts_sequence
         calls_table calls_sequence transcripts_table transcripts_sequence].
  split; [intros H; contradiction H; reflexivity|].
  split; [intros Hnone; rewrite (filter_all _ _ Hnone); apply with_contacts_same|].
  intros _.
  split; [reflexivity|]. split; [|split; [|split; [|split; [|split; [|split; [|split]]]]]];
    try reflexivity.
  - intros c. rewrite <- !list_elem_of_In, list_elem_of_filter. tauto.
  - f_equal. apply filter_all. apply Forall_forall. intros c Hc.
    apply list_elem_of_filter in Hc as [Hc _]. exact Hc.
  - intros data now new db' Hadd.
    match type of Hadd with
    | Contacts.add_contact _ _ ?after = _ =>
        pose proof (add_contact_writes data now after) as Heffect
    end.
    cbv zeta in Heffect. rewrite Hadd in Heffect.
    cbn [fst snd contacts_sequence] in Heffect.
    destruct Heffect as (? & ? & ? & ? & ? & _ & _ & _ & _ & Hseq & _).
    exact Hseq.
Qed.

Lemma delete_contact_removes_witness :
  let result := Contacts.delete_contact 1 two_contacts in
  map contact_name (contacts_table result.2) = ["Bob Roe"%string] /\
  (Contacts.delete_contact 1 result.2).2 = result.2 /\
  (Contacts.add_contact (contact_of "Joanne Doe" "+15550100" "") 300 result.2).1
    = Contacts.Added 3.
Proof.
  intros result.
  destruct (proj2 (proj2 (delete_contact_removes 1 two_contacts)) eq_refl)
    as (Htable & _ & Hagain & _).
  split; [|split; [exact Hagain|vm_compute; reflexivity]].
  unfold result. rewrite Htable. vm_compute. reflexivity.
Defined.

(** ** Transcripts *)

#[local] Instance not_later_transitive : Transitive Transcripts.not_later.
Proof. intros x y z. unfold Transcripts.not_later. lia. Qed.

#[local] Instance not_later_total : Total Transcripts.not_later.
Proof. intros x y. unfold Transcripts.not_later. lia. Qed.

(** What [get_transcript] lists. *)
Lemma get_transcript_lists call_id db :
  fits_int64 call_id = true ->
  exists messages,
    Transcripts.get_transcript call_id db
      = Transcripts.Transcript (map Transcripts.selected messages) call_id /\
    Sorted.StronglySorted Transcripts.not_later messages /\
    (forall m, In m messages <->
               In m (transcripts_table db) /\ transcript_call_id m = call_id) /\
    (forall time,
       filter (fun m => transcript_timestamp m = time) messages
       = filter (fun m => transcript_timestamp m = time)
           (filter (fun m => transcript_call_id m = call_id) (transcripts_table db))).
Proof.
  intros Hfit. unfold Transcripts.get_transcript, bind_int. rewrite Hfit.
  eexists. split; [reflexivity|]. split; [|split].
  - apply StronglySorted_order_by; apply _.
  - intros m. unfold Transcripts.oldest_first. rewrite <- !list_elem_of_In.
    rewrite (order_by_Permutation Transcripts.not_later _).
    rewrite list_elem_of_filter. tauto.
  - intros time. unfold Transcripts.oldest_first. apply order_by_stable.
    intros a b Ha Hb. unfold Transcripts.not_later. lia.
Qed.

(** X22: [get_transcript], for a call id that fits 64 bits, lists the
    messages stored for that call and no other message, ordered by
    their time; the messages of one second are listed in the order in
    which they were stored. *)
Theorem get_transcript_lists_the_call call_id db :
  fits_int64 call_id = true ->
  exists messages,
    Transcripts.get_transcript call_id db
      = Transcripts.Transcript (map Transcripts.selected messages) call_id /\
    Sorted.StronglySorted Transcripts.not_later messages /\
    (forall m, In m messages <->
               In m (transcripts_table db) /\ transcript_call_id m = call_id) /\
    (forall time,
       filter (fun m => transcript_timestamp m = time) messages
       = filter (fun m => transcript_timestamp m = time)
           (filter (fun m => transcript_call_id m = call_id) (transcripts_table db))).
Proof. exact (get_transcript_lists call_id db). Qed.

Lemma get_transcript_lists_the_call_witness :
  exists messages,
    Transcripts.get_transcript 7 four_messages
      = Transcripts.Transcript (map Transcripts.selected messages) 7 /\
    map (column "id") (map Transcripts.selected messages)
      = [Some (SqlInt 4); Some (SqlInt 1); Some (SqlInt 3)] /\
    map transcript_id (filter (fun m => transcript_timestamp m = 100) messages) = [1; 3].
Proof.
  destruct (get_transcript_lists_the_call 7 four_messages eq_refl)
    as (messages & Hlist & _ & _ & Hstable).
  exists messages. split; [exact Hlist|]. split.
  - assert (Hrows : Transcripts.get_transcript 7 four_messages
                    = Transcripts.Transcript
                        (map Transcripts.selected
                           (Transcripts.oldest_first
                              (filter (fun m => transcript_call_id m = 7)
                                 (transcripts_table four_messages)))) 7) by reflexivity.
    rewrite Hrows in Hlist. injection Hlist as <-. vm_compute. reflexivity.
  - rewrite (Hstable 100). vm_compute. reflexivity.
Defined.

(** X23: what [add_transcript_message] writes, and that it is read
    back.  Unless the answer carries the id of a new message, the
    database is left as it was.  With it, the message of the body,
    which is a string and not empty, was appended to the transcripts
    under a fresh id, with the speaker of the body (['unknown'] when
    the key is absent) and the call id of the URL, whether or not the
    calls table has a call with that id; [get_transcript] for that call
    then lists the message, and the transcript of every other call is
    what it was. *)
Theorem add_transcript_message_effect call_id speaker message now db :
  let result := Transcripts.add_transcript_message call_id speaker message now db in
  match result.1 with
  | Transcripts.Added id =>
      exists who text,
        get_default speaker "unknown" = Some who /\
        message = Str text /\ text <> "" /\
        transcripts_sequence db < id /\
        Forall (fun m => transcript_id m < id) (transcripts_table db) /\
        transcripts_table result.2
          = transcripts_table db ++
              [ {| transcript_id := id; transcript_call_id := call_id;
                   transcript_speaker := who; transcript_message := text;
                   transcript_timestamp := now |} ] /\
        transcripts_sequence result.2 = id /\
        calls_table result.2 = calls_table db /\
        calls_sequence result.2 = calls_sequence db /\
        contacts_table result.2 = contacts_table db /\
        contacts_sequence result.2 = contacts_sequence db /\
        (exists rows row,
           Transcripts.get_transcript call_id result.2 = Transcripts.Transcript rows call_id /\
           In row rows /\
           column "id" row = Some (SqlInt id) /\
           column "speaker" row = Some (SqlText who) /\
           column "message" row = Some (SqlText text)) /\
        (forall other, other <> call_id ->
           Transcripts.get_transcript other result.2 = Transcripts.get_transcript other db)
  | _ => result.2 = db
  end.
Proof.
  unfold Transcripts.add_transcript_message.
  destruct (truthy (get_default message "")) eqn:Hm; cbn [negb]; [|reflexivity].
  unfold bind_int.
  destruct (fits_int64 call_id) eqn:Hfit; [|reflexivity].
  destruct (get_default speaker "unknown") as [who|] eqn:Hwho; [|reflexivity].
  destruct (get_default message "") as [text|] eqn:Htext; [|reflexivity].
  destruct (next_rowid (transcripts_sequence db) (map transcript_id (transcripts_table db)))
    as [id|] eqn:Hid; [|reflexivity].
  destruct (next_rowid_fresh _ _ _ Hid) as (Hseq & Hids & _).
  cbn [fst snd transcripts_table transcripts_sequence calls_table calls_sequence
         contacts_table contacts_sequence].
  assert (Hstr : message = Str text /\ text <> "").
  { destruct message as [| |s]; cbn in Htext; try discriminate;
      injection Htext as <-; cbn in Hm; try discriminate.
    split; [reflexivity|]. intros ->. discriminate. }
  destruct Hstr as [Hmsg Hne].
  set (new := {| transcript_id := id; transcript_call_id := call_id;
                 transcript_speaker := who; transcript_message := text;
                 transcript_timestamp := now |}).
  set (db' := {| calls_table := calls_table db; calls_sequence := calls_sequence db;
                 contacts_table := contacts_table db;
                 contacts_sequence := contacts_sequence db;
                 transcripts_table := transcripts_table db ++ [new];
                 transcripts_sequence := id |}).
  exists who, text.
  split; [reflexivity|]. split; [exact Hmsg|]. split; [exact Hne|].
  split; [exact Hseq|]. split; [apply Forall_map in Hids; exact Hids|].
  split; [reflexivity|]. split; [reflexivity|]. split; [reflexivity|].
  split; [reflexivity|]. split; [reflexivity|]. split; [reflexivity|].
  split.
  - destruct (get_transcript_lists call_id db' Hfit) as (messages & Hlist & _ & Hin & _).
    exists (map Transcripts.selected messages), (Transcripts.selected new).
    split; [exact Hlist|]. split; [|repeat split].
    apply in_map. apply Hin. split; [|reflexivity].
    cbn [db' transcripts_table]. apply in_or_app. right. left. reflexivity.
  - intros other Hother. unfold Transcripts.get_transcript.
    destruct (bind_int other) as [i|] eqn:Hi; [|reflexivity].
    cbn [db' transcripts_table]. rewrite filter_app, filter_cons, filter_nil.
    assert (i = other) as ->.
    { unfold bind_int in Hi. destruct (fits_int64 other); [|discriminate].
      injection Hi as <-. reflexivity. }
    destruct (decide (transcript_call_id new = other)) as [E|_];
      [cbn in E; congruence|].
    rewrite app_nil_r. reflexivity.
Qed.

Lemma add_transcript_message_effect_witness :
  let result := Transcripts.add_transcript_message 7 Absent (Str "Hello") 100 empty_database in
  result.1 = Transcripts.Added 1 /\
  map transcript_speaker (transcripts_table result.2) = ["unknown"%string] /\
  calls_table result.2 = [].
Proof.
  intros result.
  pose proof (add_transcript_message_effect 7 Absent (Str "Hello") 100 empty_database)
    as Heffect.
  cbv zeta in Heffect.
  change (Transcripts.add_transcript_message 7 Absent (Str "Hello") 100 empty_database)
    with result in Heffect.
  assert (Hreply : result.1 = Transcripts.Added 1) by (vm_compute; reflexivity).
  rewrite Hreply in Heffect.
  destruct Heffect as (who & text & Hwho & _ & _ & _ & _ & Htable & _ & Hcalls & _).
  split; [exact Hreply|]. split; [|exact Hcalls].
  rewrite Htable. injection Hwho as <-. reflexivity.
Defined.

(** ** The constraints of the schema are kept *)

Lemma not_in_map_lt {A} (id : A -> Z) (i : Z) (rows : list A) :
  Forall (fun r => id r < i) rows -> i ∉ map id rows.
Proof.
  intros H Hin. apply list_elem_of_In, in_map_iff in Hin as (r & E & Hr).
  apply list_elem_of_In in Hr.
  pose proof (proj1 (Forall_forall _ _) H r Hr) as Hlt. cbv beta in Hlt. lia.
Qed.

Lemma rowids_append {A} (id : A -> Z) sequence rows i new :
  rowids_in_sequence id sequence rows ->
  next_rowid sequence (map id rows) = Ok i -> id new = i ->
  rowids_in_sequence id i (rows ++ [new]).
Proof.
  intros (Hnd & Hseq & Hids) Hi Hnew.
  destruct (next_rowid_fresh _ _ _ Hi) as (Hlt & Hfresh & _).
  apply Forall_map in Hfresh.
  split; [|split; [lia|]].
  - rewrite map_app. apply NoDup_app. split; [exact Hnd|]. split.
    + intros x Hx Hx'. cbn [map] in Hx'. apply list_elem_of_singleton in Hx' as ->.
      rewrite Hnew in Hx. revert Hx. apply not_in_map_lt. exact Hfresh.
    + cbn [map]. apply NoDup_singleton.
  - apply Forall_app. split.
    + eapply Forall_impl; [exact Hids|]. intros r Hr. cbv beta in *. lia.
    + repeat constructor; lia.
Qed.

Lemma rowids_map {A} (id : A -> Z) sequence rows (f : A -> A) :
  (forall r, id (f r) = id r) ->
  rowids_in_sequence id sequence rows -> rowids_in_sequence id sequence (map f rows).
Proof.
  intros Hf (Hnd & Hseq & Hids).
  split; [|split; [exact Hseq|]].
  - rewrite map_map. rewrite (map_ext _ id) by exact Hf. exact Hnd.
  - apply Forall_map. eapply Forall_impl; [exact Hids|].
    intros r Hr. cbv beta. rewrite Hf. exact Hr.
Qed.

Lemma NoDup_map_filter {A B} (g : A -> B) (P : A -> Prop) `{forall a, Decision (P a)}
    (l : list A) :
  NoDup (map g l) -> NoDup (map g (filter P l)).
Proof.
  induction l as [|a l IH]; [intros; constructor|].
  cbn [map]. intros Hnd. apply NoDup_cons in Hnd as [Hnotin Hnd].
  rewrite filter_cons. destruct (decide (P a)); [|apply IH; exact Hnd].
  cbn [map]. apply NoDup_cons. split; [|apply IH; exact Hnd].
  intros Hin. apply Hnotin.
  apply list_elem_of_In, in_map_iff in Hin as (x & E & Hx).
  apply list_elem_of_In, in_map_iff. exists x. split; [exact E|].
  apply list_elem_of_In in Hx. apply list_elem_of_filter in Hx as [_ Hx].
  apply list_elem_of_In. exact Hx.
Qed.

Lemma rowids_filter {A} (id : A -> Z) sequence rows (P : A -> Prop)
    `{forall a, Decision (P a)} :
  rowids_in_sequence id sequence rows -> rowids_in_sequence id sequence (filter P rows).
Proof.
  intros (Hnd & Hseq & Hids).
  split; [apply NoDup_map_filter; exact Hnd|]. split; [exact Hseq|].
  apply Forall_forall. intros r Hr. apply list_elem_of_filter in Hr as [_ Hr].
  exact (proj1 (Forall_forall _ _) Hids r Hr).
Qed.

Lemma phone_free phone contacts :
  Contacts.phone_taken phone contacts = false ->
  Forall (fun c => contact_phone_number c <> phone) contacts.
Proof.
  unfold Contacts.phone_taken. induction contacts as [|c l IH]; [constructor|].
  cbn [existsb]. intros H. apply orb_false_iff in H as [Hc Hl].
  constructor; [apply String.eqb_neq; exact Hc|apply IH; exact Hl].
Qed.

Lemma phones_after_update id (upd : contact_row -> contact_row) phone contacts :
  (forall c, contact_phone_number (upd c) = phone) ->
  NoDup (map contact_id contacts) ->
  NoDup (map contact_phone_number contacts) ->
  Forall (fun c => contact_phone_number c <> phone)
    (filter (fun c => contact_id c <> id) contacts) ->
  NoDup (map contact_phone_number
           (map (fun c => if contact_id c =? id then upd c else c) contacts)).
Proof.
  intros Hupd. induction contacts as [|c l IH]; [intros; constructor|].
  cbn [map]. intros Hids Hphones Hfree.
  apply NoDup_cons in Hids as [Hid Hids]. apply NoDup_cons in Hphones as [Hphone Hphones].
  rewrite filter_cons in Hfree.
  destruct (contact_id c =? id) eqn:E.
  - apply Z.eqb_eq in E.
    destruct (decide (contact_id c <> id)) as [Hne|_]; [contradiction|].
    assert (Hnone : Forall (fun c' => contact_id c' <> id) l).
    { apply Forall_forall. intros c' Hc' E'. apply Hid. rewrite E, <- E'.
      apply list_elem_of_In, in_map. apply list_elem_of_In. exact Hc'. }
    rewrite (filter_all _ _ Hnone) in Hfree.
    rewrite (map_unless_matching upd (fun c => contact_id c =? id)).
    + rewrite Hupd. apply NoDup_cons. split; [|exact Hphones].
      intros Hin. apply list_elem_of_In, in_map_iff in Hin as (c' & E' & Hc').
      apply list_elem_of_In in Hc'.
      exact (proj1 (Forall_forall _ _) Hfree c' Hc' E').
    + eapply Forall_impl; [exact Hnone|]. intros c' Hc'. apply Z.eqb_neq. exact Hc'.
  - apply Z.eqb_neq in E.
    destruct (decide (contact_id c <> id)) as [_|Hno]; [|contradiction].
    apply Forall_cons in Hfree as [Hc Hfree].
    apply NoDup_cons. split; [|apply IH; assumption].
    intros Hin. apply list_elem_of_In, in_map_iff in Hin as (c' & E' & Hc').
    apply in_map_iff in Hc' as (c'' & <- & Hc'').
    destruct (contact_id c'' =? id).
    + rewrite Hupd in E'. congruence.
    + apply Hphone. rewrite <- E'. apply list_elem_of_In, in_map. exact Hc''.
Qed.

Lemma update_call_consistent db call_id data now :
  consistent db ->
  consistent (with_calls db (calls_after (update_call call_id data now (calls_table db)))).
Proof.
  intros (Hcalls & Hcontacts & Htranscripts & Hphones & Hvalid).
  destruct (update_call_uniform call_id data now) as (f & -> & Hf).
  assert (Hid : forall r, row_id (if row_id r =? call_id then f r else r) = row_id r).
  { intros r. destruct (row_id r =? call_id); [|reflexivity].
    specialize (Hf r). unfold dispatched_as in Hf. congruence. }
  assert (Hphone : forall r, row_phone_number (if row_id r =? call_id then f r else r)
                             = row_phone_number r).
  { intros r. destruct (row_id r =? call_id); [|reflexivity].
    specialize (Hf r). unfold dispatched_as in Hf. congruence. }
  unfold consistent, with_calls.
  cbn [calls_table calls_sequence contacts_table contacts_sequence
         transcripts_table transcripts_sequence].
  split; [apply (rowids_map row_id _ _ _ Hid Hcalls)|].
  split; [exact Hcontacts|]. split; [exact Htranscripts|]. split; [exact Hphones|].
  apply Forall_map. eapply Forall_impl; [exact Hvalid|].
  intros r Hr. cbv beta. rewrite Hphone. exact Hr.
Qed.

Lemma make_call_consistent db env field drawn created now :
  consistent db -> consistent (Dialer.make_call env field drawn created now db).2.
Proof.
  intros Hdb. pose proof (make_call_writes env field drawn created now db) as Heffect.
  cbv zeta in Heffect.
  destruct (Dialer.make_call env field drawn created now db) as [answer db'] eqn:Hcall.
  cbn [fst snd] in *.
  destruct answer; try (rewrite Heffect; exact Hdb).
  destruct Heffect as (_ & Hvalid & _ & _ & Hcalls & _ & _ & Hseq & Hcontacts & Hcseq & Ht & Htseq).
  assert (Hnext : next_rowid (calls_sequence db) (map row_id (calls_table db)) = Ok call_id).
  { unfold Dialer.make_call in Hcall.
    destruct (get_default field "") as [given|]; [|discriminate].
    destruct (negb (nonempty (strip given))); [discriminate|].
    destruct (negb (String.prefix "+" (strip given))); [discriminate|].
    destruct (String.length (strip given) <? 8)%nat; [discriminate|].
    destruct (negb _); [discriminate|].
    unfold Dialer.dispatch_call, Dialer.insert_call in Hcall.
    destruct (created _); [|discriminate].
    destruct (next_rowid _ _) as [i|]; cbn [pybind] in Hcall; [|discriminate].
    injection Hcall as <- _ _ _ _. reflexivity. }
  destruct Hdb as (Dcalls & Dcontacts & Dtranscripts & Dphones & Dvalid).
  unfold consistent. rewrite Hcalls, Hseq, Hcontacts, Hcseq, Ht, Htseq.
  split; [apply (rowids_append row_id _ _ _ _ Dcalls Hnext); reflexivity|].
  split.
  { apply rowids_map; [|exact Dcontacts].
    intros c. destruct (String.eqb _ _); reflexivity. }
  split; [exact Dtranscripts|]. split.
  - rewrite map_map. rewrite (map_ext _ contact_phone_number); [exact Dphones|].
    intros c. destruct (String.eqb _ _); reflexivity.
  - apply Forall_app. split; [exact Dvalid|]. constructor; [exact Hvalid|constructor].
Qed.

Lemma add_contact_consistent db data now :
  consistent db -> consistent (Contacts.add_contact data now db).2.
Proof.
  intros Hdb. pose proof (add_contact_writes data now db) as Heffect.
  cbv zeta in Heffect.
  destruct (Contacts.add_contact data now db) as [answer db'] eqn:Hadd.
  cbn [fst snd] in *.
  destruct answer as [new| | | | | |]; try (rewrite Heffect; exact Hdb).
  destruct Heffect as (name & phone & company & notes & tags & Hs & _ & _ & Hfree & _ & _ &
                       Htable & Hseq & Hcalls & Hcseq & Ht & Htseq).
  assert (Hnext : next_rowid (contacts_sequence db) (map contact_id (contacts_table db))
                  = Ok new).
  { unfold Contacts.add_contact in Hadd. rewrite Hs in Hadd.
    destruct (negb (nonempty name) || negb (nonempty phone)); [discriminate|].
    destruct (next_rowid _ _) as [i|]; [|discriminate].
    destruct (Contacts.phone_taken _ _); [discriminate|].
    injection Hadd as <- _. reflexivity. }
  destruct Hdb as (Dcalls & Dcontacts & Dtranscripts & Dphones & Dvalid).
  unfold consistent. rewrite Htable, Hseq, Hcalls, Hcseq, Ht, Htseq.
  split; [exact Dcalls|].
  split; [apply (rowids_append contact_id _ _ _ _ Dcontacts Hnext); reflexivity|].
  split; [exact Dtranscripts|]. split; [|exact Dvalid].
  rewrite map_app. apply NoDup_app. split; [exact Dphones|]. split.
  - intros x Hx Hx'. cbn [map contact_phone_number] in Hx'.
    apply list_elem_of_singleton in Hx' as ->.
    apply list_elem_of_In, in_map_iff in Hx as (c & E & Hc).
    apply list_elem_of_In in Hc.
    exact (proj1 (Forall_forall _ _) Hfree c Hc E).
  - apply NoDup_singleton.
Qed.

Lemma update_contact_consistent db id data :
  consistent db -> consistent (Contacts.update_contact id data db).2.
Proof.
  intros Hdb. unfold Contacts.update_contact.
  destruct (bind_int id) as [i|]; [|exact Hdb].
  destruct (existsb _ _); [|exact Hdb].
  destruct (get (Contacts.name data)) as [name|]; [|exact Hdb].
  destruct (get (Contacts.phone_number data)) as [phone|]; [|exact Hdb].
  destruct (Contacts.phone_taken _ _) eqn:Htaken; [exact Hdb|].
  destruct Hdb as (Dcalls & Dcontacts & Dtranscripts & Dphones & Dvalid).
  unfold consistent, Contacts.with_contacts.
  cbn [fst snd calls_table calls_sequence contacts_table contacts_sequence
         transcripts_table transcripts_sequence].
  split; [exact Dcalls|]. split.
  { apply rowids_map; [|exact Dcontacts].
    intros c. destruct (contact_id c =? i); reflexivity. }
  split; [exact Dtranscripts|]. split; [|exact Dvalid].
  apply (phones_after_update i
           (fun c => {| contact_id := contact_id c; contact_name := name;
                        contact_phone_number := phone;
                        contact_company := get_default (Contacts.company data) "";
                        contact_notes := get_default (Contacts.notes data) "";
                        contact_tags := get_default (Contacts.tags data) "";
                        contact_created_at := contact_created_at c;
                        contact_last_called := contact_last_called c |}) phone).
  - reflexivity.
  - apply Dcontacts.
  - exact Dphones.
  - apply phone_free. exact Htaken.
Qed.

Lemma delete_contact_consistent db id :
  consistent db -> consistent (Contacts.delete_contact id db).2.
Proof.
  intros Hdb. unfold Contacts.delete_contact.
  destruct (bind_int id) as [i|]; [|exact Hdb].
  destruct Hdb as (Dcalls & Dcontacts & Dtranscripts & Dphones & Dvalid).
  unfold consistent, Contacts.with_contacts.
  cbn [fst snd calls_table calls_sequence contacts_table contacts_sequence
         transcripts_table transcripts_sequence].
  split; [exact Dcalls|]. split; [apply rowids_filter; exact Dcontacts|].
  split; [exact Dtranscripts|]. split; [|exact Dvalid].
  apply NoDup_map_filter. exact Dphones.
Qed.

Lemma add_transcript_message_consistent db call_id speaker message now :
  consistent db ->
  consistent (Transcripts.add_transcript_message call_id speaker message now db).2.
Proof.
  intros Hdb. unfold Transcripts.add_transcript_message.
  destruct (negb _); [exact Hdb|].
  destruct (bind_int call_id) as [i|]; [|exact Hdb].
  destruct (get_default speaker "unknown") as [who|]; [|exact Hdb].
  destruct (get_default message "") as [text|]; [|exact Hdb].
  destruct (next_rowid _ _) as [id|] eqn:Hnext; [|exact Hdb].
  destruct Hdb as (Dcalls & Dcontacts & Dtranscripts & Dphones & Dvalid).
  unfold consistent.
  cbn [fst snd calls_table calls_sequence contacts_table contacts_sequence
         transcripts_table transcripts_sequence].
  split; [exact Dcalls|]. split; [exact Dcontacts|].
  split; [|split; assumption].
  apply (rowids_append transcript_id _ _ _ _ Dtranscripts Hnext). reflexivity.
Qed.

(** X24: the handlers keep the database consistent.  The empty
    database is consistent, and from a consistent database each handler
    that writes ([make_call], [update_call], [add_contact],
    [update_contact], [delete_contact], [add_transcript_message])
    leaves a consistent one, whatever the request and its answer: in
    each table the ids are distinct, positive and not above the
    sequence of the table; no two contacts have the same phone number;
    and the phone number of every call starts with [+], has at least 8
    characters and no white space around it. *)
Theorem handlers_keep_the_database_consistent :
  consistent empty_database /\
  forall db, consistent db ->
    (forall env field drawn created now,
       consistent (Dialer.make_call env field drawn created now db).2) /\
    (forall call_id data now,
       consistent (with_calls db (calls_after (update_call call_id data now (calls_table db))))) /\
    (forall data now, consistent (Contacts.add_contact data now db).2) /\
    (forall id data, consistent (Contacts.update_contact id data db).2) /\
    (forall id, consistent (Contacts.delete_contact id db).2) /\
    (forall call_id speaker message now,
       consistent (Transcripts.add_transcript_message call_id speaker message now db).2).
Proof.
  split.
  - unfold consistent, rowids_in_sequence, empty_database.
    cbn [calls_table calls_sequence contacts_table contacts_sequence
           transcripts_table transcripts_sequence map].
    repeat split; try constructor; lia.
  - intros db Hdb. split; [|split; [|split; [|split; [|split]]]].
    + intros. apply make_call_consistent. exact Hdb.
    + intros. apply update_call_consistent. exact Hdb.
    + intros. apply add_contact_consistent. exact Hdb.
    + intros. apply update_contact_consistent. exact Hdb.
    + intros. apply delete_contact_consistent. exact Hdb.
    + intros. apply add_transcript_message_consistent. exact Hdb.
Qed.

Lemma handlers_keep_the_database_consistent_witness :
  consistent two_contacts /\
  consistent (Contacts.update_contact 1 (contact_of "J. Doe" "+15550101" "") two_contacts).2.
Proof.
  destruct handlers_keep_the_database_consistent as [Hempty Hstep].
  assert (Hone : consistent (Contacts.add_contact (contact_of " Joanne Doe" "+15550100 " "Acme")
                               100 empty_database).2).
  { apply (Hstep empty_database Hempty). }
  assert (Htwo : consistent two_contacts).
  { apply (Hstep _ Hone). }
  split; [exact Htwo|]. apply (Hstep _ Htwo).
Defined.

(** ** The agent configuration *)

Lemma append_assoc a b c : (a +:+ b) +:+ c = a +:+ (b +:+ c).
Proof. induction a as [|x a IH]; [reflexivity|]. rewrite !append_cons, IH. reflexivity. Qed.

Lemma append_nil_r a : a +:+ "" = a.
Proof. induction a as [|x a IH]; [reflexivity|]. rewrite append_cons, IH. reflexivity. Qed.

Lemma length_append a b : String.length (a +:+ b) = (String.length a + String.length b)%nat.
Proof. induction a as [|x a IH]; [reflexivity|]. rewrite append_cons. cbn [String.length]. lia. Qed.

Lemma every_append p a b : every p (a +:+ b) = every p a && every p b.
Proof.
  induction a as [|x a IH]; [reflexivity|].
  rewrite append_cons. cbn [every]. rewrite IH, andb_assoc. reflexivity.
Qed.

Lemma literal_append key rest : AgentConfig.literal key (key +:+ rest) = Some rest.
Proof.
  induction key as [|x key IH]; [destruct rest; reflexivity|].
  rewrite append_cons. cbn [AgentConfig.literal]. rewrite Ascii.eqb_refl. exact IH.
Qed.

Lemma literal_sound key text rest :
  AgentConfig.literal key text = Some rest -> text = key +:+ rest.
Proof.
  revert text. induction key as [|x key IH]; intros text H.
  - destruct text; cbn in H; injection H as <-; reflexivity.
  - destruct text as [|y text]; cbn [AgentConfig.literal] in H; [discriminate|].
    destruct (Ascii.eqb x y) eqn:E; [|discriminate].
    apply Ascii.eqb_eq in E. subst y. rewrite append_cons. f_equal. apply IH. exact H.
Qed.

Lemma prefix_split u r v x :
  u +:+ r = v +:+ x -> (String.length u <= String.length v)%nat ->
  exists b, v = u +:+ b /\ r = b +:+ x.
Proof.
  revert v. induction u as [|c u IH]; intros v H Hlen.
  - exists v. split; [reflexivity|exact H].
  - destruct v as [|d v]; [cbn in Hlen; lia|].
    rewrite !append_cons in H. injection H as -> H.
    destruct (IH v H) as (b & -> & ->); [cbn in Hlen; lia|].
    exists b. split; reflexivity.
Qed.

Lemma literal_not_before key before s1 s2 rest :
  only_at_the_end key (before +:+ key) ->
  before = s1 +:+ s2 -> s2 <> "" ->
  AgentConfig.literal key (s2 +:+ key +:+ rest) = None.
Proof.
  intros Hend -> Hne.
  destruct (AgentConfig.literal key (s2 +:+ key +:+ rest)) as [r|] eqn:E; [|reflexivity].
  exfalso. apply literal_sound in E. symmetry in E.
  rewrite <- append_assoc in E.
  destruct (prefix_split key r (s2 +:+ key) rest E) as (b & Hb & _).
  { rewrite length_append. lia. }
  assert (b = "") as ->.
  { apply (Hend s1 b). rewrite append_assoc, Hb. reflexivity. }
  rewrite append_nil_r in Hb.
  assert (Hl : String.length (s2 +:+ key) = String.length key) by (rewrite Hb; reflexivity).
  rewrite length_append in Hl. destruct s2; [congruence|cbn in Hl; lia].
Qed.

Lemma lstrip_spaces ws text :
  every isspace ws = true -> lstrip (ws +:+ text) = lstrip text.
Proof.
  induction ws as [|c ws IH]; [reflexivity|].
  cbn [every]. intros H. apply andb_true_iff in H as [Hc Hws].
  rewrite append_cons. cbn [lstrip]. rewrite Hc. apply IH. exact Hws.
Qed.

Lemma lstrip_spaces_before ws c text :
  every isspace ws = true -> isspace c = false ->
  lstrip (ws +:+ String c text) = String c text.
Proof.
  intros Hws Hc. rewrite (lstrip_spaces ws _ Hws). cbn [lstrip]. rewrite Hc. reflexivity.
Qed.

Lemma lstrip_splits text :
  exists ws, every isspace ws = true /\ text = ws +:+ lstrip text.
Proof.
  induction text as [|c text (ws & Hws & IH)]; [exists ""; split; reflexivity|].
  cbn [lstrip]. destruct (isspace c) eqn:Hc.
  - exists (String c ws). split; [cbn [every]; rewrite Hc, Hws; reflexivity|].
    rewrite append_cons, <- IH. reflexivity.
  - exists "". split; reflexivity.
Qed.

Lemma assigned_found key ws1 ws2 c text :
  every isspace ws1 = true -> every isspace ws2 = true -> isspace c = false ->
  AgentConfig.assigned key (key +:+ ws1 +:+ "=" +:+ ws2 +:+ String c text)
  = Some (String c text).
Proof.
  intros H1 H2 Hc. unfold AgentConfig.assigned, AgentConfig.spaces.
  rewrite literal_append. cbn [mbind option_bind].
  rewrite (lstrip_spaces ws1 _ H1).
  change (lstrip ("=" +:+ ws2 +:+ String c text)) with ("=" +:+ ws2 +:+ String c text).
  rewrite literal_append. cbn [mbind option_bind].
  rewrite (lstrip_spaces_before ws2 c _ H2 Hc). reflexivity.
Qed.

Lemma assigned_sound key text rest :
  AgentConfig.assigned key text = Some rest ->
  exists ws1 ws2,
    every isspace ws1 = true /\ every isspace ws2 = true /\
    text = key +:+ ws1 +:+ "=" +:+ ws2 +:+ rest.
Proof.
  unfold AgentConfig.assigned, AgentConfig.spaces. intros H.
  destruct (AgentConfig.literal key text) as [r1|] eqn:E1; cbn [mbind option_bind] in H;
    [|discriminate].
  destruct (AgentConfig.literal "=" (lstrip r1)) as [r2|] eqn:E2;
    cbn [mbind option_bind] in H; [|discriminate].
  injection H as <-.
  apply literal_sound in E1, E2.
  destruct (lstrip_splits r1) as (ws1 & H1 & S1).
  destruct (lstrip_splits r2) as (ws2 & H2 & S2).
  exists ws1, ws2. split; [exact H1|]. split; [exact H2|].
  rewrite E1, S1, E2. rewrite <- S2. reflexivity.
Qed.

Lemma assigned_not_before key before s1 s2 rest :
  only_at_the_end key (before +:+ key) ->
  before = s1 +:+ s2 -> s2 <> "" ->
  AgentConfig.assigned key (s2 +:+ key +:+ rest) = None.
Proof.
  intros Hend Hs Hne. unfold AgentConfig.assigned.
  rewrite (literal_not_before key before s1 s2 rest Hend Hs Hne). reflexivity.
Qed.

Lemma search_skip {A} (pattern_at : string -> option A) before rest :
  (forall s1 s2, before = s1 +:+ s2 -> s2 <> "" -> pattern_at (s2 +:+ rest) = None) ->
  AgentConfig.search pattern_at (before +:+ rest) = AgentConfig.search pattern_at rest.
Proof.
  induction before as [|c before IH]; intros Hnone; [reflexivity|].
  rewrite append_cons.
  assert (H0 : pattern_at (String c (before +:+ rest)) = None).
  { apply (Hnone "" (String c before)); [reflexivity|discriminate]. }
  cbn [AgentConfig.search]. rewrite H0. apply IH.
  intros s1 s2 -> Hne. apply (Hnone (String c s1) s2); [reflexivity|exact Hne].
Qed.

Lemma search_here {A} (pattern_at : string -> option A) text found :
  pattern_at text = Some found -> AgentConfig.search pattern_at text = Some found.
Proof. intros H. destruct text; cbn [AgentConfig.search]; rewrite H; reflexivity. Qed.

Lemma search_sound {A} (pattern_at : string -> option A) text found :
  AgentConfig.search pattern_at text = Some found ->
  exists before rest, text = before +:+ rest /\ pattern_at rest = Some found.
Proof.
  induction text as [|c text IH]; cbn [AgentConfig.search].
  - destruct (pattern_at "") eqn:E; [|discriminate].
    intros H. injection H as <-. exists "", "". split; [reflexivity|exact E].
  - destruct (pattern_at (String c text)) eqn:E.
    + intros H. injection H as <-. exists "", (String c text). split; [reflexivity|exact E].
    + intros H. destruct (IH H) as (before & rest & -> & Hrest).
      exists (String c before), rest. split; [reflexivity|exact Hrest].
Qed.

(** *** The greetings *)

Lemma quote_not_space c : AgentConfig.is_quote c = true -> isspace c = false.
Proof.
  unfold AgentConfig.is_quote. intros H. apply orb_true_iff in H as [H|H];
    apply Ascii.eqb_eq in H; subst c; reflexivity.
Qed.

Lemma lazy_until_quote_sound text group rest :
  AgentConfig.lazy_until_quote text = Some (group, rest) ->
  quote_free group = true /\
  exists q, AgentConfig.is_quote q = true /\ text = group +:+ String q rest.
Proof.
  revert group. induction text as [|c text IH]; intros group H; [discriminate|].
  cbn [AgentConfig.lazy_until_quote] in H.
  destruct (AgentConfig.is_quote c) eqn:Hq.
  - injection H as <- <-. split; [reflexivity|]. exists c. split; [exact Hq|reflexivity].
  - destruct (Ascii.eqb c AgentConfig.line_feed) eqn:Hn; [discriminate|].
    destruct (AgentConfig.lazy_until_quote text) as [[g r]|] eqn:E;
      cbn [mbind option_bind fst snd] in H; [|discriminate].
    injection H as <- <-. destruct (IH g eq_refl) as (Hg & q & Hq' & ->).
    split.
    + unfold quote_free in *. cbn [every]. rewrite Hq, Hn, Hg. reflexivity.
    + exists q. split; [exact Hq'|reflexivity].
Qed.

Lemma lazy_until_quote_found group q rest :
  quote_free group = true -> AgentConfig.is_quote q = true ->
  AgentConfig.lazy_until_quote (group +:+ String q rest) = Some (group, rest).
Proof.
  intros Hg Hq. induction group as [|c group IH].
  - rewrite append_nil. cbn [AgentConfig.lazy_until_quote]. rewrite Hq. reflexivity.
  - unfold quote_free in Hg. cbn [every] in Hg.
    apply andb_true_iff in Hg as [Hc Hg]. apply andb_true_iff in Hc as [Hc1 Hc2].
    apply negb_true_iff in Hc1, Hc2.
    rewrite append_cons. cbn [AgentConfig.lazy_until_quote]. rewrite Hc1, Hc2.
    rewrite (IH Hg). reflexivity.
Qed.

Lemma greeting_at_sound key text group rest :
  AgentConfig.greeting_at key text = Some (group, rest) ->
  exists ws1 ws2 q first others q',
    every isspace ws1 = true /\ every isspace ws2 = true /\
    AgentConfig.is_quote q = true /\ AgentConfig.is_quote q' = true /\
    group = String first others /\
    first <> AgentConfig.line_feed /\ quote_free others = true /\
    text = key +:+ ws1 +:+ "=" +:+ ws2 +:+ String q (group +:+ String q' rest).
Proof.
  unfold AgentConfig.greeting_at. intros H.
  destruct (AgentConfig.assigned key text) as [r1|] eqn:E1; cbn [mbind option_bind] in H;
    [|discriminate].
  destruct (assigned_sound key text r1 E1) as (ws1 & ws2 & H1 & H2 & ->).
  destruct r1 as [|q r1]; cbn [AgentConfig.quote mbind option_bind] in H; [discriminate|].
  destruct (AgentConfig.is_quote q) eqn:Hq; cbn [mbind option_bind] in H; [|discriminate].
  destruct r1 as [|first r1]; cbn [AgentConfig.lazy_some_until_quote] in H; [discriminate|].
  destruct (Ascii.eqb first AgentConfig.line_feed) eqn:Hn; [discriminate|].
  destruct (AgentConfig.lazy_until_quote r1) as [[g r]|] eqn:E;
    cbn [mbind option_bind fst snd] in H; [|discriminate].
  injection H as <- <-.
  destruct (lazy_until_quote_sound r1 g r E) as (Hg & q' & Hq' & ->).
  exists ws1, ws2, q, first, g, q'.
  repeat split; try assumption; try reflexivity.
  apply Ascii.eqb_neq. exact Hn.
Qed.

Lemma greeting_of_get_agent_config which content :
  greeting_of which (AgentConfig.get_agent_config content)
  = AgentConfig.group_or_empty
      (AgentConfig.search (AgentConfig.greeting_at (key_of which)) content).
Proof. destruct which; reflexivity. Qed.

(** X25: a greeting is read up to its first quote.  Whatever the text
    of the file, a greeting that [get_agent_config] returns is empty,
    or it stands in the file after its key, white space, [=], white
    space and a quote, and is followed by a quote (each of them double
    or single, not necessarily the same); it does not start with a
    line feed, and after its first character it contains no quote of
    either kind and no line feed.  So a greeting that is written in
    the file with an apostrophe in it is returned cut at the
    apostrophe. *)
Theorem get_agent_config_greetings_stop_at_a_quote which content :
  let greeting := greeting_of which (AgentConfig.get_agent_config content) in
  greeting = "" \/
  exists before ws1 ws2 q first others q' after,
    every isspace ws1 = true /\ every isspace ws2 = true /\
    AgentConfig.is_quote q = true /\ AgentConfig.is_quote q' = true /\
    greeting = String first others /\
    first <> AgentConfig.line_feed /\ quote_free others = true /\
    content = before +:+ key_of which +:+ ws1 +:+ "=" +:+ ws2
              +:+ String q (greeting +:+ String q' after).
Proof.
  cbv zeta. rewrite greeting_of_get_agent_config.
  destruct (AgentConfig.search (AgentConfig.greeting_at (key_of which)) content)
    as [[group rest]|] eqn:E; [|left; reflexivity].
  right. destruct (search_sound _ _ _ E) as (before & text & -> & Hat).
  destruct (greeting_at_sound (key_of which) text group rest Hat)
    as (ws1 & ws2 & q & first & others & q' & H1 & H2 & Hq & Hq' & Hg & Hf & Ho & ->).
  exists before, ws1, ws2, q, first, others, q', rest.
  cbn [AgentConfig.group_or_empty]. repeat split; assumption || reflexivity.
Qed.

(** The line of the fallback greeting of the configuration file as it
    is shipped: the greeting has an apostrophe, and what is returned is
    its start. *)
Example greeting_with_an_apostrophe :
  AgentConfig.fallback_greeting
    (AgentConfig.get_agent_config
       ("fallback_greeting = " +:+ String AgentConfig.double_quote
          ("Oh hi! Thanks so much for calling Krish Web Solutions. I'm Krish, and I'm here to help you with anything you need. So tell me, what brings you to us today?"
           +:+ String AgentConfig.double_quote EmptyString)))
  = "Oh hi! Thanks so much for calling Krish Web Solutions. I"%string.
Proof. vm_compute. reflexivity. Qed.

(** *** Saving *)

Lemma lazy_until_eq stop text :
  AgentConfig.lazy_until stop text
  = match AgentConfig.literal stop text with
    | Some rest => Some (EmptyString, rest)
    | None =>
        match text with
        | EmptyString => None
        | String c text' =>
            found ← AgentConfig.lazy_until stop text';
            Some (String c found.1, found.2)
        end
    end.
Proof. destruct text; reflexivity. Qed.

Lemma lazy_until_found stop group rest :
  (forall g1 g2, group = g1 +:+ g2 -> g2 <> "" ->
     AgentConfig.literal stop (g2 +:+ stop +:+ rest) = None) ->
  AgentConfig.lazy_until stop (group +:+ stop +:+ rest) = Some (group, rest).
Proof.
  induction group as [|c group IH]; intros Hnone.
  - rewrite append_nil, lazy_until_eq, literal_append. reflexivity.
  - rewrite lazy_until_eq.
    rewrite (Hnone "" (String c group) eq_refl) by discriminate.
    rewrite append_cons. rewrite IH; [reflexivity|].
    intros g1 g2 -> Hne. apply (Hnone (String c g1) g2); [reflexivity|exact Hne].
Qed.

Lemma lazy_until_closed stop group rest :
  exists group' rest',
    AgentConfig.lazy_until stop (group +:+ stop +:+ rest) = Some (group', rest').
Proof.
  induction group as [|c group (g & r & IH)].
  - exists "", rest. rewrite append_nil, lazy_until_eq, literal_append. reflexivity.
  - rewrite lazy_until_eq.
    destruct (AgentConfig.literal stop (String c group +:+ stop +:+ rest)) as [r'|];
      [exists "", r'; reflexivity|].
    rewrite append_cons, IH. exists (String c g), r. reflexivity.
Qed.

Lemma sub_within_first pattern_at (new : string) before text rest steps :
  (forall s1 s2, before = s1 +:+ s2 -> s2 <> "" -> pattern_at (s2 +:+ text) = None) ->
  pattern_at text = Some rest ->
  AgentConfig.sub_within (String.length before + S steps) pattern_at (fun _ => new)
    (before +:+ text)
  = before +:+ new +:+ AgentConfig.sub_within steps pattern_at (fun _ => new) rest.
Proof.
  intros Hnone Hat. induction before as [|c before IH].
  - rewrite !append_nil. cbn [String.length Nat.add AgentConfig.sub_within].
    rewrite Hat. reflexivity.
  - cbn [String.length Nat.add AgentConfig.sub_within].
    rewrite (Hnone "" (String c before) eq_refl) by discriminate.
    rewrite !append_cons. f_equal. apply IH.
    intros s1 s2 -> Hne. apply (Hnone (String c s1) s2); [reflexivity|exact Hne].
Qed.

Lemma sub_first pattern_at (new : string) before text rest :
  (forall s1 s2, before = s1 +:+ s2 -> s2 <> "" -> pattern_at (s2 +:+ text) = None) ->
  pattern_at text = Some rest ->
  AgentConfig.sub pattern_at (fun _ => new) (before +:+ text)
  = before +:+ new
    +:+ AgentConfig.sub_within (String.length text) pattern_at (fun _ => new) rest.
Proof.
  intros Hnone Hat. unfold AgentConfig.sub.
  rewrite length_append, plus_n_Sm. apply sub_within_first; assumption.
Qed.

Lemma sub_within_none pattern_at replacement text steps :
  (forall s1 s2, text = s1 +:+ s2 -> pattern_at s2 = None) ->
  AgentConfig.sub_within steps pattern_at replacement text = text.
Proof.
  revert text. induction steps as [|steps IH]; intros text Hnone; [reflexivity|].
  cbn [AgentConfig.sub_within]. rewrite (Hnone "" text eq_refl).
  destruct text as [|c text]; [reflexivity|]. f_equal. apply IH.
  intros s1 s2 ->. apply (Hnone (String c s1) s2). reflexivity.
Qed.

Lemma literal_absent key text :
  ~ occurs_in key text ->
  forall s1 s2, text = s1 +:+ s2 -> AgentConfig.literal key s2 = None.
Proof.
  intros Habsent s1 s2 ->.
  destruct (AgentConfig.literal key s2) as [rest|] eqn:E; [|reflexivity].
  exfalso. apply Habsent. apply literal_sound in E. exists s1, rest. rewrite E. reflexivity.
Qed.

Lemma without_backslash_plain a b :
  without AgentConfig.backslash a = true ->
  only_quotes_escaped (a +:+ b) = only_quotes_escaped b.
Proof.
  induction a as [|c a IH]; [reflexivity|].
  unfold without. cbn [every]. intros H. apply andb_true_iff in H as [Hc Ha].
  apply negb_true_iff in Hc. rewrite append_cons. cbn [only_quotes_escaped].
  rewrite Hc. apply IH. exact Ha.
Qed.

Lemma escape_quotes_plain a b :
  without AgentConfig.backslash a = true ->
  only_quotes_escaped (AgentConfig.escape_quotes a +:+ b) = only_quotes_escaped b.
Proof.
  induction a as [|c a IH]; [reflexivity|].
  unfold without. cbn [every]. intros H. apply andb_true_iff in H as [Hc Ha].
  apply negb_true_iff in Hc. cbn [AgentConfig.escape_quotes].
  destruct (Ascii.eqb c AgentConfig.double_quote) eqn:Hq.
  - rewrite !append_cons. cbn [only_quotes_escaped].
    change (Ascii.eqb AgentConfig.backslash AgentConfig.backslash) with true.
    change (Ascii.eqb AgentConfig.double_quote AgentConfig.double_quote) with true.
    cbn [andb]. apply IH. exact Ha.
  - rewrite append_cons. cbn [only_quotes_escaped]. rewrite Hc. apply IH. exact Ha.
Qed.

Lemma escape_quotes_none g :
  without AgentConfig.double_quote g = true -> AgentConfig.escape_quotes g = g.
Proof.
  induction g as [|c g IH]; [reflexivity|].
  unfold without. cbn [every]. intros H. apply andb_true_iff in H as [Hc Hg].
  apply negb_true_iff in Hc. cbn [AgentConfig.escape_quotes]. rewrite Hc, IH; [reflexivity|exact Hg].
Qed.

Lemma every_weaken (p q : Ascii.ascii -> bool) s :
  (forall c, p c = true -> q c = true) -> every p s = true -> every q s = true.
Proof.
  intros Hpq. induction s as [|c s IH]; [reflexivity|].
  cbn [every]. intros H. apply andb_true_iff in H as [Hc Hs].
  rewrite (Hpq c Hc), (IH Hs). reflexivity.
Qed.

Lemma quote_free_without_double_quote g :
  quote_free g = true -> without AgentConfig.double_quote g = true.
Proof.
  apply every_weaken. intros c H. apply andb_true_iff in H as [H _].
  unfold AgentConfig.is_quote in H. apply negb_true_iff in H.
  apply orb_false_iff in H as [H _]. rewrite H. reflexivity.
Qed.

Lemma read_back_append a b :
  without AgentConfig.carriage_return a = true ->
  AgentConfig.read_back (a +:+ b) = a +:+ AgentConfig.read_back b.
Proof.
  induction a as [|c a IH]; [reflexivity|].
  unfold without. cbn [every]. intros H. apply andb_true_iff in H as [Hc Ha].
  apply negb_true_iff in Hc. rewrite !append_cons. cbn [AgentConfig.read_back].
  rewrite Hc. f_equal. apply IH. exact Ha.
Qed.

Lemma rstrip_append_space s c : isspace c = true -> rstrip (s +:+ String c "") = rstrip s.
Proof.
  intros Hc. induction s as [|a s IH].
  - rewrite append_nil. cbn [rstrip]. rewrite Hc. reflexivity.
  - rewrite append_cons. cbn [rstrip]. rewrite IH. reflexivity.
Qed.

Lemma strip_between_spaces s a b :
  isspace a = true -> isspace b = true ->
  strip (String a (s +:+ String b "")) = strip s.
Proof.
  intros Ha Hb. unfold strip. cbn [lstrip]. rewrite Ha.
  induction s as [|c s IH].
  - rewrite append_nil. cbn [lstrip]. rewrite Hb. reflexivity.
  - rewrite append_cons. cbn [lstrip]. destruct (isspace c); [exact IH|].
    rewrite <- append_cons. apply rstrip_append_space. exact Hb.
Qed.

Lemma escape_triple_quotes_none prompt :
  ~ occurs_in AgentConfig.triple_quote prompt ->
  AgentConfig.escape_triple_quotes prompt = prompt.
Proof.
  intros Habsent. pose proof (literal_absent _ _ Habsent) as Hnone. clear Habsent.
  induction prompt as [|a prompt IH]; [reflexivity|].
  assert (Htail : AgentConfig.escape_triple_quotes prompt = prompt).
  { apply IH. intros s1 s2 ->. apply (Hnone (String a s1) s2). reflexivity. }
  destruct prompt as [|b [|c rest]]; try reflexivity.
  change (AgentConfig.escape_triple_quotes (String a (String b (String c rest))))
    with (if Ascii.eqb a AgentConfig.double_quote && Ascii.eqb b AgentConfig.double_quote
             && Ascii.eqb c AgentConfig.double_quote
          then String AgentConfig.backslash (String AgentConfig.double_quote
                 (String AgentConfig.backslash (String AgentConfig.double_quote
                    (String AgentConfig.backslash (String AgentConfig.double_quote
                       (AgentConfig.escape_triple_quotes rest))))))
          else String a (AgentConfig.escape_triple_quotes (String b (String c rest)))).
  destruct (Ascii.eqb a AgentConfig.double_quote && Ascii.eqb b AgentConfig.double_quote
            && Ascii.eqb c AgentConfig.double_quote) eqn:E.
  - exfalso. apply andb_true_iff in E as [E Ec]. apply andb_true_iff in E as [Ea Eb].
    apply Ascii.eqb_eq in Ea, Eb, Ec. subst a b c.
    specialize (Hnone "" _ eq_refl). discriminate Hnone.
  - rewrite Htail. reflexivity.
Qed.

Lemma suffix_of_snoc g1 g2 s c :
  g1 +:+ g2 = s +:+ String c "" -> g2 <> "" ->
  exists s2, g2 = s2 +:+ String c "" /\ s = g1 +:+ s2.
Proof.
  revert s. induction g1 as [|x g1 IH]; intros s H Hne.
  - exists s. split; [exact H|reflexivity].
  - destruct s as [|y s].
    + rewrite append_cons, append_nil in H. injection H as _ H.
      destruct g1; [rewrite append_nil in H; contradiction|discriminate].
    + rewrite !append_cons in H. injection H as -> H.
      destruct (IH s H Hne) as (s2 & -> & ->). exists s2. split; reflexivity.
Qed.

Lemma triple_quote_after_line_feed s rest :
  AgentConfig.literal AgentConfig.triple_quote s = None ->
  AgentConfig.literal AgentConfig.triple_quote (s +:+ String AgentConfig.line_feed rest) = None.
Proof.
  intros H.
  destruct s as [|a [|b [|c s]]]; rewrite ?append_cons, ?append_nil;
    cbn [AgentConfig.literal AgentConfig.triple_quote] in *.
  - reflexivity.
  - destruct (Ascii.eqb AgentConfig.double_quote a); reflexivity.
  - destruct (Ascii.eqb AgentConfig.double_quote a); [|reflexivity].
    destruct (Ascii.eqb AgentConfig.double_quote b); reflexivity.
  - destruct (Ascii.eqb AgentConfig.double_quote a); [|reflexivity].
    destruct (Ascii.eqb AgentConfig.double_quote b); [|reflexivity].
    destruct (Ascii.eqb AgentConfig.double_quote c); [discriminate|reflexivity].
Qed.

Lemma triple_quote_not_before prompt rest g1 g2 :
  ~ occurs_in AgentConfig.triple_quote prompt ->
  String AgentConfig.line_feed (prompt +:+ String AgentConfig.line_feed "") = g1 +:+ g2 ->
  g2 <> "" ->
  AgentConfig.literal AgentConfig.triple_quote (g2 +:+ AgentConfig.triple_quote +:+ rest) = None.
Proof.
  intros Habsent H Hne. destruct g1 as [|x g1].
  - rewrite append_nil in H. subst g2. reflexivity.
  - rewrite append_cons in H. injection H as _ H. symmetry in H.
    destruct (suffix_of_snoc g1 g2 prompt _ H Hne) as (s2 & -> & Hs).
    rewrite append_assoc, append_cons, append_nil.
    apply triple_quote_after_line_feed.
    apply (literal_absent _ _ Habsent g1 s2 Hs).
Qed.

Lemma system_prompt_assignment_found ws1 ws2 old after :
  every isspace ws1 = true -> every isspace ws2 = true ->
  exists rest,
    AgentConfig.system_prompt_assignment
      ("SYSTEM_PROMPT" +:+ ws1 +:+ "=" +:+ ws2 +:+ AgentConfig.triple_quote
       +:+ old +:+ AgentConfig.triple_quote +:+ after) = Some rest.
Proof.
  intros H1 H2. unfold AgentConfig.system_prompt_assignment.
  destruct (lazy_until_closed AgentConfig.triple_quote old after) as (g & r & Hclosed).
  exists r.
  change (AgentConfig.triple_quote +:+ old +:+ AgentConfig.triple_quote +:+ after)
    with (String AgentConfig.double_quote
            (String AgentConfig.double_quote (String AgentConfig.double_quote "")
             +:+ old +:+ AgentConfig.triple_quote +:+ after)).
  rewrite (assigned_found _ ws1 ws2 AgentConfig.double_quote _ H1 H2 eq_refl).
  cbn [mbind option_bind].
  change (String AgentConfig.double_quote
            (String AgentConfig.double_quote (String AgentConfig.double_quote "")
             +:+ old +:+ AgentConfig.triple_quote +:+ after))
    with (AgentConfig.triple_quote +:+ old +:+ AgentConfig.triple_quote +:+ after).
  rewrite literal_append. cbn [mbind option_bind].
  rewrite Hclosed. reflexivity.
Qed.

Lemma system_prompt_at_found prompt rest :
  ~ occurs_in AgentConfig.triple_quote prompt ->
  AgentConfig.system_prompt_at
    ("SYSTEM_PROMPT = " +:+ AgentConfig.triple_quote +:+ String AgentConfig.line_feed prompt
     +:+ String AgentConfig.line_feed AgentConfig.triple_quote +:+ rest)
  = Some (String AgentConfig.line_feed (prompt +:+ String AgentConfig.line_feed ""), rest).
Proof.
  intros Habsent. unfold AgentConfig.system_prompt_at.
  set (body := String AgentConfig.line_feed (prompt +:+ String AgentConfig.line_feed "")).
  assert (Hshape :
    "SYSTEM_PROMPT = " +:+ AgentConfig.triple_quote +:+ String AgentConfig.line_feed prompt
      +:+ String AgentConfig.line_feed AgentConfig.triple_quote +:+ rest
    = "SYSTEM_PROMPT" +:+ " " +:+ "=" +:+ " "
      +:+ String AgentConfig.double_quote
            (String AgentConfig.double_quote (String AgentConfig.double_quote "")
             +:+ body +:+ AgentConfig.triple_quote +:+ rest)).
  { unfold body. rewrite ?append_cons, ?append_nil. cbn [AgentConfig.triple_quote].
    rewrite ?append_cons, ?append_nil, ?append_assoc, ?append_cons, ?append_nil.
    repeat f_equal. }
  rewrite Hshape.
  rewrite (assigned_found "SYSTEM_PROMPT" " " " " AgentConfig.double_quote _
             eq_refl eq_refl eq_refl).
  cbn [mbind option_bind].
  change (String AgentConfig.double_quote
            (String AgentConfig.double_quote (String AgentConfig.double_quote "")
             +:+ body +:+ AgentConfig.triple_quote +:+ rest))
    with (AgentConfig.triple_quote +:+ body +:+ AgentConfig.triple_quote +:+ rest).
  rewrite literal_append. cbn [mbind option_bind].
  apply lazy_until_found. intros g1 g2 Hg Hne.
  exact (triple_quote_not_before prompt rest g1 g2 Habsent Hg Hne).
Qed.

Lemma without_append c a b : without c (a +:+ b) = without c a && without c b.
Proof. apply every_append. Qed.

Lemma system_prompt_written
    (template : string -> option (string -> string)) prompt before ws1 ws2 old after :
  keeps_plain_templates template ->
  only_at_the_end "SYSTEM_PROMPT" (before +:+ "SYSTEM_PROMPT") ->
  every isspace ws1 = true -> every isspace ws2 = true ->
  without AgentConfig.backslash prompt = true ->
  ~ occurs_in AgentConfig.triple_quote prompt ->
  exists rest,
    AgentConfig.save_agent_config template (system_prompt_alone prompt)
      (before +:+ "SYSTEM_PROMPT" +:+ ws1 +:+ "=" +:+ ws2 +:+ AgentConfig.triple_quote
       +:+ old +:+ AgentConfig.triple_quote +:+ after)
    = Some (before
            +:+ ("SYSTEM_PROMPT = " +:+ AgentConfig.triple_quote
                 +:+ String AgentConfig.line_feed prompt
                 +:+ String AgentConfig.line_feed AgentConfig.triple_quote)
            +:+ rest).
Proof.
  intros Htemplate Hend H1 H2 Hplain Habsent.
  destruct (system_prompt_assignment_found ws1 ws2 old after H1 H2) as (rest & Hat).
  set (new := "SYSTEM_PROMPT = " +:+ AgentConfig.triple_quote
              +:+ String AgentConfig.line_feed prompt
              +:+ String AgentConfig.line_feed AgentConfig.triple_quote).
  assert (Hnew : template new = Some (fun _ => new)).
  { apply Htemplate. rewrite <- (append_nil_r new).
    rewrite without_backslash_plain; [reflexivity|].
    unfold new, without in *. rewrite !every_append. cbn [every].
    rewrite Hplain. reflexivity. }
  eexists. unfold AgentConfig.save_agent_config, system_prompt_alone.
  cbn [AgentConfig.new_system_prompt AgentConfig.new_initial_greeting
       AgentConfig.new_fallback_greeting AgentConfig.substitute].
  rewrite (escape_triple_quotes_none prompt Habsent).
  fold new. rewrite Hnew. cbn [mbind option_bind]. f_equal.
  apply sub_first; [|exact Hat].
  intros s1 s2 Hs Hne. unfold AgentConfig.system_prompt_assignment.
  rewrite (assigned_not_before _ before s1 s2 _ Hend Hs Hne). reflexivity.
Qed.

Lemma search_eq {A} (pattern_at : string -> option A) text :
  AgentConfig.search pattern_at text
  = match pattern_at text with
    | Some found => Some found
    | None =>
        match text with
        | EmptyString => None
        | String _ text' => AgentConfig.search pattern_at text'
        end
    end.
Proof. destruct text; reflexivity. Qed.

(** The two conditions on the place of a key, as they are checked on a
    given text. *)
Lemma only_at_the_end_found key text :
  AgentConfig.search (AgentConfig.literal key) text = Some EmptyString ->
  only_at_the_end key text.
Proof.
  intros Hfound before after ->. revert Hfound.
  induction before as [|c before IH]; rewrite search_eq.
  - rewrite append_nil, literal_append. congruence.
  - destruct (AgentConfig.literal key (String c before +:+ key +:+ after)) as [r|] eqn:E.
    + intros H. injection H as ->. apply literal_sound in E.
      apply (f_equal String.length) in E.
      rewrite append_cons in E. cbn [String.length] in E.
      rewrite !length_append in E. cbn [String.length] in E. lia.
    + rewrite append_cons. exact IH.
Qed.

Lemma absent_found key text :
  AgentConfig.search (AgentConfig.literal key) text = None -> ~ occurs_in key text.
Proof.
  intros Hnone (before & after & ->). revert Hnone.
  induction before as [|c before IH]; rewrite search_eq.
  - rewrite append_nil, literal_append. discriminate.
  - destruct (AgentConfig.literal key (String c before +:+ key +:+ after)); [discriminate|].
    rewrite append_cons. exact IH.
Qed.

Lemma plain_templates_kept : keeps_plain_templates plain_templates.
Proof. intros t H. unfold plain_templates. rewrite H. reflexivity. Qed.

(** X26: a saved system prompt is read back.  Let the first
    [SYSTEM_PROMPT] of the file be followed by white space, [=], white
    space and a long string in three double quotes that is closed, and
    let the text before it have no carriage return.  A request that
    carries the system prompt alone, for a prompt without a backslash,
    without a carriage return and without three double quotes in a row,
    is answered by writing the file, and [get_agent_config] on the file
    read again returns that prompt, stripped of the white space at its
    two ends.  Assumed of [re.sub]: a replacement text without a
    backslash is put in as it is. *)
Theorem saved_system_prompt_is_read_back
    (template : string -> option (string -> string))
    prompt content before ws1 ws2 old after :
  keeps_plain_templates template ->
  content = before +:+ "SYSTEM_PROMPT" +:+ ws1 +:+ "=" +:+ ws2 +:+ AgentConfig.triple_quote
            +:+ old +:+ AgentConfig.triple_quote +:+ after ->
  only_at_the_end "SYSTEM_PROMPT" (before +:+ "SYSTEM_PROMPT") ->
  every isspace ws1 = true -> every isspace ws2 = true ->
  without AgentConfig.carriage_return before = true ->
  without AgentConfig.backslash prompt = true ->
  without AgentConfig.carriage_return prompt = true ->
  ~ occurs_in AgentConfig.triple_quote prompt ->
  exists written,
    AgentConfig.save_agent_config template (system_prompt_alone prompt) content
    = Some written /\
    AgentConfig.system_prompt (AgentConfig.get_agent_config (AgentConfig.read_back written))
    = strip prompt.
Proof.
  intros Htemplate -> Hend H1 H2 Hbefore Hplain Hreturn Habsent.
  destruct (system_prompt_written template prompt before ws1 ws2 old after
              Htemplate Hend H1 H2 Hplain Habsent) as (rest & Hsaved).
  eexists. split; [exact Hsaved|].
  rewrite (read_back_append before _ Hbefore).
  rewrite read_back_append.
  2:{ unfold without in *. rewrite !every_append. cbn [every].
      rewrite Hreturn. reflexivity. }
  unfold AgentConfig.get_agent_config. cbn [AgentConfig.system_prompt].
  rewrite search_skip.
  - rewrite !append_assoc.
    rewrite (search_here _ _ _ (system_prompt_at_found prompt _ Habsent)).
    cbn [AgentConfig.group_or_empty]. apply strip_between_spaces; reflexivity.
  - intros s1 s2 Hs Hne. unfold AgentConfig.system_prompt_at.
    rewrite !append_assoc.
    change ("SYSTEM_PROMPT = " +:+ ?x) with ("SYSTEM_PROMPT" +:+ " = " +:+ x).
    rewrite (assigned_not_before _ before s1 s2 _ Hend Hs Hne). reflexivity.
Qed.

Lemma saved_system_prompt_is_read_back_witness :
  let content :=
    "# the agent" +:+ String AgentConfig.line_feed
      ("SYSTEM_PROMPT = " +:+ AgentConfig.triple_quote +:+ "You sell websites."
       +:+ AgentConfig.triple_quote +:+ String AgentConfig.line_feed "LANGUAGE = 1") in
  exists written,
    AgentConfig.save_agent_config plain_templates
      (system_prompt_alone " Be brief; say 'hi'. ") content = Some written /\
    AgentConfig.system_prompt (AgentConfig.get_agent_config (AgentConfig.read_back written))
    = "Be brief; say 'hi'."%string.
Proof.
  intros content.
  apply (saved_system_prompt_is_read_back plain_templates " Be brief; say 'hi'. " content
           ("# the agent" +:+ String AgentConfig.line_feed "") " " " "
           "You sell websites." (String AgentConfig.line_feed "LANGUAGE = 1")).
  - exact plain_templates_kept.
  - reflexivity.
  - apply only_at_the_end_found. vm_compute. reflexivity.
  - reflexivity.
  - reflexivity.
  - reflexivity.
  - reflexivity.
  - reflexivity.
  - apply absent_found. vm_compute. reflexivity.
Defined.

Lemma greeting_assignment_found key ws1 ws2 q old q' after :
  every isspace ws1 = true -> every isspace ws2 = true ->
  AgentConfig.is_quote q = true -> AgentConfig.is_quote q' = true ->
  quote_free old = true ->
  AgentConfig.greeting_assignment key
    (key +:+ ws1 +:+ "=" +:+ ws2 +:+ String q (old +:+ String q' after))
  = Some after.
Proof.
  intros H1 H2 Hq Hq' Hold. unfold AgentConfig.greeting_assignment.
  rewrite (assigned_found key ws1 ws2 q _ H1 H2 (quote_not_space q Hq)).
  cbn [mbind option_bind AgentConfig.quote]. rewrite Hq. cbn [mbind option_bind].
  rewrite (lazy_until_quote_found old q' after Hold Hq'). reflexivity.
Qed.

Lemma greeting_at_found key first others q' after :
  first <> AgentConfig.line_feed -> quote_free others = true ->
  AgentConfig.is_quote q' = true ->
  AgentConfig.greeting_at key
    (key +:+ " = " +:+ String AgentConfig.double_quote
                         (String first others +:+ String q' after))
  = Some (String first others, after).
Proof.
  intros Hfirst Hothers Hq'. unfold AgentConfig.greeting_at.
  change (key +:+ " = " +:+ ?x) with (key +:+ " " +:+ "=" +:+ " " +:+ x).
  rewrite (assigned_found key " " " " AgentConfig.double_quote _ eq_refl eq_refl eq_refl).
  cbn [mbind option_bind AgentConfig.quote].
  change (AgentConfig.is_quote AgentConfig.double_quote) with true. cbn [mbind option_bind].
  rewrite append_cons. cbn [AgentConfig.lazy_some_until_quote].
  apply Ascii.eqb_neq in Hfirst. rewrite Hfirst.
  rewrite (lazy_until_quote_found others q' after Hothers Hq'). reflexivity.
Qed.

(** The assignment that is put in place of a greeting. *)
Lemma greeting_written
    (template : string -> option (string -> string))
    which text before ws1 ws2 q old q' after :
  keeps_plain_templates template ->
  only_at_the_end (key_of which) (before +:+ key_of which) ->
  every isspace ws1 = true -> every isspace ws2 = true ->
  AgentConfig.is_quote q = true -> AgentConfig.is_quote q' = true ->
  quote_free old = true ->
  without AgentConfig.backslash text = true ->
  let new := key_of which +:+ " = "
             +:+ String AgentConfig.double_quote
                   (AgentConfig.escape_quotes text +:+ String AgentConfig.double_quote "") in
  exists steps,
    AgentConfig.save_agent_config template (greeting_alone which text)
      (before +:+ key_of which +:+ ws1 +:+ "=" +:+ ws2
       +:+ String q (old +:+ String q' after))
    = Some (before +:+ new
            +:+ AgentConfig.sub_within steps (AgentConfig.greeting_assignment (key_of which))
                  (fun _ => new) after).
Proof.
  intros Htemplate Hend H1 H2 Hq Hq' Hold Hplain new.
  assert (Hnew : template new = Some (fun _ => new)).
  { apply Htemplate. unfold new.
    replace (key_of which +:+ " = " +:+ String AgentConfig.double_quote
               (AgentConfig.escape_quotes text +:+ String AgentConfig.double_quote ""))
      with ((key_of which +:+ " = " +:+ String AgentConfig.double_quote "")
            +:+ AgentConfig.escape_quotes text +:+ String AgentConfig.double_quote "")
      by (rewrite append_assoc; reflexivity).
    rewrite without_backslash_plain by (destruct which; reflexivity).
    rewrite (escape_quotes_plain text _ Hplain). reflexivity. }
  exists (String.length (key_of which +:+ ws1 +:+ "=" +:+ ws2
                         +:+ String q (old +:+ String q' after))).
  assert (Hsub :
    AgentConfig.substitute template (Str text) AgentConfig.escape_quotes
      (fun greeting => key_of which +:+ " = " +:+ String AgentConfig.double_quote greeting
                       +:+ String AgentConfig.double_quote EmptyString)
      (AgentConfig.greeting_assignment (key_of which))
      (before +:+ key_of which +:+ ws1 +:+ "=" +:+ ws2
       +:+ String q (old +:+ String q' after))
    = Some (before +:+ new
            +:+ AgentConfig.sub_within
                  (String.length (key_of which +:+ ws1 +:+ "=" +:+ ws2
                                  +:+ String q (old +:+ String q' after)))
                  (AgentConfig.greeting_assignment (key_of which))
                  (fun _ => new) after)).
  { cbn [AgentConfig.substitute].
    change (key_of which +:+ " = "
            +:+ String AgentConfig.double_quote (AgentConfig.escape_quotes text)
            +:+ String AgentConfig.double_quote "") with new.
    rewrite Hnew. cbn [mbind option_bind]. f_equal.
    apply sub_first.
    - intros s1 s2 Hs Hne. unfold AgentConfig.greeting_assignment.
      rewrite (assigned_not_before _ before s1 s2 _ Hend Hs Hne). reflexivity.
    - apply greeting_assignment_found; assumption. }
  destruct which; unfold AgentConfig.save_agent_config, greeting_alone;
    cbn [AgentConfig.new_system_prompt AgentConfig.new_initial_greeting
         AgentConfig.new_fallback_greeting];
    change (AgentConfig.substitute template Absent ?e ?w ?p ?c) with (Some c);
    cbn [mbind option_bind];
    first [ exact Hsub
          | exact (f_equal (fun saved => saved ≫= (fun content : string => Some content))
                     Hsub) ].
Qed.

Lemma assignment_followed key value rest :
  (key +:+ " = " +:+ String AgentConfig.double_quote
                       (value +:+ String AgentConfig.double_quote "")) +:+ rest
  = key +:+ " = " +:+ String AgentConfig.double_quote
                        (value +:+ String AgentConfig.double_quote rest).
Proof.
  rewrite append_assoc. f_equal.
  change (" = " +:+ String AgentConfig.double_quote ?x)
    with (String " " (String "=" (String " " (String AgentConfig.double_quote x)))).
  rewrite !append_cons, append_assoc, append_cons, append_nil. reflexivity.
Qed.

(** X27: a greeting is replaced up to its first quote.  Let the first
    occurrence of the key of a greeting in the file be followed by white
    space, [=], white space, a quote, a text without a quote and
    without a line feed, and a quote (each quote double or single), and
    let the key not occur after that.  A request that carries this
    greeting alone, without a backslash in it, is answered by writing
    the file with the text from the key to that second quote replaced
    by the key, [ = ] and the new greeting in double quotes, each
    double quote of the greeting after a backslash.  What followed the
    second quote stays: when the old greeting had an apostrophe, that is
    the rest of the old greeting with its closing quote.  Assumed of
    [re.sub]: a replacement text whose backslashes all stand before a
    double quote is put in as it is. *)
Theorem save_agent_config_replaces_up_to_the_first_quote
    (template : string -> option (string -> string))
    which text content before ws1 ws2 q old q' after :
  keeps_plain_templates template ->
  content = before +:+ key_of which +:+ ws1 +:+ "=" +:+ ws2
            +:+ String q (old +:+ String q' after) ->
  only_at_the_end (key_of which) (before +:+ key_of which) ->
  every isspace ws1 = true -> every isspace ws2 = true ->
  AgentConfig.is_quote q = true -> AgentConfig.is_quote q' = true ->
  quote_free old = true ->
  ~ occurs_in (key_of which) after ->
  without AgentConfig.backslash text = true ->
  AgentConfig.save_agent_config template (greeting_alone which text) content
  = Some (before +:+ key_of which +:+ " = "
          +:+ String AgentConfig.double_quote
                (AgentConfig.escape_quotes text +:+ String AgentConfig.double_quote after)).
Proof.
  intros Htemplate -> Hend H1 H2 Hq Hq' Hold Habsent Hplain.
  destruct (greeting_written template which text before ws1 ws2 q old q' after
              Htemplate Hend H1 H2 Hq Hq' Hold Hplain) as (steps & ->).
  f_equal. f_equal. rewrite sub_within_none.
  - apply assignment_followed.
  - intros s1 s2 Hs. unfold AgentConfig.greeting_assignment, AgentConfig.assigned.
    rewrite (literal_absent _ _ Habsent s1 s2 Hs). reflexivity.
Qed.

Lemma save_agent_config_replaces_up_to_the_first_quote_witness :
  let content :=
    "fallback_greeting = " +:+ String AgentConfig.double_quote
      ("Oh hi! I'm Krish." +:+ String AgentConfig.double_quote
                                 (String AgentConfig.line_feed "")) in
  AgentConfig.save_agent_config plain_templates (greeting_alone Fallback "Hello!") content
  = Some ("fallback_greeting = " +:+ String AgentConfig.double_quote
            ("Hello!" +:+ String AgentConfig.double_quote
                            ("m Krish." +:+ String AgentConfig.double_quote
                                              (String AgentConfig.line_feed "")))).
Proof.
  intros content.
  apply (save_agent_config_replaces_up_to_the_first_quote plain_templates Fallback "Hello!"
           content "" " " " " AgentConfig.double_quote "Oh hi! I" "'"
           ("m Krish." +:+ String AgentConfig.double_quote (String AgentConfig.line_feed ""))).
  - exact plain_templates_kept.
  - reflexivity.
  - apply only_at_the_end_found. vm_compute. reflexivity.
  - reflexivity.
  - reflexivity.
  - reflexivity.
  - reflexivity.
  - reflexivity.
  - apply absent_found. vm_compute. reflexivity.
  - reflexivity.
Defined.

(** X28: a saved greeting is read back.  Let the first occurrence of
    the key of a greeting in the file be followed by white space, [=],
    white space, a quote, a text without a quote and without a line
    feed, and a quote, and let the text before the key have no carriage
    return.  A request that carries this greeting alone, for a greeting
    that is not empty and has no quote of either kind, no line feed, no
    carriage return and no backslash, is answered by writing the file,
    and [get_agent_config] on the file read again returns that
    greeting.  Assumed of [re.sub]: a replacement text without a
    backslash is put in as it is. *)
Theorem saved_greeting_is_read_back
    (template : string -> option (string -> string))
    which text content before ws1 ws2 q old q' after :
  keeps_plain_templates template ->
  content = before +:+ key_of which +:+ ws1 +:+ "=" +:+ ws2
            +:+ String q (old +:+ String q' after) ->
  only_at_the_end (key_of which) (before +:+ key_of which) ->
  every isspace ws1 = true -> every isspace ws2 = true ->
  AgentConfig.is_quote q = true -> AgentConfig.is_quote q' = true ->
  quote_free old = true ->
  without AgentConfig.carriage_return before = true ->
  text <> "" ->
  quote_free text = true ->
  without AgentConfig.backslash text = true ->
  without AgentConfig.carriage_return text = true ->
  exists written,
    AgentConfig.save_agent_config template (greeting_alone which text) content
    = Some written /\
    greeting_of which (AgentConfig.get_agent_config (AgentConfig.read_back written)) = text.
Proof.
  intros Htemplate -> Hend H1 H2 Hq Hq' Hold Hbefore Hsome Hfree Hplain Hreturn.
  destruct (greeting_written template which text before ws1 ws2 q old q' after
              Htemplate Hend H1 H2 Hq Hq' Hold Hplain) as (steps & Hsaved).
  cbv zeta in Hsaved.
  rewrite (escape_quotes_none text (quote_free_without_double_quote text Hfree)) in Hsaved.
  eexists. split; [exact Hsaved|].
  rewrite (read_back_append before _ Hbefore).
  rewrite read_back_append.
  2:{ unfold without in *. rewrite !every_append. cbn [every].
      rewrite every_append, Hreturn. destruct which; reflexivity. }
  rewrite assignment_followed, greeting_of_get_agent_config.
  destruct text as [|first others]; [contradiction|].
  assert (Hfirst : first <> AgentConfig.line_feed /\ quote_free others = true).
  { unfold quote_free in Hfree. cbn [every] in Hfree.
    apply andb_true_iff in Hfree as [Hc Ho]. apply andb_true_iff in Hc as [_ Hc].
    apply negb_true_iff in Hc. split; [apply Ascii.eqb_neq; exact Hc|exact Ho]. }
  destruct Hfirst as [Hfirst Hothers].
  rewrite search_skip.
  - rewrite (search_here _ _ _
               (greeting_at_found (key_of which) first others AgentConfig.double_quote _
                  Hfirst Hothers eq_refl)).
    reflexivity.
  - intros s1 s2 Hs Hne. unfold AgentConfig.greeting_at.
    rewrite (assigned_not_before _ before s1 s2 _ Hend Hs Hne). reflexivity.
Qed.

Lemma saved_greeting_is_read_back_witness :
  let content :=
    "# greetings" +:+ String AgentConfig.line_feed
      ("INITIAL_GREETING   = 'Good morning.'" +:+ String AgentConfig.line_feed "") in
  exists written,
    AgentConfig.save_agent_config plain_templates
      (greeting_alone Initial "Hello, this is Krish!") content = Some written /\
    greeting_of Initial (AgentConfig.get_agent_config (AgentConfig.read_back written))
    = "Hello, this is Krish!"%string.
Proof.
  intros content.
  apply (saved_greeting_is_read_back plain_templates Initial "Hello, this is Krish!" content
           ("# greetings" +:+ String AgentConfig.line_feed "") "   " " "
           "'" "Good morning." "'" (String AgentConfig.line_feed "")).
  - exact plain_templates_kept.
  - reflexivity.
  - apply only_at_the_end_found. vm_compute. reflexivity.
  - reflexivity.
  - reflexivity.
  - reflexivity.
  - reflexivity.
  - reflexivity.
  - reflexivity.
  - discriminate.
  - reflexivity.
  - reflexivity.
  - reflexivity.
Defined.
